(** * OptionGreek dashboard client

    A shallow embedding of the client-side logic of the OptionGreek market
    dashboard: the REST wrapper [api.fetch] and the [api] method table
    (frontend/lib/api.ts), the reconnecting [WSClient] of the same file, the
    realtime hooks [useMarketData] and [useAlerts], and the data-fetching
    skeleton of the feature panels.

    JavaScript values that come out of [JSON.parse] are modelled by [jsval];
    JavaScript numbers stay abstract (a type parameter [num] with the two
    coercions the client uses: truthiness and conversion to a string), so that
    no statement depends on a rendering of IEEE doubles.  Integers produced by
    the client itself (HTTP status codes, millisecond timestamps, retry
    counters, timer periods, the literal arguments of [api] calls) are [Z],
    and so are the strike and spot prices OptionChainTable subtracts and
    compares, which are taken at integer values. *)

From stdpp Require Import gmap strings list fin_maps pretty.
From Stdlib Require Import ZArith.

Set Warnings "-register-all".

(* ===================================================================== *)
(** ** JavaScript values *)
(* ===================================================================== *)

Module Js.

(** The result of [JSON.parse]: objects are finite maps from property names
    to values (a repeated key in the text keeps its last value, which is what
    a map holds). *)
Inductive jsval (num : Type) : Type :=
  | JNull
  | JBool (b : bool)
  | JNum (n : num)
  | JStr (s : string)
  | JArr (l : list (jsval num))
  | JObj (o : gmap string (jsval num)).

Arguments JNull {num}.
Arguments JBool {num} b.
Arguments JNum {num} n.
Arguments JStr {num} s.
Arguments JArr {num} l.
Arguments JObj {num} o.

Section Coercions.
Context {num : Type}.

(** [num_truthy n] is false exactly when [n] is [+0], [-0] or [NaN];
    [num_to_string] is [Number.prototype.toString]. *)
Variable num_truthy : num -> bool.
Variable num_to_string : num -> string.

(** ToBoolean. *)
Definition truthy (v : jsval num) : bool :=
  match v with
  | JNull => false
  | JBool b => b
  | JNum n => num_truthy n
  | JStr s => negb (String.eqb s "")
  | JArr _ | JObj _ => true
  end.

(** ToBoolean of a value that may be [undefined] ([None]). *)
Definition truthy_opt (o : option (jsval num)) : bool :=
  match o with
  | Some v => truthy v
  | None => false
  end.

(** The property read [v.k], for the property names the client reads
    ([detail], [symbol], [d], [s], [type], [data], [status], [message],
    [reason], [description]): none of them is defined on a builtin
    prototype, so only an object can hold one.  The outer [None] is the
    TypeError of reading a property of [null]; the inner [None] is
    [undefined]. *)
Definition get (v : jsval num) (k : string) : option (option (jsval num)) :=
  match v with
  | JNull => None
  | JObj o => Some (o !! k)
  | _ => Some None
  end.

(** The optional read [v?.k] on a value that may be [undefined]. *)
Definition get_opt (v : option (jsval num)) (k : string) : option (jsval num) :=
  match v with
  | Some (JObj o) => o !! k
  | _ => None
  end.

(** The read [v.k] on a value known not to be [null]. *)
Definition prop (v : jsval num) (k : string) : option (jsval num) :=
  match v with
  | JObj o => o !! k
  | _ => None
  end.

(** [Array.prototype.join(",")] over already converted elements. *)
Fixpoint join_comma (l : list string) : string :=
  match l with
  | [] => ""
  | [s] => s
  | s :: rest => s +:+ "," +:+ join_comma rest
  end.

(** ToString.  [None] is a TypeError: an object parsed from JSON that has
    an own [toString] property holds a value there that is not callable,
    and [Object.prototype.valueOf] returns the object itself, so
    ToPrimitive fails.  Arrays are joined with [","], [null] elements
    giving the empty string. *)
Fixpoint ToString (v : jsval num) : option string :=
  match v with
  | JNull => Some "null"
  | JBool b => Some (if b then "true" else "false")
  | JNum n => Some (num_to_string n)
  | JStr s => Some s
  | JArr l =>
      let fix elems (l : list (jsval num)) : option (list string) :=
        match l with
        | [] => Some []
        | x :: rest =>
            match (match x with JNull => Some "" | _ => ToString x end),
                  elems rest with
            | Some s, Some ss => Some (s :: ss)
            | _, _ => None
            end
        end in
      match elems l with
      | Some ss => Some (join_comma ss)
      | None => None
      end
  | JObj o =>
      match o !! "toString" with
      | Some _ => None
      | None => Some "[object Object]"
      end
  end.

End Coercions.

(** Thrown values: the errors the client raises itself or lets through. *)
Inductive error : Type :=
  | NetworkError            (* fetch() rejected *)
  | SyntaxError_            (* response.json() rejected *)
  | TypeError_              (* raised by the engine *)
  | Error_ (message : string).  (* new Error(message) *)

(** A settled promise. *)
Inductive outcome (A : Type) : Type :=
  | Resolved (a : A)
  | Rejected (e : error).

Arguments Resolved {A} a.
Arguments Rejected {A} e.

End Js.

Import Js.

(* ===================================================================== *)
(** ** frontend/lib/api.ts: the REST wrapper *)
(* ===================================================================== *)

Module Api.

(** A property of a headers object: a string, or one of the pairs of an
    array of pairs that a spread copied under its index. *)
Inductive header_value : Type :=
  | HString (s : string)
  | HPair (entry : list string).

(** [HeadersInit]: a plain object, an array of name and value pairs, or a
    [Headers] instance, given by its entries. *)
Inductive HeadersInit : Type :=
  | HObject (o : gmap string header_value)
  | HArray (pairs : list (list string))
  | HInstance (entries : list (string * string)).

(** The fields of [RequestInit] that [api.fetch] and its callers touch;
    [None] is a field left [undefined]. *)
Record RequestInit : Type := {
  method : option string;
  req_body : option string;
  headers : option HeadersInit
}.

Definition no_options : RequestInit :=
  {| method := None; req_body := None; headers := None |}.

(** The own enumerable properties that [...h] copies into an object
    literal: the properties of a plain object, the elements of an array
    under their indices, none for a [Headers] instance (its entries are not
    properties) and none for [undefined]. *)
Fixpoint indexed (i : nat) (pairs : list (list string)) : gmap string header_value :=
  match pairs with
  | [] => ∅
  | entry :: rest => <[pretty i := HPair entry]> (indexed (S i) rest)
  end.

Definition spread (h : option HeadersInit) : gmap string header_value :=
  match h with
  | Some (HObject o) => o
  | Some (HArray pairs) => indexed 0 pairs
  | Some (HInstance _) | None => ∅
  end.

(** What the wrapper reads from a [Response]: [json_body] is what
    [response.json()] resolves to, [None] when it rejects. *)
Record Response (num : Type) : Type := {
  ok : bool;
  status : Z;
  json_body : option (jsval num)
}.

Arguments ok {num} r.
Arguments status {num} r.
Arguments json_body {num} r.

Section Fetch.
Context {num : Type}.
Variable num_truthy : num -> bool.
Variable num_to_string : num -> string.

(** [process.env.NEXT_PUBLIC_API_URL]. *)
Variable NEXT_PUBLIC_API_URL : option string.

(** The network: what the global [fetch] settles to for a URL and an init
    record; [None] is a rejection. *)
Variable http : string -> RequestInit -> option (Response num).

Definition API_BASE_URL : string :=
  match NEXT_PUBLIC_API_URL with
  | Some s => if String.eqb s "" then "http://localhost:8000/api/v1" else s
  | None => "http://localhost:8000/api/v1"
  end.

(** [{ ...options, headers: { 'Content-Type': ..., ...options.headers } }] *)
Definition with_json_header (options : RequestInit) : RequestInit :=
  {| method := method options;
     req_body := req_body options;
     headers :=
       Some (HObject (spread (headers options)
                      ∪ {[ "Content-Type" := HString "application/json" ]})) |}.

(** [response.json()] *)
Definition json (r : Response num) : outcome (jsval num) :=
  match json_body r with
  | Some v => Resolved v
  | None => Rejected SyntaxError_
  end.

(** [new Error(v)]: the message is ToString of the argument. *)
Definition new_Error (v : jsval num) : error :=
  match ToString num_to_string v with
  | Some s => Error_ s
  | None => TypeError_
  end.

Definition status_message (st : Z) : string :=
  "Request failed with status " +:+ pretty st.

(** [api.fetch(endpoint, options)] *)
Definition api_fetch (endpoint : string) (options : RequestInit)
  : outcome (jsval num) :=
  let url := API_BASE_URL +:+ endpoint in
  match http url (with_json_header options) with
  | None => Rejected NetworkError
  | Some response =>
      if negb (ok response) then
        let errorData :=
          match json response with
          | Resolved v => v
          | Rejected _ => JObj ∅
          end in
        match get errorData "detail" with
        | None => Rejected TypeError_
        | Some detail =>
            match detail with
            | Some d =>
                if truthy num_truthy d then Rejected (new_Error d)
                else Rejected (Error_ (status_message (status response)))
            | None => Rejected (Error_ (status_message (status response)))
            end
        end
      else json response
  end.

(** The [detail] field of the response body, in the words of the
    specification: present when the body parses to an object that has
    it. *)
Definition detail_field (r : Response num) : option (jsval num) :=
  get_opt (json_body r) "detail".

End Fetch.

End Api.


(** *** The [api] object: its groups and their methods *)

Module ApiTable.

Import Api.

(** Arguments the panels pass to [api] methods. *)
Inductive arg : Type :=
  | AStr (s : string)
  | ANum (n : Z)
  | ABool (b : bool)
  | AStrs (l : list string).

Section Table.
Context {num : Type}.

(** [JSON.stringify] *)
Variable stringify : jsval num -> string.

(** A template-literal hole [${x}] for a parameter with a default value:
    a missing argument takes the default. *)
Definition hole (a : option arg) (default : string) : string :=
  match a with
  | None => default
  | Some (AStr s) => s
  | Some (ANum n) => pretty n
  | Some (ABool b) => if b then "true" else "false"
  | Some (AStrs l) => join_comma l
  end.

(** A hole for a parameter without default. *)
Definition hole' (a : option arg) : string := hole a "undefined".

Definition GET (endpoint : string) : string * RequestInit :=
  (endpoint, no_options).

Definition POST (endpoint : string) (body : option string) : string * RequestInit :=
  (endpoint, {| method := Some "POST"; req_body := body; headers := None |}).

(** The body of [bulkOCAnalysis]: [JSON.stringify({ symbols })].  The
    parameter's type is [string[]]; a call with another argument does not
    type-check and builds no body here. *)
Definition symbols_body (a : option arg) : option string :=
  match a with
  | Some (AStrs l) => Some (stringify (JObj {[ "symbols" := JArr (JStr <$> l) ]}))
  | _ => None
  end.

(** [api.auth] *)
Definition auth (m : string) : option (list arg -> string * RequestInit) :=
  if String.eqb m "getLoginUrl" then Some (fun _ => GET "/auth/login")
  else if String.eqb m "getStatus" then Some (fun _ => GET "/auth/status")
  else if String.eqb m "autoLogin" then Some (fun _ => POST "/auth/auto-login" None)
  else if String.eqb m "refreshToken" then Some (fun _ => POST "/auth/refresh" None)
  else None.

(** [api.market] *)
Definition market (m : string) : option (list arg -> string * RequestInit) :=
  if String.eqb m "getSpotPrice" then
    Some (fun a => GET ("/market/spot/" +:+ hole' (a !! 0%nat)))
  else if String.eqb m "getIndices" then Some (fun _ => GET "/market/indices")
  else if String.eqb m "getMarketState" then Some (fun _ => GET "/market/state")
  else if String.eqb m "getHistory" then
    Some (fun a => GET ("/market/history/" +:+ hole' (a !! 0%nat)
                        +:+ "?resolution=" +:+ hole (a !! 1%nat) "D"
                        +:+ "&days=" +:+ hole (a !! 2%nat) "30"))
  else if String.eqb m "scanStocks" then
    Some (fun a => GET ("/market/stocks/scan?limit=" +:+ hole (a !! 0%nat) "20"
                        +:+ "&tradable_only=" +:+ hole (a !! 1%nat) "false"
                        +:+ "&top_only=" +:+ hole (a !! 2%nat) "true"))
  else if String.eqb m "getFnoStocks" then Some (fun _ => GET "/market/fno-stocks")
  else if String.eqb m "scanHighVolume" then
    Some (fun a => GET ("/market/high-volume-scan?timeframe=" +:+ hole (a !! 0%nat) "15"
                        +:+ "&top_count=" +:+ hole (a !! 1%nat) "5"))
  else if String.eqb m "bulkOCAnalysis" then
    Some (fun a => POST "/market/bulk-oc-analysis" (symbols_body (a !! 0%nat)))
  else if String.eqb m "getNiftySentiment" then Some (fun _ => GET "/market/nifty-sentiment")
  else if String.eqb m "getLiveTradeSignal" then
    Some (fun a => GET ("/market/live-trade-signal/" +:+ hole' (a !! 0%nat)))
  else if String.eqb m "getGreeksHeatmap" then
    Some (fun a => GET ("/market/greeks-heatmap/" +:+ hole' (a !! 0%nat)
                        +:+ "?strike_count=" +:+ hole (a !! 1%nat) "15"))
  else None.

(** [api.options] *)
Definition options (m : string) : option (list arg -> string * RequestInit) :=
  if String.eqb m "getChain" then
    Some (fun a => GET ("/options/chain/" +:+ hole' (a !! 0%nat)
                        +:+ "?strike_count=" +:+ hole (a !! 1%nat) "10"))
  else if String.eqb m "analyze" then
    Some (fun a => GET ("/options/analysis/" +:+ hole' (a !! 0%nat)))
  else if String.eqb m "getAdjustments" then
    Some (fun a => GET ("/options/adjustments/" +:+ hole' (a !! 0%nat)))
  else None.

(** [api.<group>.<method>]: [None] when the property is [undefined]. *)
Definition api_member (group m : string)
  : option (list arg -> string * RequestInit) :=
  if String.eqb group "auth" then auth m
  else if String.eqb group "market" then market m
  else if String.eqb group "options" then options m
  else None.

Variable num_truthy : num -> bool.
Variable num_to_string : num -> string.
Variable NEXT_PUBLIC_API_URL : option string.
Variable http : string -> RequestInit -> option (Response num).

(** The call [api.<group>.<method>(...args)]: calling [undefined] raises a
    TypeError before any request is built. *)
Definition invoke (group m : string) (args : list arg) : outcome (jsval num) :=
  match api_member group m with
  | None => Rejected TypeError_
  | Some f =>
      let '(endpoint, opts) := f args in
      api_fetch num_truthy num_to_string NEXT_PUBLIC_API_URL http endpoint opts
  end.

(** The HTTP requests a call issues: the URL and init record handed to the
    global [fetch]. *)
Definition requests_of (group m : string) (args : list arg)
  : list (string * RequestInit) :=
  match api_member group m with
  | None => []
  | Some f =>
      let '(endpoint, opts) := f args in
      [(API_BASE_URL NEXT_PUBLIC_API_URL +:+ endpoint, with_json_header opts)]
  end.

End Table.

End ApiTable.


(* ===================================================================== *)
(** ** frontend/lib/api.ts: the reconnecting WebSocket client *)
(* ===================================================================== *)

Module WS.

(** [WebSocket.readyState] *)
Inductive readyState : Type := CONNECTING | OPEN | CLOSING | CLOSED.

(** The fields of a [WSClient].  [ws] names a socket of the browser by its
    index in [sockets] below. *)
Record WSClient : Type := {
  ws : option nat;
  url : string;
  reconnectInterval : Z;
  maxReconnectAttempts : Z;
  reconnectAttempts : Z
}.

(** The client together with the browser state it acts on: every WebSocket
    it has constructed (each carries the four handlers [connect] installs,
    closed over the same client), the pending [setTimeout] callbacks
    [() => this.connect()] with their delays, and three histories: every
    delay ever handed to [setTimeout], every frame handed to a socket's
    [send], and every value handed to [onMessage]. *)
Record world (num : Type) : Type := {
  client : WSClient;
  sockets : list readyState;
  timers : list Z;
  scheduled : list Z;
  wire : list (nat * string);
  delivered : list (jsval num)
}.

Arguments client {num} w.
Arguments sockets {num} w.
Arguments timers {num} w.
Arguments scheduled {num} w.
Arguments wire {num} w.
Arguments delivered {num} w.

(** What can happen to a client: calls of its public methods, the events the
    browser raises on one of its sockets, and the firing of the oldest
    pending timer. *)
Inductive event (num : Type) : Type :=
  | Connect
  | Send (data : jsval num)
  | Subscribe (symbols : list string)
  | Unsubscribe (symbols : list string)
  | Close
  | OnOpen (i : nat)
  | OnMessage (i : nat) (text : string)
  | OnClose (i : nat)
  | OnError (i : nat)
  | Timeout.

Arguments Connect {num}.
Arguments Send {num} data.
Arguments Subscribe {num} symbols.
Arguments Unsubscribe {num} symbols.
Arguments Close {num}.
Arguments OnOpen {num} i.
Arguments OnMessage {num} i text.
Arguments OnClose {num} i.
Arguments OnError {num} i.
Arguments Timeout {num}.

Section Client.
Context {num : Type}.

(** [JSON.stringify] and [JSON.parse] ([None]: it throws). *)
Variable stringify : jsval num -> string.
Variable parse : string -> option (jsval num).

(** Whether [new WebSocket(url)] accepts the URL (it throws otherwise). *)
Variable valid_url : string -> bool.

(** [process.env.NEXT_PUBLIC_WS_URL] *)
Variable NEXT_PUBLIC_WS_URL : option string.

Definition WS_BASE_URL : string :=
  match NEXT_PUBLIC_WS_URL with
  | Some s => if String.eqb s "" then "ws://localhost:8000/api/v1" else s
  | None => "ws://localhost:8000/api/v1"
  end.

(** [new WSClient(path, onMessage)] *)
Definition new_WSClient (path : string) : WSClient :=
  {| ws := None;
     url := WS_BASE_URL +:+ path;
     reconnectInterval := 3000;
     maxReconnectAttempts := 5;
     reconnectAttempts := 0 |}.

Definition init (path : string) : world num :=
  {| client := new_WSClient path;
     sockets := [];
     timers := [];
     scheduled := [];
     wire := [];
     delivered := [] |}.

Definition set_client (w : world num) (c : WSClient) : world num :=
  {| client := c; sockets := sockets w; timers := timers w;
     scheduled := scheduled w; wire := wire w; delivered := delivered w |}.

Definition set_attempts (c : WSClient) (n : Z) : WSClient :=
  {| ws := ws c; url := url c; reconnectInterval := reconnectInterval c;
     maxReconnectAttempts := maxReconnectAttempts c; reconnectAttempts := n |}.

Definition set_socket (w : world num) (i : nat) (s : readyState) : world num :=
  {| client := client w; sockets := <[i := s]> (sockets w); timers := timers w;
     scheduled := scheduled w; wire := wire w; delivered := delivered w |}.

(** [connect()]: when the constructor throws, the [catch] logs and [this.ws]
    keeps its value; otherwise [this.ws] is the new socket, in state
    CONNECTING, with the handlers installed. *)
Definition connect (w : world num) : world num :=
  let c := client w in
  if valid_url (url c) then
    {| client := {| ws := Some (length (sockets w)); url := url c;
                    reconnectInterval := reconnectInterval c;
                    maxReconnectAttempts := maxReconnectAttempts c;
                    reconnectAttempts := reconnectAttempts c |};
       sockets := sockets w ++ [CONNECTING];
       timers := timers w;
       scheduled := scheduled w;
       wire := wire w;
       delivered := delivered w |}
  else w.

(** [attemptReconnect()] *)
Definition attemptReconnect (w : world num) : world num :=
  let c := client w in
  if (reconnectAttempts c <? maxReconnectAttempts c)%Z then
    {| client := set_attempts c (reconnectAttempts c + 1)%Z;
       sockets := sockets w;
       timers := timers w ++ [reconnectInterval c];
       scheduled := scheduled w ++ [reconnectInterval c];
       wire := wire w;
       delivered := delivered w |}
  else w.

(** [send(data)] *)
Definition send (w : world num) (data : jsval num) : world num :=
  match ws (client w) with
  | Some i =>
      match sockets w !! i with
      | Some OPEN =>
          {| client := client w; sockets := sockets w; timers := timers w;
             scheduled := scheduled w;
             wire := wire w ++ [(i, stringify data)];
             delivered := delivered w |}
      | _ => connect w
      end
  | None => connect w
  end.

(** The payloads of [subscribe] and [unsubscribe]. *)
Definition action_payload (action : string) (symbols : list string) : jsval num :=
  JObj (<["action" := JStr action]> {[ "symbols" := JArr (JStr <$> symbols) ]}).

(** [close()]: the browser moves a socket that is not yet closing to
    CLOSING; its close event comes later. *)
Definition close (w : world num) : world num :=
  match ws (client w) with
  | Some i =>
      match sockets w !! i with
      | Some CONNECTING | Some OPEN => set_socket w i CLOSING
      | _ => w
      end
  | None => w
  end.

(** The [onopen] handler. *)
Definition onopen (w : world num) : world num :=
  set_client w (set_attempts (client w) 0).

(** The [onmessage] handler: a text that does not parse makes the handler
    throw before [onMessage] is called. *)
Definition onmessage (w : world num) (text : string) : world num :=
  match parse text with
  | Some data =>
      {| client := client w; sockets := sockets w; timers := timers w;
         scheduled := scheduled w; wire := wire w;
         delivered := delivered w ++ [data] |}
  | None => w
  end.

(** One step.  The browser raises [open] only on a connecting socket,
    [message] only on an open one and [close] once, on a socket that is not
    yet closed; a timer fires only when one is pending. *)
Definition step (w : world num) (e : event num) : world num :=
  match e with
  | Connect => connect w
  | Send data => send w data
  | Subscribe symbols => send w (action_payload "subscribe" symbols)
  | Unsubscribe symbols => send w (action_payload "unsubscribe" symbols)
  | Close => close w
  | OnOpen i =>
      match sockets w !! i with
      | Some CONNECTING => onopen (set_socket w i OPEN)
      | _ => w
      end
  | OnMessage i text =>
      match sockets w !! i with
      | Some OPEN => onmessage w text
      | _ => w
      end
  | OnClose i =>
      match sockets w !! i with
      | Some CLOSED | None => w
      | Some _ => attemptReconnect (set_socket w i CLOSED)
      end
  | OnError i => w
  | Timeout =>
      match timers w with
      | [] => w
      | _ :: rest =>
          connect {| client := client w; sockets := sockets w; timers := rest;
                     scheduled := scheduled w; wire := wire w;
                     delivered := delivered w |}
      end
  end.

Definition run (w : world num) (evs : list (event num)) : world num :=
  fold_left step evs w.

(** No [open] event among the events. *)
Definition no_open (evs : list (event num)) : bool :=
  forallb (fun e => match e with OnOpen _ => false | _ => true end) evs.

(** The delay scheduled before the [n]-th reconnection attempt (from 0). *)
Definition delay_before (w : world num) (n : nat) : option Z :=
  scheduled w !! n.

(** [this.ws && this.ws.readyState === WebSocket.OPEN] *)
Definition socket_open (w : world num) : bool :=
  match ws (client w) with
  | Some i =>
      match sockets w !! i with
      | Some OPEN => true
      | _ => false
      end
  | None => false
  end.

(** What the constants of a client are, and what its counter may be. *)
Record consistent (w : world num) : Prop := {
  interval_const : reconnectInterval (client w) = 3000%Z;
  max_const : maxReconnectAttempts (client w) = 5%Z;
  attempts_range : (0 <= reconnectAttempts (client w) <= 5)%Z;
  delays_const : Forall (fun d => d = 3000%Z) (scheduled w)
}.

(** The number of delays scheduled so far minus the counter: no step other
    than a handled [open] changes it. *)
Definition balance (w : world num) : Z :=
  (Z.of_nat (length (scheduled w)) - reconnectAttempts (client w))%Z.

(** [k] connections failing in a row: socket [j] closes, the timer fires
    and constructs socket [n], which closes in turn, and so on. *)
Fixpoint failures (j n k : nat) : list (event num) :=
  match k with
  | O => []
  | S k' => OnClose j :: Timeout :: failures n (S n) k'
  end.

End Client.

End WS.


(* ===================================================================== *)
(** ** frontend/lib/hooks/useMarketData.ts *)
(* ===================================================================== *)

Module MarketData.

(** A property of a symbol's record: a value copied from an update, or
    the [last_updated] timestamp the client writes ([Date.getTime()]). *)
Inductive field (num : Type) : Type :=
  | FromUpdate (v : jsval num)
  | Timestamp (t : Z).

Arguments FromUpdate {num} v.
Arguments Timestamp {num} t.

(** The hook's state: [data] ([Record<string, any>], one record per symbol)
    and [connected]. *)
Record state (num : Type) : Type := {
  data : gmap string (gmap string (field num));
  connected : bool
}.

Arguments data {num} s.
Arguments connected {num} s.

(** A state update the handler asks React for. *)
Inductive setter (num : Type) : Type :=
  | setData (symbol update : jsval num)
  | setConnected (b : bool).

Arguments setData {num} symbol update.
Arguments setConnected {num} b.

(** The component that calls the hook, as React holds it: mounted, with
    the state of the hook, or unmounted. *)
Inductive component (num : Type) : Type :=
  | Mounted (st : state num)
  | Unmounted.

Arguments Mounted {num} st.
Arguments Unmounted {num}.

Section Hook.
Context {num : Type}.
Variable num_truthy : num -> bool.
Variable num_to_string : num -> string.

Definition initial : state num := {| data := ∅; connected := false |}.

(** [v === 'literal'] *)
Definition is_str (v : option (jsval num)) (lit : string) : bool :=
  match v with
  | Some (JStr s) => String.eqb s lit
  | _ => false
  end.

(** The own enumerable properties an object spread [...v] copies: the
    properties of an object, the indices of an array, the characters of a
    string, nothing for the other primitives. *)
Fixpoint index_props (i : nat) (l : list (jsval num)) : gmap string (jsval num) :=
  match l with
  | [] => ∅
  | x :: rest => <[pretty i := x]> (index_props (S i) rest)
  end.

Fixpoint chars (s : string) : list (jsval num) :=
  match s with
  | EmptyString => []
  | String c rest => JStr (String c EmptyString) :: chars rest
  end.

Definition own_props (v : jsval num) : gmap string (jsval num) :=
  match v with
  | JObj o => o
  | JArr l => index_props 0 l
  | JStr s => index_props 0 (chars s)
  | _ => ∅
  end.

(** [update.symbol || (update.d ? update.s : null)], for an [update] that
    is not [null]; [None] is [undefined]. *)
Definition symbol_of (update : jsval num) : option (jsval num) :=
  if truthy_opt num_truthy (prop update "symbol") then prop update "symbol"
  else if truthy_opt num_truthy (prop update "d") then prop update "s"
  else Some JNull.

(** The record written at [[symbol]]:
    [{ ...prev[symbol], ...update, last_updated: now }]. *)
Definition merged (prev : gmap string (gmap string (field num)))
  (key : string) (update : jsval num) (now : Z) : gmap string (field num) :=
  <["last_updated" := Timestamp now]>
    ((FromUpdate <$> own_props update) ∪ default ∅ (prev !! key)).

(** [handleMessage(message)], the call itself.  Reading [message.type] of
    [null] throws; otherwise the handler returns, having called at most one
    setter: [setData] with an updater that closes over [symbol] and
    [update], or [setConnected]. *)
Definition handleMessage (message : jsval num) : outcome (option (setter num)) :=
  match get message "type" with
  | None => Rejected TypeError_
  | Some ty =>
      if is_str ty "market_update"
         && truthy_opt num_truthy (prop message "data") then
        match prop message "data" with
        | Some update =>
            match symbol_of update with
            | Some symbol =>
                if truthy num_truthy symbol
                then Resolved (Some (setData symbol update))
                else Resolved None
            | None => Resolved None
            end
        | None => Resolved None
        end
      else if is_str ty "subscription_status" then
        Resolved (Some (setConnected (is_str (prop message "status") "success")))
      else Resolved None
  end.

(** The updater handed to [setData], run by React at time [now]:
    [prev => ({ ...prev, [symbol]: { ...prev[symbol], ...update,
                                     last_updated: new Date().getTime() } })].
    A computed key that has no string form throws. *)
Definition updater (symbol update : jsval num) (now : Z)
  (prev : gmap string (gmap string (field num)))
  : outcome (gmap string (gmap string (field num))) :=
  match ToString num_to_string symbol with
  | Some key => Resolved (<[key := merged prev key update now]> prev)
  | None => Rejected TypeError_
  end.

(** React rendering the component after a setter was called, the clock
    reading [now] when the updater runs.  The error of an updater that
    throws is raised while React renders (an updater React ran ahead of the
    render is run again there); nothing in this repository catches such an
    error (there is no error boundary), so React unmounts the tree and the
    state of the hook is gone. *)
Definition render (st : state num) (now : Z) (s : setter num) : component num :=
  match s with
  | setData symbol update =>
      match updater symbol update now (data st) with
      | Resolved next => Mounted {| data := next; connected := connected st |}
      | Rejected _ => Unmounted
      end
  | setConnected b => Mounted {| data := data st; connected := b |}
  end.

(** A message handed to the hook of a component, at time [now].
    An error the handler itself throws is raised inside the socket's
    [onmessage]: no setter was called and the component stays as it was.
    An unmounted component has run the cleanup of the effect, and a setter
    called for it does nothing. *)
Definition receive (c : component num) (now : Z) (message : jsval num)
  : component num :=
  match c with
  | Unmounted => Unmounted
  | Mounted st =>
      match handleMessage message with
      | Resolved (Some s) => render st now s
      | Resolved None => Mounted st
      | Rejected _ => Mounted st
      end
  end.

(** The property key an update resolves to, when it resolves to one: the
    string form of a truthy [symbol_of]. *)
Definition resolved_symbol (update : jsval num) : option string :=
  match symbol_of update with
  | Some symbol =>
      if truthy num_truthy symbol then ToString num_to_string symbol else None
  | None => None
  end.

End Hook.

End MarketData.


(* ===================================================================== *)
(** ** lib/hooks/useAlerts.ts and components/RealTimeAlerts.tsx *)
(* ===================================================================== *)

Module Alerts.

(** ['info' | 'warning' | 'signal'] *)
Definition AlertType : Type := string.

(** What an alert's [message] holds.  [useAlerts] stores either a string or
    the payload object itself; an object is known by its identity [ref]
    (every [JSON.parse] allocates a fresh one), and [===] on objects
    compares identities. *)
Inductive text (num : Type) : Type :=
  | TStr (s : string)
  | TRef (ref : nat) (payload : jsval num).

Arguments TStr {num} s.
Arguments TRef {num} ref payload.

Record RealtimeAlert (num : Type) : Type := {
  id : Z;
  type : AlertType;
  message : text num;
  timestamp : Z
}.

Arguments id {num} r.
Arguments type {num} r.
Arguments message {num} r.
Arguments timestamp {num} r.

Record state (num : Type) : Type := {
  alerts : list (RealtimeAlert num);
  connected : bool
}.

Arguments alerts {num} s.
Arguments connected {num} s.

Section Hook.
Context {num : Type}.
Variable num_truthy : num -> bool.

(** [JSON.stringify] and [String.prototype.toLowerCase] *)
Variable stringify : jsval num -> string.
Variable toLowerCase : string -> string.

Definition initial : state num := {| alerts := []; connected := false |}.

(** [a === b] on message values. *)
Definition strict_eq (a b : text num) : bool :=
  match a, b with
  | TStr s, TStr t => String.eqb s t
  | TRef r _, TRef q _ => Nat.eqb r q
  | _, _ => false
  end.

(** [self.findIndex(p)]: [None] stands for [-1]. *)
Fixpoint findIndex {A : Type} (p : A -> bool) (self : list A) : option nat :=
  match self with
  | [] => None
  | a :: rest => if p a then Some 0%nat else S <$> findIndex p rest
  end.

(** [self.filter((alert, index, self) =>
       index === self.findIndex(a => a.message === alert.message))],
    the elements of [l] being those of [self] from position [index] on. *)
Fixpoint filter_first (self : list (RealtimeAlert num)) (index : nat)
  (l : list (RealtimeAlert num)) : list (RealtimeAlert num) :=
  match l with
  | [] => []
  | alert :: rest =>
      match findIndex (fun a => strict_eq (message a) (message alert)) self with
      | Some j =>
          if Nat.eqb index j then alert :: filter_first self (S index) rest
          else filter_first self (S index) rest
      | None => filter_first self (S index) rest
      end
  end.

(** "Deduplicate by message and cap at last 5" *)
Definition dedupe_cap (next : list (RealtimeAlert num)) : list (RealtimeAlert num) :=
  take 5 (filter_first next 0 next).

(** [normalizeType(raw)]: [(raw || '').toLowerCase()]; a truthy value that
    is not a string has no [toLowerCase] and the call throws. *)
Definition normalizeType (raw : option (jsval num)) : outcome AlertType :=
  let classify (value : string) : AlertType :=
    if String.eqb value "signal" then "signal"
    else if String.eqb value "warning" then "warning"
    else "info" in
  if truthy_opt num_truthy raw then
    match raw with
    | Some (JStr s) => Resolved (classify (toLowerCase s))
    | _ => Rejected TypeError_
    end
  else Resolved (classify (toLowerCase "")).

(** The expression
    [payload.message || payload.reason || payload.description ||
     typeof payload === 'string' ? payload : JSON.stringify(payload)]:
    the conditional operator binds weaker than [||], so the whole
    disjunction is its condition and the payload itself is its first
    branch.  [ref] is the identity of the payload object. *)
Definition text_of (ref : nat) (payload : jsval num) : text num :=
  let is_string := match payload with JStr _ => true | _ => false end in
  if truthy_opt num_truthy (prop payload "message")
     || truthy_opt num_truthy (prop payload "reason")
     || truthy_opt num_truthy (prop payload "description")
     || is_string
  then match payload with
       | JStr s => TStr s
       | _ => TRef ref payload
       end
  else TStr (stringify payload).

(** [handleMessage(message)] of [useAlerts], at time [now], for a message
    whose [data] object has identity [ref]. *)
Definition handleMessage (st : state num) (now : Z) (ref : nat)
  (message : jsval num) : outcome (state num) :=
  let ty := get_opt (Some message) "type" in
  if MarketData.is_str ty "subscription_status" then
    Resolved {| alerts := alerts st;
                connected := MarketData.is_str (prop message "status") "active"
                             || MarketData.is_str (prop message "status") "success" |}
  else if MarketData.is_str ty "alert"
          && truthy_opt num_truthy (prop message "data") then
    match prop message "data" with
    | Some payload =>
        match normalizeType (prop payload "type") with
        | Resolved ty' =>
            let next :=
              {| id := now; type := ty'; message := text_of ref payload;
                 timestamp := now |} :: alerts st in
            Resolved {| alerts := dedupe_cap next; connected := connected st |}
        | Rejected e => Rejected e
        end
    | None => Resolved st
    end
  else Resolved st.

(** The messages of a connection handled in order: the [k]-th message is
    handled at time [now0 + k] and its payload is the [k]-th object
    allocated.  A handler that throws leaves the state as it was. *)
Fixpoint handle_all (st : state num) (now0 : Z) (k : nat)
  (messages : list (jsval num)) : state num :=
  match messages with
  | [] => st
  | m :: rest =>
      match handleMessage st (now0 + Z.of_nat k) k m with
      | Resolved st' => handle_all st' now0 (S k) rest
      | Rejected _ => handle_all st now0 (S k) rest
      end
  end.

(** What an entry shows as its message: the stored value. *)
Definition stored (t : text num) : jsval num :=
  match t with
  | TStr s => JStr s
  | TRef _ payload => payload
  end.

(** No two entries of a list hold messages that are [===]. *)
Definition distinct_messages (l : list (RealtimeAlert num)) : Prop :=
  forall i j x y, (i < j)%nat -> l !! i = Some x -> l !! j = Some y ->
    strict_eq (message x) (message y) = false.

(** An entry whose message is a string. *)
Definition is_string (a : RealtimeAlert num) : Prop :=
  exists s, message a = TStr s.

(** *** components/RealTimeAlerts.tsx, the polling version *)

(** One element of [data.alerts] as the panel reads it: [a.type] and
    [a.message], here strings as the interface declares them.  The cast
    [a.type.toLowerCase() as 'info' | 'warning' | 'signal'] checks
    nothing. *)
Record BackendAlert : Type := {
  a_type : string;
  a_message : string
}.

(** [data.alerts.map((a, idx) => ({ id: Date.now() + idx, ... }))] *)
Fixpoint map_alerts (now : Z) (idx : nat) (l : list BackendAlert)
  : list (RealtimeAlert num) :=
  match l with
  | [] => []
  | a :: rest =>
      {| id := now + Z.of_nat idx; type := toLowerCase (a_type a);
         message := TStr (a_message a); timestamp := now |}
      :: map_alerts now (S idx) rest
  end.

(** The state update of [fetchAlerts] for a response with a non-empty
    [alerts] array. *)
Definition poll_update (prev : list (RealtimeAlert num)) (now : Z)
  (backend : list BackendAlert) : list (RealtimeAlert num) :=
  match backend with
  | [] => prev
  | _ => dedupe_cap (map_alerts now 0 backend ++ prev)
  end.

End Hook.

End Alerts.


(* ===================================================================== *)
(** ** The feature panels: mount effects and timers *)
(* ===================================================================== *)

Module Effects.

(** The panels whose data fetching is written with [useEffect]. *)
Inductive panel : Type :=
  | MarketIndices
  | MarketStateDetector
  | RealTimeAlerts
  | ActiveStrategy
  | VATScanner
  | NiftySentimentCards (autoRefresh : bool) (refreshInterval : Z)
  | HighVolumeScanner
  | QuantDashboard
  | MCPTradingPanel (activeTab : string).

(** What an effect body does, in order: call a function of the component,
    or register it with [setInterval]; every interval an effect registers
    is cleared by the cleanup the effect returns. *)
Inductive cmd : Type :=
  | Call (f : string)
  | SetInterval (f : string) (ms : Z).

(** The body of each panel's data-fetching effect. *)
Definition effect (p : panel) : list cmd :=
  match p with
  | MarketIndices => [Call "fetchIndices"; SetInterval "fetchIndices" 10000]
  | MarketStateDetector => [Call "fetchState"; SetInterval "fetchState" 30000]
  | RealTimeAlerts => [Call "fetchAlerts"; SetInterval "fetchAlerts" 30000]
  | ActiveStrategy => [Call "fetchStrategy"; SetInterval "fetchStrategy" 30000]
  | VATScanner => [Call "fetchVATData"; SetInterval "fetchVATData" 30000]
  | NiftySentimentCards autoRefresh refreshInterval =>
      Call "fetchSentiment"
      :: (if autoRefresh then [SetInterval "fetchSentiment" refreshInterval] else [])
  | HighVolumeScanner => [Call "scanStocks"]
  | QuantDashboard => [Call "fetchTopStocks"]
  | MCPTradingPanel activeTab =>
      Call "fetchMCPStatus"
      :: (if String.eqb activeTab "portfolio" then [Call "fetchPortfolio"]
          else if String.eqb activeTab "orders" then [Call "fetchOrders"]
          else [])
  end.

(** A mounted component as the timer runtime sees it: the active intervals
    (identifier, callback, period), the identifiers the pending cleanup
    clears, the next identifier, and the history of calls. *)
Record runtime : Type := {
  intervals : list (nat * (string * Z));
  cleanup : list nat;
  next_id : nat;
  calls : list string
}.

Definition unmounted : runtime :=
  {| intervals := []; cleanup := []; next_id := 0; calls := [] |}.

(** A runtime with further calls in its history. *)
Definition add_calls (r : runtime) (fs : list string) : runtime :=
  {| intervals := intervals r; cleanup := cleanup r;
     next_id := next_id r; calls := calls r ++ fs |}.

Definition exec (r : runtime) (c : cmd) : runtime :=
  match c with
  | Call f =>
      {| intervals := intervals r; cleanup := cleanup r;
         next_id := next_id r; calls := calls r ++ [f] |}
  | SetInterval f ms =>
      {| intervals := intervals r ++ [(next_id r, (f, ms))];
         cleanup := cleanup r ++ [next_id r];
         next_id := S (next_id r); calls := calls r |}
  end.

(** [clearInterval] of every identifier of the cleanup. *)
Definition run_cleanup (r : runtime) : runtime :=
  {| intervals :=
       filter (fun t => negb (existsb (Nat.eqb (fst t)) (cleanup r))) (intervals r);
     cleanup := [];
     next_id := next_id r;
     calls := calls r |}.

Inductive event : Type :=
  | Mount
  | Rerun        (* a dependency changed: cleanup, then the effect again *)
  | Tick (i : nat)   (* the browser fires interval [i] *)
  | Unmount.

Definition step (p : panel) (r : runtime) (e : event) : runtime :=
  match e with
  | Mount => fold_left exec (effect p) r
  | Rerun => fold_left exec (effect p) (run_cleanup r)
  | Tick i =>
      match find (fun t => Nat.eqb (fst t) i) (intervals r) with
      | Some (_, (f, _)) =>
          {| intervals := intervals r; cleanup := cleanup r;
             next_id := next_id r; calls := calls r ++ [f] |}
      | None => r
      end
  | Unmount => run_cleanup r
  end.

Definition run (p : panel) (evs : list event) : runtime :=
  fold_left (step p) evs unmounted.

(** The polling periods the specification names, with the function each
    panel re-invokes. *)
Definition claimed_period (p : panel) : option (string * Z) :=
  match p with
  | MarketIndices => Some ("fetchIndices", 10000%Z)
  | MarketStateDetector => Some ("fetchState", 30000%Z)
  | RealTimeAlerts => Some ("fetchAlerts", 30000%Z)
  | ActiveStrategy => Some ("fetchStrategy", 30000%Z)
  | VATScanner => Some ("fetchVATData", 30000%Z)
  | _ => None
  end.

End Effects.


(* ===================================================================== *)
(** ** HighVolumeScanner (components/NiftySentimentCards.tsx) *)
(* ===================================================================== *)

Module HVS.

Inductive Phase : Type := scanning | results | analyzing | analysis.

(** What the panel reads from a scan response to act on it: the symbols of
    [top_stocks] (the other fields are only displayed). *)
Record ScanResult : Type := {
  top_stocks : list string
}.

(** The requests the panel issues through [api.market]. *)
Inductive request : Type :=
  | scanHighVolume (timeframe : string) (topCount : Z)
  | bulkOCAnalysis (symbols : list string).

(** A promise in flight: the request awaited and the progress interval its
    [finally] block clears. *)
Record pending : Type := {
  awaited : request;
  progressInterval : nat
}.

(** The component state, followed by what the runtime holds for it: the
    active progress intervals (identifier, increment, period), the promises
    in flight by identifier, and the history of requests issued. *)
Record State (A : Type) : Type := {
  phase : Phase;
  timeframe : string;
  scanResult : option ScanResult;
  analysisResult : option A;
  loading : bool;
  error : option string;
  scanProgress : Z;
  progress_timers : list (nat * (Z * Z));
  next_id : nat;
  in_flight : list (nat * pending);
  issued : list request
}.

Arguments phase {A} s.
Arguments timeframe {A} s.
Arguments scanResult {A} s.
Arguments analysisResult {A} s.
Arguments loading {A} s.
Arguments error {A} s.
Arguments scanProgress {A} s.
Arguments progress_timers {A} s.
Arguments next_id {A} s.
Arguments in_flight {A} s.
Arguments issued {A} s.

(** The buttons of the panel. *)
Inductive control : Type :=
  | Back
  | Min15
  | Hour1
  | Refresh
  | Retry
  | Analyze
  | BackToScan.

Definition control_eqb (a b : control) : bool :=
  match a, b with
  | Back, Back | Min15, Min15 | Hour1, Hour1 | Refresh, Refresh
  | Retry, Retry | Analyze, Analyze | BackToScan, BackToScan => true
  | _, _ => false
  end.

(** How a rejected promise is seen by a [catch (err)]: [err.message],
    [None] when the thrown value has none. *)
Inductive event (A : Type) : Type :=
  | Mount
  | Click (c : control)
  | ProgressTick (i : nat)
  | ScanResolved (p : nat) (result : ScanResult)
  | ScanRejected (p : nat) (err_message : option string)
  | AnalysisResolved (p : nat) (result : A)
  | AnalysisRejected (p : nat) (err_message : option string).

Arguments Mount {A}.
Arguments Click {A} c.
Arguments ProgressTick {A} i.
Arguments ScanResolved {A} p result.
Arguments ScanRejected {A} p err_message.
Arguments AnalysisResolved {A} p result.
Arguments AnalysisRejected {A} p err_message.

Section Component.
Context {A : Type}.

Definition initial : State A :=
  {| phase := scanning; timeframe := "15"; scanResult := None;
     analysisResult := None; loading := true; error := None;
     scanProgress := 0; progress_timers := []; next_id := 0;
     in_flight := []; issued := [] |}.

(** [err.message || fallback] *)
Definition message_or (err_message : option string) (fallback : string) : string :=
  match err_message with
  | Some m => if String.eqb m "" then fallback else m
  | None => fallback
  end.

(** [scanStocks()] up to its [await]. *)
Definition scanStocks (s : State A) : State A :=
  let req := scanHighVolume (timeframe s) 5 in
  {| phase := scanning; timeframe := timeframe s; scanResult := scanResult s;
     analysisResult := analysisResult s; loading := true; error := None;
     scanProgress := 0;
     progress_timers := progress_timers s ++ [(next_id s, (2%Z, 100%Z))];
     next_id := S (S (next_id s));
     in_flight := in_flight s
                  ++ [(S (next_id s), {| awaited := req; progressInterval := next_id s |})];
     issued := issued s ++ [req] |}.

(** [analyzeOptionChains()] up to its [await]. *)
Definition analyzeOptionChains (s : State A) : State A :=
  match scanResult s with
  | Some r =>
      match top_stocks r with
      | [] => s
      | symbols =>
          let req := bulkOCAnalysis symbols in
          {| phase := analyzing; timeframe := timeframe s; scanResult := scanResult s;
             analysisResult := analysisResult s; loading := loading s; error := None;
             scanProgress := 0;
             progress_timers := progress_timers s ++ [(next_id s, (5%Z, 200%Z))];
             next_id := S (S (next_id s));
             in_flight := in_flight s
                          ++ [(S (next_id s),
                               {| awaited := req; progressInterval := next_id s |})];
             issued := issued s ++ [req] |}
      end
  | None => s
  end.

Definition clearInterval (i : nat) (l : list (nat * (Z * Z))) : list (nat * (Z * Z)) :=
  List.filter (fun t => negb (Nat.eqb (fst t) i)) l.

Definition remove_pending (p : nat) (l : list (nat * pending)) : list (nat * pending) :=
  List.filter (fun t => negb (Nat.eqb (fst t) p)) l.

Definition find_pending (p : nat) (l : list (nat * pending)) : option pending :=
  snd <$> List.find (fun t => Nat.eqb (fst t) p) l.

(** The rest of [scanStocks] once its request settles; [outcome] is
    [inl result] or [inr err.message]. *)
Definition scan_settled (s : State A) (p : nat) (pd : pending)
  (outcome : ScanResult + option string) : State A :=
  {| phase := match outcome with inl _ => results | inr _ => phase s end;
     timeframe := timeframe s;
     scanResult := match outcome with inl r => Some r | inr _ => scanResult s end;
     analysisResult := analysisResult s;
     loading := false;
     error := match outcome with
              | inl _ => error s
              | inr m => Some (message_or m "Failed to scan stocks")
              end;
     scanProgress := match outcome with inl _ => 100 | inr _ => scanProgress s end;
     progress_timers := clearInterval (progressInterval pd) (progress_timers s);
     next_id := next_id s;
     in_flight := remove_pending p (in_flight s);
     issued := issued s |}.

(** The rest of [analyzeOptionChains] once its request settles. *)
Definition analysis_settled (s : State A) (p : nat) (pd : pending)
  (outcome : A + option string) : State A :=
  {| phase := match outcome with inl _ => analysis | inr _ => results end;
     timeframe := timeframe s;
     scanResult := scanResult s;
     analysisResult := match outcome with inl r => Some r | inr _ => analysisResult s end;
     loading := loading s;
     error := match outcome with
              | inl _ => error s
              | inr m => Some (message_or m "Failed to analyze option chains")
              end;
     scanProgress := match outcome with inl _ => 100 | inr _ => scanProgress s end;
     progress_timers := clearInterval (progressInterval pd) (progress_timers s);
     next_id := next_id s;
     in_flight := remove_pending p (in_flight s);
     issued := issued s |}.

(** [setTimeframe(tf)]; when the value changes the effect with dependency
    [[timeframe]] runs [scanStocks] of the new render. *)
Definition setTimeframe (s : State A) (tf : string) : State A :=
  if String.eqb (timeframe s) tf then s
  else
    scanStocks
      {| phase := phase s; timeframe := tf; scanResult := scanResult s;
         analysisResult := analysisResult s; loading := loading s; error := error s;
         scanProgress := scanProgress s; progress_timers := progress_timers s;
         next_id := next_id s; in_flight := in_flight s; issued := issued s |}.

Definition setPhase (s : State A) (ph : Phase) : State A :=
  {| phase := ph; timeframe := timeframe s; scanResult := scanResult s;
     analysisResult := analysisResult s; loading := loading s; error := error s;
     scanProgress := scanProgress s; progress_timers := progress_timers s;
     next_id := next_id s; in_flight := in_flight s; issued := issued s |}.

(** [setScanProgress(prev => Math.min(prev + inc, 90))] *)
Definition progress_tick (s : State A) (inc : Z) : State A :=
  {| phase := phase s; timeframe := timeframe s; scanResult := scanResult s;
     analysisResult := analysisResult s; loading := loading s; error := error s;
     scanProgress := Z.min (scanProgress s + inc) 90;
     progress_timers := progress_timers s;
     next_id := next_id s; in_flight := in_flight s; issued := issued s |}.

(** The buttons the panel renders. *)
Definition render (s : State A) : list control :=
  [Back; Min15; Hour1]
  ++ (match phase s with results | analysis => [Refresh] | _ => [] end)
  ++ (match error s with
      | Some m => if String.eqb m "" then [] else [Retry]
      | None => []
      end)
  ++ (match phase s with
      | results => if loading s then [] else [Analyze]
      | analysis => [BackToScan]
      | _ => []
      end).

(** The [onClick] handler of each button ([onBack] belongs to the parent). *)
Definition onClick (c : control) (s : State A) : State A :=
  match c with
  | Back => s
  | Min15 => setTimeframe s "15"
  | Hour1 => setTimeframe s "60"
  | Refresh => scanStocks s
  | Retry => scanStocks s
  | Analyze => analyzeOptionChains s
  | BackToScan => setPhase s results
  end.

Definition step (s : State A) (e : event A) : State A :=
  match e with
  | Mount => scanStocks s
  | Click c => if existsb (control_eqb c) (render s) then onClick c s else s
  | ProgressTick i =>
      match List.find (fun t => Nat.eqb (fst t) i) (progress_timers s) with
      | Some (_, (inc, _)) => progress_tick s inc
      | None => s
      end
  | ScanResolved p r =>
      match find_pending p (in_flight s) with
      | Some pd =>
          match awaited pd with
          | scanHighVolume _ _ => scan_settled s p pd (inl r)
          | bulkOCAnalysis _ => s
          end
      | None => s
      end
  | ScanRejected p m =>
      match find_pending p (in_flight s) with
      | Some pd =>
          match awaited pd with
          | scanHighVolume _ _ => scan_settled s p pd (inr m)
          | bulkOCAnalysis _ => s
          end
      | None => s
      end
  | AnalysisResolved p r =>
      match find_pending p (in_flight s) with
      | Some pd =>
          match awaited pd with
          | bulkOCAnalysis _ => analysis_settled s p pd (inl r)
          | scanHighVolume _ _ => s
          end
      | None => s
      end
  | AnalysisRejected p m =>
      match find_pending p (in_flight s) with
      | Some pd =>
          match awaited pd with
          | bulkOCAnalysis _ => analysis_settled s p pd (inr m)
          | scanHighVolume _ _ => s
          end
      | None => s
      end
  end.

Definition run (evs : list (event A)) : State A :=
  fold_left step evs initial.

End Component.

End HVS.


(* ===================================================================== *)
(** ** What the panels render *)
(* ===================================================================== *)

Module Views.

(** A rendered element, as far as the statements below need it: a text
    node holding a value, or a button with its label and handler. *)
Inductive element (V H : Type) : Type :=
  | Text (v : V)
  | Button (label : string) (onClick : H).

Arguments Text {V H} v.
Arguments Button {V H} label onClick.

Definition buttons {V H : Type} (view : list (element V H)) : list (string * H) :=
  flat_map (fun e => match e with Button l h => [(l, h)] | Text _ => [] end) view.

(** *** components/RealTimeAlerts.tsx (polling version) *)

Section RealTimeAlerts.
Context {num : Type}.
Variable toLowerCase : string -> string.

(** [fetchAlerts] once [api.market.getMarketState()] settles: a response
    whose [alerts] is a non-empty array updates the list; a rejection is
    caught by [catch (err) { /* Silent fail */ }]. *)
Definition fetchAlerts_settled (prev : list (Alerts.RealtimeAlert num)) (now : Z)
  (response : outcome (list Alerts.BackendAlert)) : list (Alerts.RealtimeAlert num) :=
  match response with
  | Resolved backend => Alerts.poll_update toLowerCase prev now backend
  | Rejected _ => prev
  end.

(** The panel shows a placeholder or one line per alert; it has no
    handler of its own. *)
Definition render_alerts (alerts : list (Alerts.RealtimeAlert num))
  : list (element (Alerts.text num) Empty_set) :=
  match alerts with
  | [] => [Text (Alerts.TStr "System initialized. Waiting for market anomalies...")]
  | _ => (fun a => Text (Alerts.message a)) <$> alerts
  end.

End RealTimeAlerts.

(** *** frontend/components/OptionChainTable.tsx *)

(** What [useApiQuery] hands to the component. *)
Record query (D : Type) : Type := {
  q_data : option D;
  isLoading : bool;
  q_error : option string    (* error.message *)
}.

Arguments q_data {D} q.
Arguments isLoading {D} q.
Arguments q_error {D} q.

(** The handlers a query-based panel can install. *)
Inductive query_action : Type := refetch.

(** A row of the chain and the chain itself.  Prices are modelled at
    integer values, on which the subtraction and comparison below are exact
    in double arithmetic; [spot_price] may be missing. *)
Record chain_row : Type := {
  strike_price : Z
}.

Record chain : Type := {
  spot_price : option Z;
  rows : list chain_row
}.

(** [Math.abs(strike - (chain?.spot_price || 0)) < 25] *)
Definition isATM (c : option chain) (row : chain_row) : bool :=
  let spot :=
    match c with
    | Some c' => match spot_price c' with
                 | Some p => if Z.eqb p 0 then 0%Z else p
                 | None => 0%Z
                 end
    | None => 0%Z
    end in
  (Z.abs (strike_price row - spot) <? 25)%Z.

(** A rendered table row: whether it carries the ATM highlight, and the
    strike cell. *)
Record row_view : Type := {
  atm_highlight : bool;
  strike_cell : Z
}.

Inductive chain_view : Type :=
  | LoadingChain
  | ChainError (message : string) (controls : list (string * query_action))
  | ChainTable (body : list row_view).

(** The component: the loading placeholder, the error state with its Retry
    button, or the table. *)
Definition OptionChainTable (q : query chain) : chain_view :=
  if isLoading q && negb (bool_decide (is_Some (q_data q))) then LoadingChain
  else
    match q_error q with
    | Some message => ChainError message [("Retry", refetch)]
    | None =>
        ChainTable
          ((fun row => {| atm_highlight := isATM (q_data q) row;
                          strike_cell := strike_price row |})
             <$> (match q_data q with Some c => rows c | None => [] end))
    end.

(** *** What React renders *)

(** A component's render: the loading skeleton, an error thrown while
    rendering, or what is shown. *)
Inductive rendering (A : Type) : Type :=
  | Skeleton
  | Throws
  | Shows (a : A).

Arguments Skeleton {A}.
Arguments Throws {A}.
Arguments Shows {A} a.


Section Children.
Context {num : Type}.
Variable num_to_string : num -> string.

(** The text React puts in the DOM for a value used as a child of an
    element: the text of a number or of a string that is not empty, nothing
    for [null], a boolean or the empty string, the children of an array in
    turn.  An object is not a valid child: React throws, which is [None]. *)
Fixpoint child (v : jsval num) : option (list string) :=
  match v with
  | JNull | JBool _ => Some []
  | JNum n => Some [num_to_string n]
  | JStr s => Some (if String.eqb s "" then [] else [s])
  | JArr l =>
      (fix children (l : list (jsval num)) : option (list string) :=
         match l with
         | [] => Some []
         | x :: rest =>
             match child x, children rest with
             | Some a, Some b => Some (a ++ b)
             | _, _ => None
             end
         end) l
  | JObj _ => None
  end.



End Children.

(** *** MarketStateDetector *)


(** The keys of [timeWindowLabels]. *)
Definition timeWindowLabels : list string :=
  ["pre_market"; "noise"; "structure"; "traps"; "adjustment"; "high_risk";
   "post_market"].

(** The names an object literal inherits from [Object.prototype] as
    functions; the name ["__proto__"] gives the prototype object itself. *)
Definition Object_prototype_functions : list string :=
  ["constructor"; "hasOwnProperty"; "isPrototypeOf"; "propertyIsEnumerable";
   "toLocaleString"; "toString"; "valueOf"; "__defineGetter__";
   "__defineSetter__"; "__lookupGetter__"; "__lookupSetter__"].

(** What the time window line shows: the label of a key of
    [timeWindowLabels], or the children of another value. *)
Inductive window_view : Type :=
  | Label (key : string)
  | Own (texts : list string).


Section MarketStateDetector.
Context {num : Type}.
Variable num_truthy : num -> bool.
Variable num_to_string : num -> string.

(** The component state: the response of the last successful fetch, stored
    as it came. *)
Record msd_state : Type := {
  state : option (jsval num);
  msd_loading : bool;
  msd_error : option string
}.






(** The time window line, [{timeWindowLabels[timeWindow] || timeWindow}]
    with [timeWindow = state?.time_window || 'post_market'].  The lookup
    throws for a value without a string form.  For a key without a label it
    goes to [Object.prototype]: ["__proto__"] finds the prototype object,
    which React refuses as a child, and the other inherited names find
    functions, for which React renders nothing; any other key finds
    nothing and [timeWindow] itself is the child. *)
Definition time_window (s : msd_state) : rendering window_view :=
  if msd_loading s then Skeleton
  else
    let timeWindow :=
      match get_opt (state s) "time_window" with
      | Some v => if truthy num_truthy v then v else JStr "post_market"
      | None => JStr "post_market"
      end in
    match ToString num_to_string timeWindow with
    | None => Throws
    | Some key =>
        if bool_decide (key ∈ timeWindowLabels) then Shows (Label key)
        else if String.eqb key "__proto__" then Throws
        else if bool_decide (key ∈ Object_prototype_functions) then Shows (Own [])
        else
          match child num_to_string timeWindow with
          | Some texts => Shows (Own texts)
          | None => Throws
          end
    end.

End MarketStateDetector.

Arguments state {num} m.
Arguments msd_loading {num} m.
Arguments msd_error {num} m.

End Views.


(* ===================================================================== *)
(** ** VATScanner and the call sites of the [api] object *)
(* ===================================================================== *)

Module VAT.

Import Api ApiTable.

Record State (num : Type) : Type := {
  selectedSymbol : string;
  data : option (jsval num);
  loading : bool;
  error : option (jsval num)
}.

Arguments selectedSymbol {num} s.
Arguments data {num} s.
Arguments loading {num} s.
Arguments error {num} s.

Section Component.
Context {num : Type}.
Variable stringify : jsval num -> string.
Variable num_truthy : num -> bool.
Variable num_to_string : num -> string.
Variable NEXT_PUBLIC_API_URL : option string.
Variable http : string -> RequestInit -> option (Response num).

(** The [message] of an error the engine or the browser raises. *)
Variable engine_message : Js.error -> string.

Definition initial : State num :=
  {| selectedSymbol := "NSE:NIFTY50-INDEX"; data := None; loading := false;
     error := None |}.

(** [err.message] *)
Definition err_message (e : Js.error) : string :=
  match e with
  | Error_ m => m
  | _ => engine_message e
  end.

(** [fetchVATData()] run to completion against the network [http]. *)
Definition fetchVATData (s : State num) : State num :=
  match invoke stringify num_truthy num_to_string NEXT_PUBLIC_API_URL http
          "market" "scanVAT" [AStr (selectedSymbol s)] with
  | Resolved result =>
      match get result "success" with
      | Some success =>
          if truthy_opt num_truthy success then
            {| selectedSymbol := selectedSymbol s; data := Some result;
               loading := false; error := None |}
          else
            {| selectedSymbol := selectedSymbol s; data := data s; loading := false;
               error :=
                 Some (if truthy_opt num_truthy (prop result "error")
                       then default (JStr "Failed to fetch analysis") (prop result "error")
                       else JStr "Failed to fetch analysis") |}
      | None =>
          {| selectedSymbol := selectedSymbol s; data := data s; loading := false;
             error := Some (JStr (HVS.message_or (Some (engine_message TypeError_))
                                    "Network error")) |}
      end
  | Rejected e =>
      {| selectedSymbol := selectedSymbol s; data := data s; loading := false;
         error := Some (JStr (HVS.message_or (Some (err_message e)) "Network error")) |}
  end.

End Component.

(** Every [api.<group>.<method>] expression of the panels and hooks, by the
    component it occurs in ([MCPTradingPanel] only calls [api.fetch]). *)
Definition call_sites : list (string * (string * string)) :=
  [ ("GreeksHeatmap", ("market", "getGreeksHeatmap"));
    ("LiveTradeSignal", ("market", "getLiveTradeSignal"));
    ("RealTimeAlerts", ("market", "getMarketState"));
    ("NiftySentimentCards", ("market", "getNiftySentiment"));
    ("HighVolumeScanner", ("market", "scanHighVolume"));
    ("HighVolumeScanner", ("market", "bulkOCAnalysis"));
    ("ActiveStrategy", ("market", "getMarketState"));
    ("MarketIndices", ("market", "getIndices"));
    ("QuantDashboard", ("market", "scanHighVolume"));
    ("StockAnalysis", ("market", "scanStocks"));
    ("OptionChainTable", ("options", "getChain"));
    ("MarketStateDetector", ("market", "getMarketState"));
    ("VATScanner", ("market", "scanVAT"));
    ("useAuth", ("auth", "getStatus"));
    ("useAuth", ("auth", "getLoginUrl"));
    ("useAuth", ("auth", "autoLogin")) ].

(** Whether a call site names a method the [api] object defines. *)
Definition defined {num : Type} (stringify : jsval num -> string)
  (site : string * (string * string)) : bool :=
  match api_member stringify (fst (snd site)) (snd (snd site)) with
  | Some _ => true
  | None => false
  end.

End VAT.


(* ===================================================================== *)
(** ** Traces of a WSClient and the hooks that own one *)
(* ===================================================================== *)

Module Traces.

Section Traces.
Context {num : Type}.
Variable stringify : jsval num -> string.
Variable parse : string -> option (jsval num).
Variable valid_url : string -> bool.
Variable NEXT_PUBLIC_WS_URL : option string.

(** The number of [open] events of a trace. *)
Fixpoint opens (evs : list (WS.event num)) : nat :=
  match evs with
  | [] => 0
  | WS.OnOpen _ :: rest => S (opens rest)
  | _ :: rest => opens rest
  end.

(** What the callers of a trace ask to send, serialised, in order. *)
Definition asked (e : WS.event num) : list string :=
  match e with
  | WS.Send data => [stringify data]
  | WS.Subscribe symbols => [stringify (WS.action_payload "subscribe" symbols)]
  | WS.Unsubscribe symbols => [stringify (WS.action_payload "unsubscribe" symbols)]
  | _ => []
  end.

Fixpoint all_asked (evs : list (WS.event num)) : list string :=
  match evs with
  | [] => []
  | e :: rest => asked e ++ all_asked rest
  end.

(** The messages of a trace that parse, in order. *)
Fixpoint all_parsed (evs : list (WS.event num)) : list (jsval num) :=
  match evs with
  | [] => []
  | WS.OnMessage _ text :: rest =>
      match parse text with
      | Some data => data :: all_parsed rest
      | None => all_parsed rest
      end
  | _ :: rest => all_parsed rest
  end.

(** An event raised by the browser (a socket event or a timer), as
    opposed to a call of a method of the client. *)
Definition by_browser (e : WS.event num) : bool :=
  match e with
  | WS.OnOpen _ | WS.OnMessage _ _ | WS.OnClose _ | WS.OnError _ | WS.Timeout => true
  | _ => false
  end.

(** *** The effects of [useMarketData] and [useAlerts] *)

(** What tells the two effects apart: the path, whether the effect runs
    at all ([useMarketData] returns at once for an empty [symbols]), the
    delay of the subscribe timer, the payload it sends, and the payload
    the cleanup sends before closing, if any. *)
Record effect : Type := {
  path : string;
  enabled : bool;
  delay : Z;
  subscribe_payload : jsval num;
  cleanup_payload : option (jsval num)
}.

Definition useMarketData (symbols : list string) : effect :=
  {| path := "/ws/market";
     enabled := match symbols with [] => false | _ => true end;
     delay := 1000;
     subscribe_payload := WS.action_payload "subscribe" symbols;
     cleanup_payload := Some (WS.action_payload "unsubscribe" symbols) |}.

Definition useAlerts : effect :=
  {| path := "/ws/alerts";
     enabled := true;
     delay := 500;
     subscribe_payload := JObj {[ "action" := JStr "subscribe" ]};
     cleanup_payload := None |}.

(** A hook instance: the client its effect created, if it ran, and whether
    the subscribe timer is pending. *)
Record hook : Type := {
  owned : option (WS.world num);
  subscribe_timer : bool
}.

Definition not_mounted : hook := {| owned := None; subscribe_timer := false |}.

Inductive hook_event : Type :=
  | Mount
  | SubscribeTimer                  (* the subscribe timer fires *)
  | Browser (e : WS.event num)      (* an event on the client's sockets or timers *)
  | Unmount.

(** The effect body, the timer callback and the cleanup. *)
Definition hook_step (eff : effect) (h : hook) (e : hook_event) : hook :=
  match e with
  | Mount =>
      if enabled eff then
        {| owned := Some (WS.connect valid_url
                            (WS.init NEXT_PUBLIC_WS_URL (path eff)));
           subscribe_timer := true |}
      else h
  | SubscribeTimer =>
      if subscribe_timer h then
        {| owned := (fun w => WS.send stringify valid_url w (subscribe_payload eff))
                      <$> owned h;
           subscribe_timer := false |}
      else h
  | Browser e =>
      if by_browser e then
        {| owned := (fun w => WS.step stringify parse valid_url w e) <$> owned h;
           subscribe_timer := subscribe_timer h |}
      else h
  | Unmount =>
      match owned h with
      | Some w =>
          let w1 := match cleanup_payload eff with
                    | Some data => WS.send stringify valid_url w data
                    | None => w
                    end in
          {| owned := Some (WS.close w1); subscribe_timer := false |}
      | None => h
      end
  end.

Definition hook_run (eff : effect) (evs : list hook_event) : hook :=
  fold_left (hook_step eff) evs not_mounted.

End Traces.

End Traces.


(* ===================================================================== *)
(** ** Streams of messages *)
(* ===================================================================== *)

Module Streams.

Section Streams.
Context {num : Type}.
Variable num_truthy : num -> bool.
Variable num_to_string : num -> string.

(** The messages of a connection handed to the hook in turn, each with
    the time React renders it at. *)
Fixpoint market_all (c : MarketData.component num)
  (messages : list (Z * jsval num)) : MarketData.component num :=
  match messages with
  | [] => c
  | (now, m) :: rest =>
      market_all (MarketData.receive num_truthy num_to_string c now m) rest
  end.

(** A symbol's record has the field. *)
Definition has_field (st : MarketData.state num) (symbol f : string) : Prop :=
  is_Some (MarketData.data st !! symbol ≫= (.!! f)).

(** The polling RealTimeAlerts panel over its successive fetches, each
    with the time it settles at. *)
Variable toLowerCase : string -> string.

Fixpoint poll_all (prev : list (Alerts.RealtimeAlert num))
  (fetches : list (Z * outcome (list Alerts.BackendAlert)))
  : list (Alerts.RealtimeAlert num) :=
  match fetches with
  | [] => prev
  | (now, response) :: rest =>
      poll_all (Views.fetchAlerts_settled toLowerCase prev now response) rest
  end.

End Streams.

End Streams.


(* ===================================================================== *)
(** ** Progress indicators and the bookkeeping of HighVolumeScanner *)
(* ===================================================================== *)

Module Progress.

(** StockAnalysis (frontend/components/QuantDashboard.tsx): the updater of
    its simulated progress,
    [prev => { if (prev >= 90) return prev; return prev + 2; }]. *)
Definition stock_tick (prev : Z) : Z :=
  if (prev >=? 90)%Z then prev else (prev + 2)%Z.

Section Scanner.
Context {A : Type}.

(** Each progress interval belongs to one request in flight, in the order
    they were started, with increments 2 (scan) or 5 (analysis); the
    identifiers of intervals and of requests are pairwise different. *)
Record paired (s : HVS.State A) : Prop := {
  timers_match :
    Forall2 (fun t q => fst t = HVS.progressInterval (snd q))
      (HVS.progress_timers s) (HVS.in_flight s);
  timer_ids : NoDup (fst <$> HVS.progress_timers s);
  request_ids : NoDup (fst <$> HVS.in_flight s);
  timer_fresh : Forall (fun t => (fst t < HVS.next_id s)%nat) (HVS.progress_timers s);
  request_fresh : Forall (fun q => (fst q < HVS.next_id s)%nat) (HVS.in_flight s);
  increments :
    Forall (fun t => fst (snd t) = 2%Z \/ fst (snd t) = 5%Z) (HVS.progress_timers s);
  progress_range : (0 <= HVS.scanProgress s <= 100)%Z
}.

(** What the panel may ask for. *)
Definition well_formed (r : HVS.request) : Prop :=
  match r with
  | HVS.scanHighVolume tf n => (tf = "15" \/ tf = "60") /\ n = 5%Z
  | HVS.bulkOCAnalysis symbols => symbols <> []
  end.

(** The timeframe is one of the two the buttons offer, and every request
    issued so far is well formed. *)
Definition tidy (s : HVS.State A) : Prop :=
  (HVS.timeframe s = "15" \/ HVS.timeframe s = "60")
  /\ Forall well_formed (HVS.issued s).

End Scanner.

End Progress.


(* ===================================================================== *)
(** ** components/ActiveStrategy.tsx *)
(* ===================================================================== *)

Module Strategy.

Inductive Status : Type := scanning | signal | no_trade.

(** [StrategyData]; a field the object literal does not set, or sets to
    [undefined], is [None]. *)
Record StrategyData (num : Type) : Type := {
  status : Status;
  strategy_type : string;
  strike : option (jsval num);
  action : option (jsval num);
  rationale : option (jsval num);
  confidence : option (jsval num);
  invalidation : option string;
  time_window : option (jsval num)
}.

Arguments status {num} s.
Arguments strategy_type {num} s.
Arguments strike {num} s.
Arguments action {num} s.
Arguments rationale {num} s.
Arguments confidence {num} s.
Arguments invalidation {num} s.
Arguments time_window {num} s.

Section Component.
Context {num : Type}.
Variable num_truthy : num -> bool.

(** [Number.prototype.toFixed(0)] *)
Variable toFixed0 : num -> string.

(** The initial state, which the [catch] block also sets. *)
Definition initial : StrategyData num :=
  {| status := scanning; strategy_type := "Adjustment Setup (A1)";
     strike := None; action := None; rationale := None; confidence := None;
     invalidation := None; time_window := None |}.

(** [v?.[0]] on a value that may be [undefined]: the first element of an
    array, the first character of a string, the property ["0"] of an
    object. *)
Definition first (v : option (jsval num)) : option (jsval num) :=
  match v with
  | Some (JArr l) => l !! 0%nat
  | Some (JStr (String c _)) => Some (JStr (String c EmptyString))
  | Some (JObj o) => o !! "0"
  | _ => None
  end.

(** [a || b] where both may be [undefined]. *)
Definition or (a b : option (jsval num)) : option (jsval num) :=
  if truthy_opt num_truthy a then a else b.

(** [`${data.spot_price?.toFixed(0)}`]: ["undefined"] for a missing or
    [null] price, the formatted number for a number; any other value has no
    callable [toFixed] and the call throws. *)
Definition spot_text (spot : option (jsval num)) : option string :=
  match spot with
  | None | Some JNull => Some "undefined"
  | Some (JNum n) => Some (toFixed0 n)
  | Some _ => None
  end.

(** [data?.adjustment?.detected && data.adjustment.trade_setup] *)
Definition adjustment_signal (data : jsval num) : bool :=
  match prop data "adjustment" with
  | Some JNull | None => false
  | Some adj =>
      truthy_opt num_truthy (prop adj "detected")
      && truthy_opt num_truthy (prop adj "trade_setup")
  end.

(** [fetchStrategy] once [api.market.getMarketState()] settles; [loading]
    becomes false in every case. *)
Definition fetchStrategy_settled (response : outcome (jsval num))
  : StrategyData num :=
  match response with
  | Rejected _ => initial
  | Resolved data =>
      if adjustment_signal data then
        match prop data "adjustment" with
        | Some adj =>
            match prop adj "trade_setup" with
            | Some setup =>
                match spot_text (prop data "spot_price") with
                | Some text =>
                    {| status := signal;
                       strategy_type := "Adjustment Trade";
                       strike := or (first (prop setup "strikes"))
                                    (prop data "atm_strike");
                       action := prop setup "action";
                       rationale := prop setup "rationale";
                       confidence := prop adj "confidence";
                       invalidation := Some ("Spot move > 100 pts from " +:+ text);
                       time_window := prop data "time_window" |}
                | None => initial
                end
            | None => initial
            end
        | None => initial
        end
      else if truthy_opt num_truthy (prop data "tradable")
              && MarketData.is_str (prop data "state") "TREND" then
        {| status := scanning;
           strategy_type := "Directional Setup";
           strike := None; action := None;
           rationale := prop data "message";
           confidence := prop data "confidence";
           invalidation := None;
           time_window := prop data "time_window" |}
      else
        {| status := no_trade;
           strategy_type :=
             if MarketData.is_str (prop data "state") "RANGE"
             then "Range Bound" else "Waiting";
           strike := None; action := None;
           rationale := or (prop data "message")
                           (Some (JStr "No actionable setup detected"));
           confidence := None;
           invalidation := None;
           time_window := prop data "time_window" |}
  end.

End Component.

End Strategy.


(* ===================================================================== *)
(** ** A concrete environment for closed examples *)
(* ===================================================================== *)

Module Sample.

(** Numbers restricted to integers: falsy at 0, printed in decimal. *)
Definition num_truthy (n : Z) : bool := negb (Z.eqb n 0).
Definition num_to_string (n : Z) : string := pretty n.

(** Stand-ins for [JSON.stringify], [JSON.parse] and [toLowerCase] in the
    closed examples, none of which depends on their results. *)
Definition stringify (v : jsval Z) : string := "<json>".
Definition parse (text : string) : option (jsval Z) := None.
Definition toLowerCase (s : string) : string := s.

Definition valid_url (u : string) : bool := true.
Definition engine_message (e : Js.error) : string := "engine error".

(** A client for [/ws/market] that connects, loses the connection,
    reconnects on the timer and loses the connection again. *)
Definition two_failures : WS.world Z :=
  WS.run stringify parse valid_url (WS.init None "/ws/market")
    [WS.Connect; WS.OnClose 0; WS.Timeout; WS.OnClose 1].

(** A client whose socket is still connecting, and one whose socket is
    open. *)
Definition connecting : WS.world Z :=
  WS.run stringify parse valid_url (WS.init None "/ws/market") [WS.Connect].

Definition opened : WS.world Z :=
  WS.run stringify parse valid_url (WS.init None "/ws/market")
    [WS.Connect; WS.OnOpen 0].

(** Two responses: a 400 whose body is [{"detail": ""}], and a 204 whose
    empty body is not JSON; and the networks that answer with them. *)
Definition empty_detail : Api.Response Z :=
  {| Api.ok := false; Api.status := 400;
     Api.json_body := Some (JObj {[ "detail" := JStr "" ]}) |}.

Definition no_content : Api.Response Z :=
  {| Api.ok := true; Api.status := 204; Api.json_body := None |}.

Definition not_found : Api.Response Z :=
  {| Api.ok := false; Api.status := 404;
     Api.json_body := Some (JObj {[ "detail" := JStr "Not Found" ]}) |}.

Definition answer (r : Api.Response Z) (u : string) (i : Api.RequestInit)
  : option (Api.Response Z) := Some r.

(** A market update for one of two symbols already on record. *)
Definition two_symbols : MarketData.state Z :=
  {| MarketData.data :=
       <["NSE:SBIN-EQ" := {[ "ltp" := MarketData.FromUpdate (JNum 810%Z) ]} ]>
         {[ "NSE:TCS-EQ" := {[ "ltp" := MarketData.FromUpdate (JNum 3900%Z) ]} ]};
     MarketData.connected := true |}.

Definition sbin_update : jsval Z :=
  JObj (<["symbol" := JStr "NSE:SBIN-EQ"]> {[ "ltp" := JNum 812%Z ]}).

Definition sbin_message : jsval Z :=
  JObj (<["type" := JStr "market_update"]> {[ "data" := sbin_update ]}).

(** A scan of [HighVolumeScanner] that is rejected. *)
Definition scan_in_flight : HVS.State unit := HVS.run [HVS.Mount].

(** A [WebSocket] constructor that accepts the [ws:] and [wss:] schemes
    only, as the browser's does. *)
Definition ws_scheme_only (u : string) : bool :=
  String.prefix "ws://" u || String.prefix "wss://" u.

(** The hook of [useAlerts] right after its effect ran. *)
Definition alerts_client : WS.world Z :=
  WS.connect valid_url (WS.init None "/ws/alerts").

Definition alerts_mounted : @Traces.hook Z :=
  {| Traces.owned := Some alerts_client; Traces.subscribe_timer := true |}.

(** The hook of [useMarketData] right after its effect ran. *)
Definition market_mounted : @Traces.hook Z :=
  {| Traces.owned := Some connecting; Traces.subscribe_timer := true |}.

(** Further messages of the market stream. *)
Definition status_message : jsval Z :=
  JObj (<["type" := JStr "subscription_status"]> {[ "status" := JStr "success" ]}).

Definition tcs_update : jsval Z :=
  JObj (<["symbol" := JStr "NSE:TCS-EQ"]> {[ "ltp" := JNum 3905%Z ]}).

Definition tcs_message : jsval Z :=
  JObj (<["type" := JStr "market_update"]> {[ "data" := tcs_update ]}).

(** A message of the alerts stream. *)
Definition iv_alert : jsval Z :=
  JObj (<["type" := JStr "warning"]> {[ "message" := JStr "IV spike" ]}).

Definition alert_message : jsval Z :=
  JObj (<["type" := JStr "alert"]> {[ "data" := iv_alert ]}).

(** A market-state response typed as the interface declares, with an
    adjustment detected, and the same response with its spot price sent as
    a string. *)
Definition trade_setup : jsval Z :=
  JObj (list_to_map
          [ ("action", JStr "SELL STRADDLE");
            ("rationale", JStr "IV crush expected");
            ("strikes", JArr [JNum 25000%Z; JNum 25100%Z]) ]).

Definition adjustment : jsval Z :=
  JObj (list_to_map
          [ ("detected", JBool true);
            ("confidence", JNum 82%Z);
            ("conditions", JArr [JStr "IV spike"]);
            ("trade_setup", trade_setup) ]).

Definition market_state_fields : gmap string (jsval Z) :=
  list_to_map
    [ ("symbol", JStr "NSE:NIFTY50-INDEX");
      ("spot_price", JNum 25010%Z);
      ("atm_strike", JNum 25000%Z);
      ("state", JStr "TREND");
      ("confidence", JNum 70%Z);
      ("message", JStr "Trending up");
      ("time_window", JStr "adjustment");
      ("tradable", JBool true);
      ("pcr", JNum 1%Z);
      ("vix", JNum 14%Z);
      ("support", JNum 24900%Z);
      ("resistance", JNum 25200%Z);
      ("adjustment", adjustment) ].

Definition market_state : jsval Z := JObj market_state_fields.

Definition market_state_text_spot : jsval Z :=
  JObj (<["spot_price" := JStr "25010.35"]> market_state_fields).

(** [Number.prototype.toFixed(0)] on the integers of the examples. *)
Definition toFixed0 (n : Z) : string := pretty n.

(** [HighVolumeScanner] with an analysis in flight: the scan started on
    mount found one stock and the user clicked the analysis button. *)
Definition analysis_in_flight : HVS.State unit :=
  HVS.run [HVS.Mount;
           HVS.ScanResolved 1 {| HVS.top_stocks := ["NSE:SBIN-EQ"] |};
           HVS.Click HVS.Analyze].

End Sample.


(* ===================================================================== *)
(** * Properties *)
(* ===================================================================== *)

(** ** The WebSocket client *)

Section WSFacts.
Context {num : Type}.
Variable stringify : jsval num -> string.
Variable parse : string -> option (jsval num).
Variable valid_url : string -> bool.
Variable NEXT_PUBLIC_WS_URL : option string.

Local Abbreviation step := (WS.step stringify parse valid_url).
Local Abbreviation run := (WS.run stringify parse valid_url).
Local Abbreviation init := (@WS.init num NEXT_PUBLIC_WS_URL).
Local Abbreviation send := (WS.send stringify valid_url).
Local Abbreviation connect := (WS.connect valid_url).
Local Abbreviation attempts w := (WS.reconnectAttempts (WS.client w)).
Local Abbreviation balance := (@WS.balance num).

Local Open Scope Z_scope.

Lemma run_app (w : WS.world num) (evs evs' : list (WS.event num)) :
  run w (evs ++ evs') = run (run w evs) evs'.
Proof. unfold WS.run. apply fold_left_app. Qed.

Lemma consistent_init (path : string) : WS.consistent (init path).
Proof. split; simpl; try lia. constructor. Qed.

Lemma consistent_connect (w : WS.world num) :
  WS.consistent w -> WS.consistent (connect w).
Proof.
  intros [Hi Hm Ha Hd]. unfold WS.connect.
  destruct (valid_url _); split; simpl; auto.
Qed.

Lemma consistent_attemptReconnect (w : WS.world num) :
  WS.consistent w -> WS.consistent (WS.attemptReconnect w).
Proof.
  intros [Hi Hm Ha Hd]. unfold WS.attemptReconnect.
  destruct (Z.ltb_spec (attempts w) (WS.maxReconnectAttempts (WS.client w)));
    split; simpl; auto; try lia.
  apply Forall_app. split; [assumption | repeat constructor; assumption].
Qed.

Lemma consistent_send (w : WS.world num) (data : jsval num) :
  WS.consistent w -> WS.consistent (send w data).
Proof.
  intros H. unfold WS.send.
  destruct (WS.ws (WS.client w)) as [i|]; [|by apply consistent_connect].
  destruct (WS.sockets w !! i) as [[]|]; try by apply consistent_connect.
  destruct H. split; simpl; auto.
Qed.

Lemma consistent_step (w : WS.world num) (e : WS.event num) :
  WS.consistent w -> WS.consistent (step w e).
Proof.
  intros H. destruct e; simpl.
  - by apply consistent_connect.
  - by apply consistent_send.
  - by apply consistent_send.
  - by apply consistent_send.
  - unfold WS.close. destruct (WS.ws _) as [i|]; [|done].
    destruct (WS.sockets w !! i) as [[]|]; try done;
      destruct H; split; simpl; auto.
  - destruct (WS.sockets w !! i) as [[]|]; try done.
    destruct H. split; simpl; auto. lia.
  - destruct (WS.sockets w !! i) as [[]|]; try done.
    unfold WS.onmessage. destruct (parse text); [|done].
    destruct H; split; simpl; auto.
  - destruct (WS.sockets w !! i) as [[]|]; try done;
      apply consistent_attemptReconnect; destruct H; split; simpl; auto.
  - done.
  - destruct (WS.timers w); [done|].
    apply consistent_connect. destruct H; split; simpl; auto.
Qed.

Lemma consistent_run (evs : list (WS.event num)) (w : WS.world num) :
  WS.consistent w -> WS.consistent (run w evs).
Proof.
  revert w. induction evs as [|e evs IH]; intros w H; simpl; [done|].
  apply IH. by apply consistent_step.
Qed.

Lemma balance_connect (w : WS.world num) : balance (connect w) = balance w.
Proof. unfold WS.connect, WS.balance. by destruct (valid_url _). Qed.

Lemma balance_attemptReconnect (w : WS.world num) :
  balance (WS.attemptReconnect w) = balance w.
Proof.
  unfold WS.attemptReconnect, WS.balance.
  destruct (_ <? _); simpl; [|done].
  rewrite length_app. simpl. lia.
Qed.

Lemma balance_send (w : WS.world num) (data : jsval num) :
  balance (send w data) = balance w.
Proof.
  unfold WS.send.
  destruct (WS.ws (WS.client w)) as [i|]; [|apply balance_connect].
  destruct (WS.sockets w !! i) as [[]|]; try apply balance_connect. done.
Qed.

Lemma balance_step (w : WS.world num) (e : WS.event num) :
  WS.no_open [e] = true -> balance (step w e) = balance w.
Proof.
  intros Hno. destruct e; simpl in *; try discriminate.
  - apply balance_connect.
  - apply balance_send.
  - apply balance_send.
  - apply balance_send.
  - unfold WS.close. destruct (WS.ws _) as [i|]; [|done].
    by destruct (WS.sockets w !! i) as [[]|].
  - destruct (WS.sockets w !! i) as [[]|]; try done.
    unfold WS.onmessage. by destruct (parse text).
  - destruct (WS.sockets w !! i) as [[]|]; try done;
      by rewrite balance_attemptReconnect.
  - done.
  - destruct (WS.timers w); [done|]. by rewrite balance_connect.
Qed.

Lemma balance_run (evs : list (WS.event num)) (w : WS.world num) :
  WS.no_open evs = true -> balance (run w evs) = balance w.
Proof.
  revert w. induction evs as [|e evs IH]; intros w Hno; simpl; [done|].
  simpl in Hno. apply andb_prop in Hno as [He Hevs].
  rewrite IH by done. apply balance_step. simpl. by rewrite He.
Qed.

Lemma no_open_failures (j n k : nat) : WS.no_open (@WS.failures num j n k) = true.
Proof. revert j n. induction k as [|k IH]; intros j n; simpl; [done|apply IH]. Qed.

(** One failed connection: the close of a live socket schedules a timer,
    and the timer constructs the next socket. *)
Lemma failure_cycle (w : WS.world num) (j : nat) (s : WS.readyState) :
  WS.consistent w ->
  valid_url (WS.url (WS.client w)) = true ->
  WS.sockets w !! j = Some s -> s <> WS.CLOSED ->
  attempts w < 5 ->
  let w' := step (step w (WS.OnClose j)) WS.Timeout in
  WS.url (WS.client w') = WS.url (WS.client w)
  /\ WS.sockets w' !! length (WS.sockets w) = Some WS.CONNECTING
  /\ length (WS.sockets w') = S (length (WS.sockets w))
  /\ WS.scheduled w' = WS.scheduled w ++ [3000]
  /\ attempts w' = attempts w + 1.
Proof.
  intros [Hi Hm Ha Hd] Hurl Hj Hs Hlt. simpl.
  rewrite Hj.
  assert (Hre : WS.attemptReconnect (WS.set_socket w j WS.CLOSED) =
          {| WS.client := WS.set_attempts (WS.client w) (attempts w + 1);
             WS.sockets := <[j := WS.CLOSED]> (WS.sockets w);
             WS.timers := WS.timers w ++ [3000];
             WS.scheduled := WS.scheduled w ++ [3000];
             WS.wire := WS.wire w;
             WS.delivered := WS.delivered w |}).
  { unfold WS.attemptReconnect. simpl. rewrite Hm, Hi.
    destruct (Z.ltb_spec (attempts w) 5); [done|lia]. }
  assert (Hstep : (match s with
                   | WS.CLOSED => w
                   | _ => WS.attemptReconnect (WS.set_socket w j WS.CLOSED)
                   end) = WS.attemptReconnect (WS.set_socket w j WS.CLOSED)).
  { by destruct s. }
  rewrite Hstep, Hre. simpl.
  destruct (WS.timers w ++ [3000]) as [|t rest] eqn:Ht.
  { by destruct (WS.timers w). }
  unfold WS.connect. simpl. rewrite Hurl. simpl.
  repeat split; try done.
  - rewrite lookup_app_r by (rewrite length_insert; lia).
    by rewrite length_insert, Nat.sub_diag.
  - rewrite length_app, length_insert. simpl. lia.
Qed.

Lemma failures_schedule (k : nat) :
  forall (w : WS.world num) (j : nat) (s : WS.readyState),
  WS.consistent w ->
  valid_url (WS.url (WS.client w)) = true ->
  WS.sockets w !! j = Some s -> s <> WS.CLOSED ->
  attempts w + Z.of_nat k <= 5 ->
  length (WS.scheduled (run w (WS.failures j (length (WS.sockets w)) k)))
  = (length (WS.scheduled w) + k)%nat.
Proof.
  induction k as [|k IH]; intros w j s Hc Hurl Hj Hs Hle.
  - simpl. lia.
  - cbn [WS.failures WS.run fold_left].
    destruct (failure_cycle w j s Hc Hurl Hj Hs ltac:(lia))
      as (Hu & Hn & Hlen & Hsch & Hatt).
    set (w' := step (step w (WS.OnClose j)) WS.Timeout) in *.
    change (fold_left step ?l w') with (run w' l).
    rewrite <- Hlen.
    rewrite (IH w' (length (WS.sockets w)) WS.CONNECTING).
    + rewrite Hsch, length_app. simpl. lia.
    + subst w'. by do 2 apply consistent_step.
    + by rewrite Hu.
    + done.
    + done.
    + lia.
Qed.

(** C1. The reconnection counter of a [WSClient] stays between 0 and
    [maxReconnectAttempts] = 5 in every reachable state; as long as no
    socket opens, at most [5 - reconnectAttempts] further reconnection
    attempts are scheduled, whatever else happens (none once the counter
    is 5); every close of a live socket below the bound schedules one;
    a handled [onopen] resets the counter to 0, after which five
    connections failing in a row schedule five attempts again. *)
Theorem reconnect_attempts_bounded (path : string) (evs : list (WS.event num)) :
  let w := run (init path) evs in
  0 <= attempts w <= 5
  /\ (forall evs', WS.no_open evs' = true ->
        (length (WS.scheduled (run w evs'))
         <= length (WS.scheduled w) + Z.to_nat (5 - attempts w))%nat)
  /\ (forall i s, WS.sockets w !! i = Some s -> s <> WS.CLOSED ->
        attempts w < 5 ->
        WS.scheduled (step w (WS.OnClose i)) = WS.scheduled w ++ [3000]
        /\ attempts (step w (WS.OnClose i)) = attempts w + 1)
  /\ (attempts w = 5 ->
        forall i, WS.scheduled (step w (WS.OnClose i)) = WS.scheduled w)
  /\ (forall i, WS.sockets w !! i = Some WS.CONNECTING ->
        let w1 := step w (WS.OnOpen i) in
        attempts w1 = 0
        /\ (valid_url (WS.url (WS.client w)) = true ->
            exists evs', WS.no_open evs' = true
              /\ length (WS.scheduled (run w1 evs'))
                 = (length (WS.scheduled w1) + 5)%nat)).
Proof.
  intros w.
  assert (Hc : WS.consistent w) by apply consistent_run, consistent_init.
  split; [apply Hc|]. split; [|split; [|split]].
  - intros evs' Hno.
    pose proof (balance_run evs' w Hno) as Hb.
    pose proof (consistent_run evs' w Hc) as [_ _ Ha' _].
    destruct Hc as [_ _ Ha _]. unfold WS.balance in Hb. lia.
  - intros i s Hi Hs Hlt. simpl. rewrite Hi.
    destruct Hc as [Hint Hmax Ha _].
    assert (Hre : WS.attemptReconnect (WS.set_socket w i WS.CLOSED) =
            {| WS.client := WS.set_attempts (WS.client w) (attempts w + 1);
               WS.sockets := <[i := WS.CLOSED]> (WS.sockets w);
               WS.timers := WS.timers w ++ [3000];
               WS.scheduled := WS.scheduled w ++ [3000];
               WS.wire := WS.wire w;
               WS.delivered := WS.delivered w |}).
    { unfold WS.attemptReconnect. simpl. rewrite Hmax, Hint.
      destruct (Z.ltb_spec (attempts w) 5); [done|lia]. }
    destruct s; try done; by rewrite Hre.
  - intros H5 i. simpl. destruct Hc as [_ Hmax _ _].
    destruct (WS.sockets w !! i) as [[]|]; try done;
      unfold WS.attemptReconnect; simpl; rewrite Hmax, H5; done.
  - intros i Hi. simpl. rewrite Hi. split; [done|].
    intros Hurl.
    set (w1 := WS.onopen (WS.set_socket w i WS.OPEN)).
    assert (Hc1 : WS.consistent w1).
    { destruct Hc. split; simpl; auto. lia. }
    exists (WS.failures i (length (WS.sockets w1)) 5). split.
    + apply no_open_failures.
    + apply (failures_schedule 5 w1 i WS.OPEN); try done.
      simpl. apply list_lookup_insert_eq. eapply lookup_lt_Some, Hi.
Qed.

(** C2, as the code has it.  Every delay handed to [setTimeout] by
    [attemptReconnect] is the constant [reconnectInterval] = 3000 ms: the
    delay before each reconnection attempt is the same. *)
Theorem reconnect_delay_constant (path : string) (evs : list (WS.event num))
  (n : nat) (d : Z) :
  WS.delay_before (run (init path) evs) n = Some d -> d = 3000.
Proof.
  intros Hn.
  destruct (consistent_run evs (init path) (consistent_init path)) as [_ _ _ Hd].
  rewrite Forall_forall in Hd. apply Hd.
  apply list_elem_of_lookup. by exists n.
Qed.

(** C8. [send] on a client whose socket is missing or not OPEN hands
    nothing to any socket and keeps nothing of the payload: the resulting
    state is that of [connect()], whatever the payload.  On an OPEN socket
    it hands exactly [JSON.stringify(data)] to that socket.  No step of
    the client hands a frame to a socket except a send on an OPEN one. *)
Theorem send_only_when_open (w : WS.world num) (data : jsval num) :
  (WS.socket_open w = false ->
     send w data = connect w
     /\ WS.wire (send w data) = WS.wire w
     /\ forall data', send w data' = send w data)
  /\ (WS.socket_open w = true ->
     exists i, WS.ws (WS.client w) = Some i
       /\ WS.sockets w !! i = Some WS.OPEN
       /\ WS.wire (send w data) = WS.wire w ++ [(i, stringify data)]
       /\ WS.client (send w data) = WS.client w
       /\ WS.sockets (send w data) = WS.sockets w
       /\ WS.timers (send w data) = WS.timers w)
  /\ (forall e, WS.wire (step w e) = WS.wire w
       \/ exists i d, WS.socket_open w = true
            /\ WS.ws (WS.client w) = Some i
            /\ WS.wire (step w e) = WS.wire w ++ [(i, stringify d)]).
Proof.
  assert (Hwc : forall v : WS.world num, WS.wire (connect v) = WS.wire v).
  { intros v. unfold WS.connect. by destruct (valid_url _). }
  assert (Hclosed : WS.socket_open w = false -> forall d, send w d = connect w).
  { unfold WS.socket_open, WS.send. intros H d.
    destruct (WS.ws (WS.client w)) as [i|]; [|done].
    by destruct (WS.sockets w !! i) as [[]|]. }
  assert (Hsend : forall d, WS.wire (send w d) = WS.wire w
            \/ exists i d', WS.socket_open w = true
                 /\ WS.ws (WS.client w) = Some i
                 /\ WS.wire (send w d) = WS.wire w ++ [(i, stringify d')]).
  { intros d. destruct (WS.socket_open w) eqn:Ho.
    - right. unfold WS.socket_open in Ho. unfold WS.send.
      destruct (WS.ws (WS.client w)) as [i|]; [|done].
      destruct (WS.sockets w !! i) as [[]|]; try done.
      by exists i, d.
    - left. by rewrite Hclosed. }
  split; [|split].
  - intros H. split; [by apply Hclosed|]. split.
    + by rewrite Hclosed.
    + intros data'. by rewrite !Hclosed.
  - unfold WS.socket_open, WS.send. intros H.
    destruct (WS.ws (WS.client w)) as [i|]; [|done].
    destruct (WS.sockets w !! i) as [[]|] eqn:Hi; try done.
    exists i. repeat split; done.
  - intros e. destruct e as [|d|syms|syms| |i|i text|i|i|]; simpl.
    + left. apply Hwc.
    + apply Hsend.
    + apply Hsend.
    + apply Hsend.
    + left. unfold WS.close. destruct (WS.ws _) as [i|]; [|done].
      by destruct (WS.sockets w !! i) as [[]|].
    + left. by destruct (WS.sockets w !! i) as [[]|].
    + left. destruct (WS.sockets w !! i) as [[]|]; try done.
      unfold WS.onmessage. by destruct (parse text).
    + left. destruct (WS.sockets w !! i) as [[]|]; try done;
        unfold WS.attemptReconnect; simpl; by destruct (_ <? _).
    + by left.
    + left. destruct (WS.timers w); [done|]. by rewrite Hwc.
Qed.

End WSFacts.

(** The counter, the bound and the reset on the client that has failed
    twice: the counter is 2, and after its third socket opens five more
    failures in a row are scheduled. *)
Lemma reconnect_attempts_bounded_witness :
  let w := Sample.two_failures in
  WS.reconnectAttempts (WS.client w) = 2%Z
  /\ (0 <= WS.reconnectAttempts (WS.client w) <= 5)%Z.
Proof.
  split; [reflexivity|].
  apply (reconnect_attempts_bounded Sample.stringify Sample.parse
           Sample.valid_url None "/ws/market"
           [WS.Connect; WS.OnClose 0; WS.Timeout; WS.OnClose 1]).
Defined.

(** C2, as stated, fails: the delays before the first and the second
    reconnection attempt of a client that fails twice are both 3000 ms, so
    the second is not greater than the first. *)
Lemma reconnect_delay_not_growing :
  exists d0 d1 : Z,
    WS.delay_before Sample.two_failures 0 = Some d0
    /\ WS.delay_before Sample.two_failures 1 = Some d1
    /\ (d0 <? d1)%Z = false.
Proof. exists 3000%Z, 3000%Z. repeat split. Qed.

Lemma reconnect_delay_constant_witness :
  WS.delay_before Sample.two_failures 1 = Some 3000%Z /\ 3000%Z = 3000%Z.
Proof.
  split; [reflexivity|].
  apply (reconnect_delay_constant Sample.stringify Sample.parse
           Sample.valid_url None "/ws/market"
           [WS.Connect; WS.OnClose 0; WS.Timeout; WS.OnClose 1] 1 3000%Z).
  reflexivity.
Defined.

(** A payload sent while the socket is connecting is dropped and a second
    socket is constructed; sent on the open socket it is handed over. *)
Lemma send_only_when_open_witness :
  WS.socket_open Sample.connecting = false
  /\ WS.wire (WS.send Sample.stringify Sample.valid_url Sample.connecting
                (JStr "ping")) = []
  /\ WS.socket_open Sample.opened = true
  /\ exists i, WS.ws (WS.client Sample.opened) = Some i
       /\ WS.wire (WS.send Sample.stringify Sample.valid_url Sample.opened
                     (JStr "ping")) = [(i, Sample.stringify (JStr "ping"))].
Proof.
  pose proof (send_only_when_open Sample.stringify Sample.parse
                Sample.valid_url Sample.connecting (JStr "ping")) as [Hc _].
  pose proof (send_only_when_open Sample.stringify Sample.parse
                Sample.valid_url Sample.opened (JStr "ping")) as (_ & Ho & _).
  split; [reflexivity|].
  split; [apply (proj1 (proj2 (Hc eq_refl)))|].
  split; [reflexivity|].
  destruct (Ho eq_refl) as (i & Hi & _ & Hw & _).
  exists i. split; [exact Hi|exact Hw].
Defined.


(** ** The REST wrapper and the [api] object *)

Section ApiFacts.
Context {num : Type}.
Variable num_truthy : num -> bool.
Variable num_to_string : num -> string.
Variable NEXT_PUBLIC_API_URL : option string.
Variable http : string -> Api.RequestInit -> option (Api.Response num).

Local Abbreviation api_fetch :=
  (Api.api_fetch num_truthy num_to_string NEXT_PUBLIC_API_URL http).
Local Abbreviation new_Error := (Api.new_Error num_to_string).

Lemma new_Error_string (s : string) : new_Error (JStr s) = Error_ s.
Proof. reflexivity. Qed.

(** C3, as the code has it.  For a request the network answers with a
    response [r]: when [r.ok] holds, [api.fetch] settles as
    [response.json()] does (the parsed body, or its rejection when the
    body is not JSON); it resolves only then.  When [r.ok] fails and the
    body is not the JSON [null], it throws [new Error(detail)] for a
    truthy [detail] field (an Error whose message is that string when
    [detail] is a string), and otherwise, [detail] missing or falsy or
    the body unparseable, an Error with the message
    "Request failed with status <status>". *)
Theorem api_fetch_outcome (endpoint : string) (options : Api.RequestInit)
  (r : Api.Response num) :
  http (Api.API_BASE_URL NEXT_PUBLIC_API_URL +:+ endpoint)
       (Api.with_json_header options) = Some r ->
  (Api.ok r = true -> api_fetch endpoint options = Api.json r)
  /\ (forall v, api_fetch endpoint options = Resolved v ->
        Api.ok r = true /\ Api.json_body r = Some v)
  /\ (Api.ok r = false -> Api.json_body r <> Some JNull ->
      (forall d, Api.detail_field r = Some d -> truthy num_truthy d = true ->
         api_fetch endpoint options = Rejected (new_Error d))
      /\ (forall s, Api.detail_field r = Some (JStr s) -> s <> "" ->
         api_fetch endpoint options = Rejected (Error_ s))
      /\ (truthy_opt num_truthy (Api.detail_field r) = false ->
         api_fetch endpoint options
         = Rejected (Error_ (Api.status_message (Api.status r))))).
Proof.
  intros Hr. unfold Api.api_fetch. rewrite Hr.
  unfold Api.detail_field, Api.json.
  split; [|split].
  - intros Hok. by rewrite Hok.
  - intros v Hv. unfold get in Hv.
    repeat case_match; simplify_eq; try done.
    split; [by destruct (Api.ok r)|done].
  - intros Hok Hnull. rewrite Hok. simpl.
    destruct (Api.json_body r) as [body|] eqn:Hb; simpl.
    + destruct body as [|b|n|s'|l|o]; simpl; try done.
      split; [|split].
      * intros d ->. by intros ->.
      * intros s -> Hs. simpl.
        destruct (String.eqb_spec s ""); [done|]. done.
      * destruct (o !! "detail") as [d|]; simpl; [|done]. by intros ->.
    + rewrite lookup_empty. done.
Qed.

End ApiFacts.

(** C3, as stated, fails twice.  A 400 response whose body has the
    [detail] field [""] (present and parseable) is turned into the status
    message, not into that field; and a response with [ok] true whose body
    is not JSON makes [api.fetch] reject instead of returning a parsed
    body. *)
Lemma api_fetch_detail_present_not_used :
  Api.detail_field Sample.empty_detail = Some (JStr "")
  /\ Api.api_fetch Sample.num_truthy Sample.num_to_string None
       (Sample.answer Sample.empty_detail) "/market/state" Api.no_options
     = Rejected (Error_ "Request failed with status 400")
  /\ Api.ok Sample.no_content = true
  /\ Api.api_fetch Sample.num_truthy Sample.num_to_string None
       (Sample.answer Sample.no_content) "/market/state" Api.no_options
     = Rejected SyntaxError_.
Proof. repeat split; vm_compute; reflexivity. Qed.

(** A 404 with [{"detail": "Not Found"}] is thrown as
    [Error("Not Found")]. *)
Lemma api_fetch_outcome_witness :
  Sample.answer Sample.not_found
    (Api.API_BASE_URL None +:+ "/market/state")
    (Api.with_json_header Api.no_options) = Some Sample.not_found
  /\ Api.api_fetch Sample.num_truthy Sample.num_to_string None
       (Sample.answer Sample.not_found) "/market/state" Api.no_options
     = Rejected (Error_ "Not Found").
Proof.
  split; [reflexivity|].
  destruct (api_fetch_outcome Sample.num_truthy Sample.num_to_string None
              (Sample.answer Sample.not_found) "/market/state" Api.no_options
              Sample.not_found eq_refl) as (_ & _ & H).
  destruct (H eq_refl ltac:(discriminate)) as (_ & Hs & _).
  apply Hs; [reflexivity|discriminate].
Defined.

(** ** The call sites of the [api] object *)

Section CallSites.
Context {num : Type}.
Variable stringify : jsval num -> string.
Variable num_truthy : num -> bool.
Variable num_to_string : num -> string.
Variable NEXT_PUBLIC_API_URL : option string.
Variable http : string -> Api.RequestInit -> option (Api.Response num).
Variable engine_message : Js.error -> string.

(** C6 on the code.  [api.market] defines no [scanVAT]: the call in
    [VATScanner.fetchVATData] calls [undefined], so whatever the network
    would answer no request is issued and the panel ends in its error
    state with the engine's TypeError message; it is the only call site
    of the panels that names a method the [api] object lacks. *)
Theorem scanVAT_is_not_defined (s : VAT.State num) :
  ApiTable.api_member stringify "market" "scanVAT" = None
  /\ ApiTable.requests_of stringify NEXT_PUBLIC_API_URL "market" "scanVAT"
       [ApiTable.AStr (VAT.selectedSymbol s)] = []
  /\ VAT.fetchVATData stringify num_truthy num_to_string NEXT_PUBLIC_API_URL
       http engine_message s
     = {| VAT.selectedSymbol := VAT.selectedSymbol s;
          VAT.data := VAT.data s;
          VAT.loading := false;
          VAT.error :=
            Some (JStr (HVS.message_or (Some (engine_message TypeError_))
                          "Network error")) |}
  /\ List.filter (fun site => negb (VAT.defined stringify site)) VAT.call_sites
     = [("VATScanner", ("market", "scanVAT"))].
Proof. repeat split. Qed.

End CallSites.

(** ** useMarketData *)

Section MarketDataFacts.
Context {num : Type}.
Variable num_truthy : num -> bool.
Variable num_to_string : num -> string.

Local Abbreviation handleMessage := (MarketData.handleMessage num_truthy).
Local Abbreviation receive := (MarketData.receive num_truthy num_to_string).
Local Abbreviation resolved_symbol :=
  (MarketData.resolved_symbol num_truthy num_to_string).

(** Only an object names a symbol. *)
Lemma resolved_symbol_object (update : jsval num) (key : string) :
  resolved_symbol update = Some key -> exists o, update = JObj o.
Proof.
  unfold MarketData.resolved_symbol, MarketData.symbol_of.
  destruct update; simpl; try done. by eexists.
Qed.

(** The three layers of the record written for a symbol. *)
Lemma merged_lookup (prev : gmap string (gmap string (MarketData.field num)))
  (key : string) (o : gmap string (jsval num)) (now : Z) (f : string) :
  MarketData.merged prev key (JObj o) now !! f
  = if decide (f = "last_updated") then Some (MarketData.Timestamp now)
    else match o !! f with
         | Some v => Some (MarketData.FromUpdate v)
         | None => prev !! key ≫= (.!! f)
         end.
Proof.
  unfold MarketData.merged. simpl.
  destruct (decide (f = "last_updated")) as [->|Hne].
  - by rewrite lookup_insert_eq.
  - rewrite lookup_insert_ne by done.
    rewrite lookup_union, lookup_fmap.
    destruct (o !! f) as [v|]; simpl.
    + by destruct (default ∅ (prev !! key) !! f).
    + destruct (prev !! key) as [rec|]; simpl.
      * by destruct (rec !! f).
      * by rewrite lookup_empty.
Qed.

(** The setter the handler calls for an update that names a truthy
    symbol: [update.symbol], or [update.s] when [update.symbol] is falsy
    and [update.d] is truthy. *)
Lemma named_symbol_setData (message update symbol : jsval num) :
  prop message "type" = Some (JStr "market_update") ->
  prop message "data" = Some update ->
  prop update "symbol" = Some symbol
  \/ (truthy_opt num_truthy (prop update "symbol") = false
      /\ truthy_opt num_truthy (prop update "d") = true
      /\ prop update "s" = Some symbol) ->
  truthy num_truthy symbol = true ->
  handleMessage message = Resolved (Some (MarketData.setData symbol update)).
Proof.
  intros Hty Hdata Hnamed Htr.
  destruct message as [| | | | |m]; try discriminate. simpl in Hty, Hdata.
  assert (Hobj : exists o, update = JObj o).
  { destruct update; try (by eexists);
      destruct Hnamed as [H|(_ & _ & H)]; discriminate. }
  destruct Hobj as [o ->].
  unfold MarketData.handleMessage, MarketData.symbol_of. simpl.
  rewrite Hty, Hdata. simpl in *.
  destruct Hnamed as [Hs|(Hs & Hd & Hsym)].
  - rewrite Hs. simpl. rewrite Htr. simpl. by rewrite Htr.
  - rewrite Hs, Hd, Hsym. by rewrite Htr.
Qed.

(** C10, as the code has it.  A [market_update] names a symbol when its
    [data] has a truthy [symbol], or a falsy [symbol], a truthy [d] and a
    truthy [s].  When the named symbol has a string form, handling the
    message writes the record under that string and nothing else: the new
    record has [last_updated] set to the time of the render, every other
    field taken from the update when the update has it and from the
    previous record of that key otherwise; the records of all other keys
    and [connected] are as before.  When no symbol is named the handler
    calls no setter and the state is as before.  When the named symbol has
    no string form the updater throws while React renders and the
    component is unmounted. *)
Theorem market_update_frame (st : MarketData.state num) (now : Z)
  (message : jsval num) :
  prop message "type" = Some (JStr "market_update") ->
  (forall update symbol key,
     prop message "data" = Some update ->
     prop update "symbol" = Some symbol
     \/ (truthy_opt num_truthy (prop update "symbol") = false
         /\ truthy_opt num_truthy (prop update "d") = true
         /\ prop update "s" = Some symbol) ->
     truthy num_truthy symbol = true ->
     ToString num_to_string symbol = Some key ->
     exists st',
       receive (MarketData.Mounted st) now message = MarketData.Mounted st'
       /\ MarketData.connected st' = MarketData.connected st
       /\ (exists record,
             MarketData.data st' !! key = Some record
             /\ forall f,
                  record !! f
                  = if decide (f = "last_updated")
                    then Some (MarketData.Timestamp now)
                    else match prop update f with
                         | Some v => Some (MarketData.FromUpdate v)
                         | None => MarketData.data st !! key ≫= (.!! f)
                         end)
       /\ forall k, k <> key ->
            MarketData.data st' !! k = MarketData.data st !! k)
  /\ (truthy_opt num_truthy (prop message "data") = false
      \/ (exists update,
            prop message "data" = Some update
            /\ truthy_opt num_truthy (prop update "symbol") = false
            /\ (truthy_opt num_truthy (prop update "d") = false
                \/ truthy_opt num_truthy (prop update "s") = false)) ->
      handleMessage message = Resolved None
      /\ receive (MarketData.Mounted st) now message = MarketData.Mounted st)
  /\ (forall update symbol,
        prop message "data" = Some update ->
        prop update "symbol" = Some symbol
        \/ (truthy_opt num_truthy (prop update "symbol") = false
            /\ truthy_opt num_truthy (prop update "d") = true
            /\ prop update "s" = Some symbol) ->
        truthy num_truthy symbol = true ->
        ToString num_to_string symbol = None ->
        receive (MarketData.Mounted st) now message = MarketData.Unmounted).
Proof.
  intros Hty. split; [|split].
  - intros update symbol key Hdata Hnamed Htr Hkey.
    pose proof (named_symbol_setData message update symbol Hty Hdata Hnamed Htr)
      as Hset.
    assert (Hobj : exists o, update = JObj o).
    { destruct update; try (by eexists);
        destruct Hnamed as [H|(_ & _ & H)]; discriminate. }
    destruct Hobj as [o ->].
    unfold MarketData.receive. rewrite Hset.
    unfold MarketData.render, MarketData.updater. rewrite Hkey.
    eexists. split; [reflexivity|]. simpl.
    split; [done|]. split.
    + eexists. split; [apply lookup_insert_eq|].
      intros f. apply merged_lookup.
    + intros k Hk. by rewrite lookup_insert_ne.
  - intros Hnone.
    assert (Hh : handleMessage message = Resolved None).
    { destruct message as [| | | | |m]; try discriminate. simpl in Hty.
      unfold MarketData.handleMessage, MarketData.symbol_of. simpl.
      rewrite Hty. simpl in *.
      destruct Hnone as [Hd|(update & Hd & Hs & Hds)].
      - by rewrite Hd.
      - rewrite Hd. simpl. destruct (truthy num_truthy update); [|done]. simpl.
        rewrite Hs. destruct Hds as [Hdd|Hss].
        + by rewrite Hdd.
        + destruct (truthy_opt num_truthy (prop update "d")); [|done].
          destruct (prop update "s") as [v|]; [|done].
          simpl in Hss. by rewrite Hss. }
    split; [exact Hh|]. unfold MarketData.receive. by rewrite Hh.
  - intros update symbol Hdata Hnamed Htr Hkey.
    pose proof (named_symbol_setData message update symbol Hty Hdata Hnamed Htr)
      as Hset.
    unfold MarketData.receive. rewrite Hset.
    unfold MarketData.render, MarketData.updater. by rewrite Hkey.
Qed.

End MarketDataFacts.

(** An update of SBIN rewrites the record of SBIN, its price and its time
    stamp, and leaves the record of TCS alone. *)
Lemma market_update_frame_witness :
  prop Sample.sbin_message "type" = Some (JStr "market_update")
  /\ exists st',
       MarketData.receive Sample.num_truthy Sample.num_to_string
         (MarketData.Mounted Sample.two_symbols) 1700000000000 Sample.sbin_message
       = MarketData.Mounted st'
       /\ MarketData.data st' !! "NSE:SBIN-EQ" ≫= (.!! "ltp")
          = Some (MarketData.FromUpdate (JNum 812%Z))
       /\ MarketData.data st' !! "NSE:SBIN-EQ" ≫= (.!! "last_updated")
          = Some (MarketData.Timestamp 1700000000000)
       /\ MarketData.data st' !! "NSE:TCS-EQ"
          = MarketData.data Sample.two_symbols !! "NSE:TCS-EQ".
Proof.
  split; [reflexivity|].
  destruct (market_update_frame Sample.num_truthy Sample.num_to_string
              Sample.two_symbols 1700000000000 Sample.sbin_message eq_refl)
    as [H _].
  destruct (H Sample.sbin_update (JStr "NSE:SBIN-EQ") "NSE:SBIN-EQ"
              eq_refl (or_introl eq_refl) eq_refl eq_refl)
    as (st' & Heq & _ & (record & Hrec & Hfields) & Hframe).
  exists st'. split; [exact Heq|].
  rewrite Hrec. simpl. rewrite !Hfields.
  split; [reflexivity|]. split; [reflexivity|].
  apply Hframe. discriminate.
Defined.

(** C10, as stated, fails: a [market_update] whose symbol is an object
    with a [toString] property of its own names a symbol that has no string
    form.  The handler returns normally, but its updater throws when React
    renders: no record is written for the symbol, and the component is
    unmounted, so the records of the other symbols are not kept either. *)
Lemma market_update_can_unmount :
  let symbol : jsval Z := JObj {[ "toString" := JNum 1%Z ]} in
  let update : jsval Z := JObj {[ "symbol" := symbol ]} in
  let message : jsval Z :=
    JObj (<["type" := JStr "market_update"]> {[ "data" := update ]}) in
  prop message "type" = Some (JStr "market_update")
  /\ prop message "data" = Some update
  /\ prop update "symbol" = Some symbol
  /\ truthy Sample.num_truthy symbol = true
  /\ MarketData.handleMessage Sample.num_truthy message
     = Resolved (Some (MarketData.setData symbol update))
  /\ MarketData.receive Sample.num_truthy Sample.num_to_string
       (MarketData.Mounted Sample.two_symbols) 1700000000000 message
     = MarketData.Unmounted.
Proof. repeat split. Qed.

(** ** The alerts list *)

Section AlertsFacts.
Context {num : Type}.
Variable num_truthy : num -> bool.
Variable stringify : jsval num -> string.
Variable toLowerCase : string -> string.

Local Abbreviation alert := (Alerts.RealtimeAlert num).
Local Abbreviation same_message :=
  (fun y a : alert => Alerts.strict_eq (Alerts.message a) (Alerts.message y)).

Lemma findIndex_first {A : Type} (p : A -> bool) (l : list A) (k : nat) :
  Alerts.findIndex p l = Some k ->
  forall i b, (i < k)%nat -> l !! i = Some b -> p b = false.
Proof.
  revert k. induction l as [|a l IH]; intros k; simpl; [done|].
  destruct (p a) eqn:Hpa.
  - intros [= <-] i b Hi. lia.
  - destruct (Alerts.findIndex p l) as [k'|]; simpl; [|done].
    intros [= <-] [|i] b Hi; simpl.
    + by intros [= <-].
    + apply (IH k' eq_refl). lia.
Qed.

(** What [filter] keeps sits at the first position holding its message. *)
Lemma filter_first_elem (self : list alert) (l : list alert) :
  forall i y, y ∈ Alerts.filter_first self i l ->
    exists k, (i <= k)%nat /\ Alerts.findIndex (same_message y) self = Some k.
Proof.
  induction l as [|a l IH]; intros i y; simpl.
  - by intros ?%elem_of_nil.
  - destruct (Alerts.findIndex (same_message a) self) as [j|] eqn:Hj.
    + destruct (Nat.eqb_spec i j) as [->|Hne].
      * intros [->|Hin]%elem_of_cons.
        -- exists j. by split.
        -- destruct (IH (S j) y Hin) as (k & Hk & Hf). exists k. split; [lia|done].
      * intros Hin. destruct (IH (S i) y Hin) as (k & Hk & Hf).
        exists k. split; [lia|done].
    + intros Hin. destruct (IH (S i) y Hin) as (k & Hk & Hf).
      exists k. split; [lia|done].
Qed.

Local Abbreviation distinct_messages := (@Alerts.distinct_messages num).
Local Abbreviation is_string := (@Alerts.is_string num).

(** No two entries that [filter] keeps hold messages that are [===]. *)
Lemma filter_first_distinct (self : list alert) (l : list alert) :
  forall i, drop i self = l -> distinct_messages (Alerts.filter_first self i l).
Proof.
  induction l as [|a l IH]; intros i Hdrop; simpl.
  - intros ? ? ? ? ? Hx. by rewrite lookup_nil in Hx.
  - assert (Ha : self !! i = Some a).
    { rewrite <- (Nat.add_0_r i), <- lookup_drop, Hdrop. done. }
    assert (Hrest : drop (S i) self = l).
    { rewrite (drop_S _ _ _ Ha) in Hdrop. by injection Hdrop. }
    destruct (Alerts.findIndex (same_message a) self) as [j|] eqn:Hj;
      [destruct (Nat.eqb_spec i j) as [->|Hne]|]; try by apply IH.
    intros [|i'] [|j'] x y Hlt; simpl; try lia.
    + intros [= <-] Hy.
      apply list_elem_of_lookup_2 in Hy.
      destruct (filter_first_elem self l (S j) y Hy) as (k & Hk & Hf).
      apply (findIndex_first _ _ _ Hf j a); [lia|done].
    + apply (IH (S j) Hrest). lia.
Qed.

Lemma distinct_messages_take (n : nat) (l : list alert) :
  distinct_messages l -> distinct_messages (take n l).
Proof.
  intros H i j x y Hlt Hx Hy.
  apply lookup_take_Some in Hx as [Hx _]. apply lookup_take_Some in Hy as [Hy _].
  by apply (H i j).
Qed.

(** What "deduplicate and cap" guarantees: at most five entries, pairwise
    different under [===]. *)
Lemma dedupe_cap_spec (next : list alert) :
  (length (Alerts.dedupe_cap next) <= 5)%nat
  /\ distinct_messages (Alerts.dedupe_cap next).
Proof.
  unfold Alerts.dedupe_cap. split.
  - rewrite length_take. lia.
  - apply distinct_messages_take, filter_first_distinct. done.
Qed.

Lemma strict_eq_refl (t : Alerts.text num) : Alerts.strict_eq t t = true.
Proof. destruct t; simpl; [apply String.eqb_refl|apply Nat.eqb_refl]. Qed.

(** The newest alert is kept, in front. *)
Lemma dedupe_cap_head (a : alert) (prev : list alert) :
  exists rest, Alerts.dedupe_cap (a :: prev) = a :: rest.
Proof.
  unfold Alerts.dedupe_cap. simpl. rewrite strict_eq_refl. simpl. by eexists.
Qed.

(** The polling panel, whose messages are strings, keeps its list free of
    repeated message texts. *)
Lemma distinct_strings_NoDup (l : list alert) :
  Forall is_string l -> distinct_messages l -> NoDup (Alerts.message <$> l).
Proof.
  intros Hs Hd. apply NoDup_alt. intros i j t Hi Hj.
  rewrite list_lookup_fmap in Hi, Hj.
  destruct (l !! i) as [x|] eqn:Hx; [|done].
  destruct (l !! j) as [y|] eqn:Hy; [|done].
  simpl in *. injection Hi as Hi. injection Hj as Hj.
  destruct (Nat.lt_trichotomy i j) as [Hlt|[Heq|Hgt]]; [|done|].
  - pose proof (Hd i j x y Hlt Hx Hy) as H.
    rewrite Hi, Hj, strict_eq_refl in H. done.
  - pose proof (Hd j i y x Hgt Hy Hx) as H.
    rewrite Hi, Hj, strict_eq_refl in H. done.
Qed.

Lemma map_alerts_strings (now : Z) (backend : list Alerts.BackendAlert) :
  forall idx, Forall is_string (@Alerts.map_alerts num toLowerCase now idx backend).
Proof.
  induction backend as [|b backend IH]; intros idx; simpl; constructor.
  - by eexists.
  - apply IH.
Qed.

Lemma filter_first_subset (self l : list alert) :
  forall i y, y ∈ Alerts.filter_first self i l -> y ∈ l.
Proof.
  induction l as [|a l IH]; intros i y; simpl; [done|].
  destruct (Alerts.findIndex _ self) as [j|];
    [destruct (Nat.eqb i j)|]; rewrite ?elem_of_cons; intros H;
    try (destruct H as [->|H]; [by left|]); right; by apply (IH (S i)).
Qed.

Lemma poll_update_invariant (prev : list alert) (now : Z)
  (backend : list Alerts.BackendAlert) :
  Forall is_string prev ->
  backend <> [] ->
  let next := Alerts.poll_update toLowerCase prev now backend in
  (length next <= 5)%nat
  /\ NoDup (Alerts.message <$> next)
  /\ Forall is_string next.
Proof.
  intros Hprev Hne. unfold Alerts.poll_update.
  destruct backend as [|b backend]; [done|].
  set (combined := Alerts.map_alerts toLowerCase now 0 (b :: backend) ++ prev).
  destruct (dedupe_cap_spec combined) as [Hlen Hd].
  assert (Hstr : Forall is_string (Alerts.dedupe_cap combined)).
  { apply Forall_forall. intros y Hy.
    assert (Hc : Forall is_string combined).
    { apply Forall_app. split; [apply map_alerts_strings|done]. }
    rewrite Forall_forall in Hc. apply Hc.
    unfold Alerts.dedupe_cap in Hy.
    apply (filter_first_subset combined combined 0).
    apply elem_of_take in Hy as (i & Hi & _).
    by apply list_elem_of_lookup_2 in Hi. }
  cbv zeta. split; [done|]. split; [|done].
  by apply distinct_strings_NoDup.
Qed.

(** C9 on the code.  [useAlerts] stores the payload object itself as the
    message of an alert that has a [message] field, and two payloads
    received one after the other are different objects: the same alert
    text received twice gives two entries holding equal values, the
    deduplication keeping both.  (Had the payload been the string itself,
    the second entry would have replaced the first.) *)
Theorem useAlerts_keeps_repeated_text (now0 : Z) :
  let payload : jsval num := JObj {[ "message" := JStr "Gamma spike" ]} in
  let m : jsval num := JObj (<["type" := JStr "alert"]> {[ "data" := payload ]}) in
  let m' : jsval num :=
    JObj (<["type" := JStr "alert"]> {[ "data" := JStr "Gamma spike" ]}) in
  let run := Alerts.handle_all num_truthy stringify toLowerCase
               Alerts.initial now0 0 in
  (fun a => Alerts.stored (Alerts.message a)) <$> Alerts.alerts (run [m; m])
    = [payload; payload]
  /\ Alerts.id <$> Alerts.alerts (run [m; m]) = [(now0 + 1)%Z; (now0 + 0)%Z]
  /\ (fun a => Alerts.stored (Alerts.message a)) <$> Alerts.alerts (run [m'; m'])
    = [JStr "Gamma spike"].
Proof. repeat split. Qed.

End AlertsFacts.

(** ** Polling *)

Section PollingFacts.
Variable p : Effects.panel.

Local Abbreviation from r evs := (fold_left (Effects.step p) evs r).

(** Each firing of the only interval calls its callback once. *)
Lemma ticks_call (f : string) (P : Z) (n : nat) :
  forall r, Effects.intervals r = [(0%nat, (f, P))] ->
    from r (replicate n (Effects.Tick 0)) = Effects.add_calls r (replicate n f).
Proof.
  induction n as [|n IH]; intros r Hr; simpl.
  - unfold Effects.add_calls. destruct r; simpl. by rewrite app_nil_r.
  - rewrite Hr. simpl. rewrite IH by done.
    unfold Effects.add_calls. simpl. by rewrite Hr, <- app_assoc.
Qed.

(** Without an active interval no firing reaches the component. *)
Lemma no_interval_no_call (later : list nat) :
  forall r, Effects.intervals r = [] ->
    from r (Effects.Tick <$> later) = r.
Proof.
  induction later as [|i later IH]; intros r Hr; simpl; [done|].
  rewrite Hr. simpl. by apply IH.
Qed.

(** C5, as the code has it.  Each of MarketIndices (10000 ms) and
    MarketStateDetector, RealTimeAlerts, ActiveStrategy and VATScanner
    (30000 ms) calls its fetch function once on mount and registers it
    with [setInterval] at that period; each firing of the interval calls
    it once more; unmounting clears the interval, after which no firing
    calls it. *)
Theorem polling_panels_poll (f : string) (P : Z) (n : nat) (later : list nat) :
  Effects.claimed_period p = Some (f, P) ->
  Effects.calls (Effects.run p [Effects.Mount]) = [f]
  /\ Effects.intervals (Effects.run p [Effects.Mount]) = [(0%nat, (f, P))]
  /\ Effects.calls
       (Effects.run p (Effects.Mount :: replicate n (Effects.Tick 0)))
     = replicate (S n) f
  /\ Effects.intervals
       (Effects.run p (Effects.Mount :: replicate n (Effects.Tick 0)
                         ++ [Effects.Unmount])) = []
  /\ Effects.calls
       (Effects.run p (Effects.Mount :: replicate n (Effects.Tick 0)
                         ++ Effects.Unmount :: (Effects.Tick <$> later)))
     = replicate (S n) f.
Proof.
  intros Hp.
  assert (Hm : Effects.step p Effects.unmounted Effects.Mount
               = {| Effects.intervals := [(0%nat, (f, P))];
                    Effects.cleanup := [0%nat];
                    Effects.next_id := 1;
                    Effects.calls := [f] |}).
  { destruct p; simpl in Hp; try discriminate; by injection Hp as <- <-. }
  unfold Effects.run. cbn [fold_left]. rewrite !fold_left_app. cbn [fold_left].
  rewrite Hm.
  rewrite (ticks_call f P n) by done.
  unfold Effects.add_calls. simpl.
  split; [done|]. split; [done|]. split; [done|]. split; [done|].
  by rewrite no_interval_no_call.
Qed.

End PollingFacts.

(** MarketIndices, mounted, fired three times and unmounted, has called
    [fetchIndices] four times. *)
Lemma polling_panels_poll_witness :
  Effects.claimed_period Effects.MarketIndices = Some ("fetchIndices", 10000%Z)
  /\ Effects.calls
       (Effects.run Effects.MarketIndices
          [Effects.Mount; Effects.Tick 0; Effects.Tick 0; Effects.Tick 0;
           Effects.Unmount; Effects.Tick 0])
     = ["fetchIndices"; "fetchIndices"; "fetchIndices"; "fetchIndices"].
Proof.
  split; [reflexivity|].
  apply (polling_panels_poll Effects.MarketIndices "fetchIndices" 10000 3 [0%nat]
           eq_refl).
Defined.

(** C5, as stated, fails: HighVolumeScanner has no polling period.  Its
    effect registers no interval, so no firing re-invokes [scanStocks];
    the only interval [scanStocks] itself starts advances the progress
    ring and is cleared when the request settles, and none of its firings
    issues a request. *)
Lemma high_volume_scanner_does_not_poll :
  Effects.intervals (Effects.run Effects.HighVolumeScanner [Effects.Mount]) = []
  /\ Effects.calls
       (Effects.run Effects.HighVolumeScanner
          [Effects.Mount; Effects.Tick 0; Effects.Tick 1])
     = ["scanStocks"]
  /\ (let s : HVS.State unit :=
        HVS.run [HVS.Mount; HVS.ProgressTick 0; HVS.ProgressTick 0;
                 HVS.ScanResolved 1 {| HVS.top_stocks := ["NSE:SBIN-EQ"] |}] in
      HVS.issued s = [HVS.scanHighVolume "15" 5]
      /\ HVS.progress_timers s = []
      /\ HVS.in_flight s = []
      /\ HVS.issued (HVS.step s (HVS.ProgressTick 0)) = HVS.issued s).
Proof. repeat split. Qed.

(** ** Failure handling *)

Section FailureFacts.
Context {A : Type}.

Lemma message_or_not_empty (m : option string) (fallback : string) :
  fallback <> "" -> HVS.message_or m fallback <> "".
Proof.
  intros Hf. unfold HVS.message_or. destruct m as [s|]; [|done].
  by destruct (String.eqb_spec s "").
Qed.

Lemma retry_rendered (s : HVS.State A) (m : string) :
  HVS.error s = Some m -> m <> "" ->
  existsb (HVS.control_eqb HVS.Retry) (HVS.render s) = true.
Proof.
  intros He Hm. unfold HVS.render. rewrite He.
  destruct (String.eqb_spec m ""); [done|].
  rewrite !existsb_app. simpl. by rewrite !orb_true_r.
Qed.

(** C4, as the code has it.  When a scan request of HighVolumeScanner is
    rejected, handling the rejection issues no request; the panel then
    shows the error with a Retry button, and a click on it issues the scan
    request for the current timeframe, which is the rejected request when
    the timeframe is the one it was issued for.  OptionChainTable, once
    its query has an error (and is not in its first load), renders the
    error message with a Retry button whose handler is [refetch]. *)
Theorem retry_on_click (s : HVS.State A) (p : nat) (pd : HVS.pending)
  (tf : string) (m : option string) :
  HVS.find_pending p (HVS.in_flight s) = Some pd ->
  HVS.awaited pd = HVS.scanHighVolume tf 5 ->
  let s' := HVS.step s (HVS.ScanRejected p m) in
  HVS.issued s' = HVS.issued s
  /\ HVS.error s' = Some (HVS.message_or m "Failed to scan stocks")
  /\ In HVS.Retry (HVS.render s')
  /\ HVS.issued (HVS.step s' (HVS.Click HVS.Retry))
     = HVS.issued s ++ [HVS.scanHighVolume (HVS.timeframe s) 5]
  /\ (HVS.timeframe s = tf ->
      HVS.issued (HVS.step s' (HVS.Click HVS.Retry))
      = HVS.issued s ++ [HVS.awaited pd])
  /\ (forall (q : Views.query Views.chain) (msg : string),
        Views.q_error q = Some msg ->
        Views.isLoading q && negb (bool_decide (is_Some (Views.q_data q))) = false ->
        Views.OptionChainTable q
        = Views.ChainError msg [("Retry", Views.refetch)]).
Proof.
  intros Hp Hreq. cbn zeta.
  assert (Hs' : HVS.step s (HVS.ScanRejected p m)
                = HVS.scan_settled s p pd (inr m)).
  { simpl. by rewrite Hp, Hreq. }
  rewrite Hs'.
  assert (Hr : existsb (HVS.control_eqb HVS.Retry)
                 (HVS.render (HVS.scan_settled s p pd (inr m))) = true).
  { eapply retry_rendered; [reflexivity|]. by apply message_or_not_empty. }
  split; [done|]. split; [done|]. split.
  { apply existsb_exists in Hr as (c & Hc & Heq). by destruct c. }
  assert (Hclick : HVS.issued
            (HVS.step (HVS.scan_settled s p pd (inr m)) (HVS.Click HVS.Retry))
          = HVS.issued s ++ [HVS.scanHighVolume (HVS.timeframe s) 5]).
  { cbn [HVS.step]. rewrite Hr. reflexivity. }
  split; [done|]. split.
  - intros <-. by rewrite Hreq.
  - intros q msg He Hl. unfold Views.OptionChainTable. by rewrite Hl, He.
Qed.

End FailureFacts.

(** The scan issued on mount is rejected; Retry issues it again. *)
Lemma retry_on_click_witness :
  HVS.find_pending 1 (HVS.in_flight Sample.scan_in_flight)
  = Some {| HVS.awaited := HVS.scanHighVolume "15" 5; HVS.progressInterval := 0 |}
  /\ HVS.issued
       (HVS.step (HVS.step Sample.scan_in_flight
                    (HVS.ScanRejected 1 (Some "Request failed with status 500")))
          (HVS.Click HVS.Retry))
     = [HVS.scanHighVolume "15" 5; HVS.scanHighVolume "15" 5].
Proof.
  split; [reflexivity|].
  apply (retry_on_click Sample.scan_in_flight 1
           {| HVS.awaited := HVS.scanHighVolume "15" 5; HVS.progressInterval := 0 |}
           "15" (Some "Request failed with status 500") eq_refl eq_refl).
  reflexivity.
Defined.

(** C4, as stated, fails: RealTimeAlerts swallows a failed request
    ("Silent fail"); its state is unchanged and what it renders has no
    button at all, so there is no Retry control. *)
Lemma alerts_panel_failure_has_no_retry :
  let prev : list (Alerts.RealtimeAlert Z) := [] in
  let after :=
    Views.fetchAlerts_settled Sample.toLowerCase prev 1700000000000
      (Rejected NetworkError) in
  after = prev
  /\ Views.buttons (Views.render_alerts after) = [].
Proof. repeat split. Qed.

(** ** Displayed analytics *)

Section DisplayFacts.
Context {num : Type}.
Variable num_truthy : num -> bool.
Variable num_to_string : num -> string.

Local Open Scope Z_scope.








End DisplayFacts.




(* ===================================================================== *)
(** * Further properties *)
(* ===================================================================== *)

(** ** The WebSocket client over whole traces *)

Section TraceFacts.
Context {num : Type}.
Variable stringify : jsval num -> string.
Variable parse : string -> option (jsval num).
Variable valid_url : string -> bool.
Variable NEXT_PUBLIC_WS_URL : option string.

Local Abbreviation step := (WS.step stringify parse valid_url).
Local Abbreviation run := (WS.run stringify parse valid_url).
Local Abbreviation init := (@WS.init num NEXT_PUBLIC_WS_URL).
Local Abbreviation send := (WS.send stringify valid_url).
Local Abbreviation connect := (WS.connect valid_url).
Local Abbreviation attempts w := (WS.reconnectAttempts (WS.client w)).
Local Abbreviation asked := (Traces.asked stringify).
Local Abbreviation all_asked := (Traces.all_asked stringify).
Local Abbreviation all_parsed := (Traces.all_parsed parse).

Local Open Scope Z_scope.

Lemma reachable_consistent (path : string) (evs : list (WS.event num)) :
  WS.consistent (run (init path) evs).
Proof. apply consistent_run, consistent_init. Qed.

(** An [open] raises the balance by at most 5, nothing else raises it. *)
Lemma balance_step_le (w : WS.world num) (e : WS.event num) :
  WS.consistent w ->
  WS.balance (step w e) <= WS.balance w + 5 * Z.of_nat (Traces.opens [e]).
Proof.
  intros Hc. destruct e as [|d|syms|syms| |i|i text|i|i|];
    try (rewrite (balance_step stringify parse valid_url) by done; simpl; lia).
  simpl. destruct (WS.sockets w !! i) as [[]|]; try lia.
  destruct Hc as [_ _ Ha _]. unfold WS.balance. simpl. lia.
Qed.

Lemma opens_cons (e : WS.event num) (evs : list (WS.event num)) :
  Traces.opens (e :: evs) = (Traces.opens [e] + Traces.opens evs)%nat.
Proof. by destruct e. Qed.

Lemma balance_run_le (evs : list (WS.event num)) :
  forall w, WS.consistent w ->
    WS.balance (run w evs) <= WS.balance w + 5 * Z.of_nat (Traces.opens evs).
Proof.
  induction evs as [|e evs IH]; intros w Hc.
  - simpl. lia.
  - cbn [WS.run fold_left].
    pose proof (IH (step w e) (consistent_step _ _ _ w e Hc)) as H1.
    pose proof (balance_step_le w e Hc) as H2.
    unfold WS.run in H1. rewrite opens_cons. lia.
Qed.

(** However the events of a client's life interleave, the reconnection
    attempts it has scheduled number at most five per connection that
    opened, plus five. *)
Theorem reconnects_bounded_by_opens (path : string) (evs : list (WS.event num)) :
  (length (WS.scheduled (run (init path) evs)) <= 5 * (Traces.opens evs + 1))%nat.
Proof.
  pose proof (balance_run_le evs (init path) (consistent_init _ path)) as H.
  destruct (reachable_consistent path evs) as [_ _ Ha _].
  unfold WS.balance in H. simpl in H. lia.
Qed.

(** [close()] does not end the client's life: when the socket it closed
    reports its close, a reconnection is scheduled like after any other
    close, and the timer constructs a new socket. *)
Theorem close_does_not_stop_reconnecting (path : string)
  (evs : list (WS.event num)) (i : nat) :
  let w := run (init path) evs in
  WS.ws (WS.client w) = Some i ->
  WS.sockets w !! i = Some WS.CONNECTING \/ WS.sockets w !! i = Some WS.OPEN ->
  attempts w < 5 ->
  let w' := run w [WS.Close; WS.OnClose i] in
  WS.sockets w' !! i = Some WS.CLOSED
  /\ WS.scheduled w' = WS.scheduled w ++ [3000]
  /\ attempts w' = attempts w + 1
  /\ (valid_url (WS.url (WS.client w)) = true ->
      WS.sockets (step w' WS.Timeout) !! length (WS.sockets w)
      = Some WS.CONNECTING).
Proof.
  intros w Hws Hst Hlt.
  destruct (reachable_consistent path evs) as [Hint Hmax Ha Hd]. fold w in Hint, Hmax, Ha, Hd.
  assert (Hi : (i < length (WS.sockets w))%nat).
  { destruct Hst as [H|H]; by apply lookup_lt_Some in H. }
  assert (Hclose : WS.close w = WS.set_socket w i WS.CLOSING).
  { unfold WS.close. rewrite Hws. by destruct Hst as [-> | ->]. }
  cbn [WS.run fold_left WS.step]. rewrite Hclose.
  cbn [WS.set_socket WS.sockets].
  rewrite list_lookup_insert_eq by done.
  unfold WS.attemptReconnect. cbn. rewrite Hmax, Hint.
  destruct (Z.ltb_spec (attempts w) 5); [|lia].
  cbn. rewrite list_insert_insert_eq.
  split; [by rewrite list_lookup_insert_eq|]. split; [done|]. split; [done|].
  intros Hurl.
  destruct (WS.timers w ++ [3000]) as [|t rest] eqn:Ht.
  { by destruct (WS.timers w). }
  unfold WS.connect. cbn. rewrite Hurl. cbn.
  rewrite lookup_app_r by (rewrite length_insert; lia).
  by rewrite length_insert, Nat.sub_diag.
Qed.

End TraceFacts.

(** The open client of the examples, closed by its owner, reconnects. *)
Lemma close_does_not_stop_reconnecting_witness :
  WS.ws (WS.client Sample.opened) = Some 0%nat
  /\ WS.sockets Sample.opened !! 0%nat = Some WS.OPEN
  /\ WS.scheduled
       (WS.run Sample.stringify Sample.parse Sample.valid_url Sample.opened
          [WS.Close; WS.OnClose 0]) = [3000%Z].
Proof.
  split; [reflexivity|]. split; [reflexivity|].
  apply (close_does_not_stop_reconnecting Sample.stringify Sample.parse
           Sample.valid_url None "/ws/market" [WS.Connect; WS.OnOpen 0] 0
           eq_refl (or_intror eq_refl) ltac:(reflexivity)).
Defined.

Section WireFacts.
Context {num : Type}.
Variable stringify : jsval num -> string.
Variable parse : string -> option (jsval num).
Variable valid_url : string -> bool.
Variable NEXT_PUBLIC_WS_URL : option string.

Local Abbreviation step := (WS.step stringify parse valid_url).
Local Abbreviation run := (WS.run stringify parse valid_url).
Local Abbreviation init := (@WS.init num NEXT_PUBLIC_WS_URL).
Local Abbreviation send := (WS.send stringify valid_url).
Local Abbreviation connect := (WS.connect valid_url).
Local Abbreviation asked := (Traces.asked stringify).
Local Abbreviation all_asked := (Traces.all_asked stringify).
Local Abbreviation all_parsed := (Traces.all_parsed parse).

(** A client whose URL the [WebSocket] constructor refuses never gets a
    socket: whatever is called and whatever fires, it stays in its initial
    state, so nothing is ever sent, scheduled or delivered. *)
Theorem refused_url_never_connects (path : string) (evs : list (WS.event num)) :
  valid_url (WS.WS_BASE_URL NEXT_PUBLIC_WS_URL +:+ path) = false ->
  run (init path) evs = init path.
Proof.
  intros Hurl. induction evs as [|e evs IH] using rev_ind; [done|].
  rewrite (run_app stringify parse valid_url), IH.
  destruct e; cbn; unfold WS.send, WS.connect; cbn; by rewrite ?Hurl.
Qed.

Lemma wire_connect (w : WS.world num) : WS.wire (connect w) = WS.wire w.
Proof. unfold WS.connect. by destruct (valid_url _). Qed.

Lemma wire_send (w : WS.world num) (d : jsval num) :
  WS.wire (send w d) = WS.wire w
  \/ exists i, WS.wire (send w d) = WS.wire w ++ [(i, stringify d)].
Proof.
  unfold WS.send. destruct (WS.ws (WS.client w)) as [i|]; [|left; apply wire_connect].
  destruct (WS.sockets w !! i) as [[]|]; try (left; apply wire_connect).
  right. by exists i.
Qed.

(** What one step hands to the sockets: nothing, or the one payload the
    event asks to send. *)
Lemma wire_step (w : WS.world num) (e : WS.event num) :
  exists frames, WS.wire (step w e) = WS.wire w ++ frames
    /\ (snd <$> frames) `sublist_of` asked e.
Proof.
  assert (Hnone : forall w' : WS.world num, WS.wire w' = WS.wire w ->
            exists frames, WS.wire w' = WS.wire w ++ frames
              /\ (snd <$> frames) `sublist_of` asked e).
  { intros w' ->. exists []. rewrite app_nil_r. split; [done|apply sublist_nil_l]. }
  assert (Hsend : forall d, asked e = [stringify d] ->
            exists frames, WS.wire (send w d) = WS.wire w ++ frames
              /\ (snd <$> frames) `sublist_of` asked e).
  { intros d ->. destruct (wire_send w d) as [H|[i H]].
    - exists []. rewrite app_nil_r. split; [done|apply sublist_nil_l].
    - exists [(i, stringify d)]. split; [done|]. done. }
  destruct e as [|d|syms|syms| |i|i text|i|i|]; cbn [WS.step].
  - apply Hnone, wire_connect.
  - by apply Hsend.
  - by apply Hsend.
  - by apply Hsend.
  - apply Hnone. unfold WS.close. destruct (WS.ws _) as [i|]; [|done].
    by destruct (WS.sockets w !! i) as [[]|].
  - apply Hnone. by destruct (WS.sockets w !! i) as [[]|].
  - apply Hnone. destruct (WS.sockets w !! i) as [[]|]; try done.
    unfold WS.onmessage. by destruct (parse text).
  - apply Hnone. destruct (WS.sockets w !! i) as [[]|]; try done;
      unfold WS.attemptReconnect; simpl; by destruct (_ <? _)%Z.
  - by apply Hnone.
  - apply Hnone. destruct (WS.timers w); [done|]. by rewrite wire_connect.
Qed.

Lemma wire_run (evs : list (WS.event num)) :
  forall w, exists frames,
    WS.wire (run w evs) = WS.wire w ++ frames
    /\ (snd <$> frames) `sublist_of` all_asked evs.
Proof.
  induction evs as [|e evs IH]; intros w.
  - exists []. simpl. rewrite app_nil_r. split; [done|apply sublist_nil_l].
  - cbn [WS.run fold_left].
    destruct (wire_step w e) as (f1 & H1 & S1).
    destruct (IH (step w e)) as (f2 & H2 & S2).
    exists (f1 ++ f2). unfold WS.run in H2. rewrite H2, H1, <- app_assoc.
    split; [done|]. rewrite fmap_app. simpl. by apply sublist_app.
Qed.

(** The client transmits only what its callers ask to send, each payload
    at most once and in the order asked: it never repeats a payload, and in
    particular never sends a subscription again after reconnecting. *)
Theorem wire_only_what_was_asked (evs : list (WS.event num)) (w : WS.world num) :
  exists frames,
    WS.wire (run w evs) = WS.wire w ++ frames
    /\ (snd <$> frames) `sublist_of` all_asked evs.
Proof. apply wire_run. Qed.

Lemma wire_browser (evs : list (WS.event num)) (w : WS.world num) :
  forallb Traces.by_browser evs = true ->
  WS.wire (run w evs) = WS.wire w.
Proof.
  intros Hb.
  destruct (wire_run evs w) as (frames & Hw & Hs).
  assert (Hnil : all_asked evs = []).
  { clear -Hb. induction evs as [|e evs IH]; [done|].
    simpl in Hb. apply andb_prop in Hb as [He Hevs].
    simpl. rewrite (IH Hevs). by destruct e. }
  rewrite Hnil in Hs. apply sublist_nil_r in Hs.
  apply fmap_nil_inv in Hs. by rewrite Hw, Hs, app_nil_r.
Qed.

Lemma delivered_connect (w : WS.world num) :
  WS.delivered (connect w) = WS.delivered w.
Proof. unfold WS.connect. by destruct (valid_url _). Qed.

Lemma delivered_send (w : WS.world num) (d : jsval num) :
  WS.delivered (send w d) = WS.delivered w.
Proof.
  unfold WS.send. destruct (WS.ws _) as [i|]; [|apply delivered_connect].
  destruct (WS.sockets w !! i) as [[]|]; try apply delivered_connect. done.
Qed.

(** A payload sent while the socket is missing or not open is not
    transmitted. *)
Lemma wire_send_closed (w : WS.world num) (d : jsval num) :
  WS.socket_open w = false -> WS.wire (send w d) = WS.wire w.
Proof.
  unfold WS.socket_open, WS.send. intros H.
  destruct (WS.ws (WS.client w)) as [i|]; [|apply wire_connect].
  destruct (WS.sockets w !! i) as [[]|]; try apply wire_connect. done.
Qed.

(** [onMessage] receives the messages that parse, in the order they
    arrived, and only those that arrived on an open socket. *)
Theorem delivered_in_order (evs : list (WS.event num)) :
  forall w, exists got,
    WS.delivered (run w evs) = WS.delivered w ++ got
    /\ got `sublist_of` all_parsed evs.
Proof.
  induction evs as [|e evs IH]; intros w.
  - exists []. simpl. rewrite app_nil_r. split; [done|apply sublist_nil_l].
  - cbn [WS.run fold_left].
    destruct (IH (step w e)) as (g2 & H2 & S2). unfold WS.run in H2.
    assert (Hsame : WS.delivered (step w e) = WS.delivered w ->
              all_parsed evs `sublist_of` all_parsed (e :: evs) ->
              exists got, WS.delivered (fold_left step evs (step w e))
                          = WS.delivered w ++ got
                /\ got `sublist_of` all_parsed (e :: evs)).
    { intros Hd Hsub. exists g2. rewrite H2, Hd. split; [done|]. by etrans. }
    destruct e as [|d|syms|syms| |i|i text|i|i|]; cbn [WS.step Traces.all_parsed] in *.
    + apply Hsame; [|done]. apply delivered_connect.
    + apply Hsame; [|done]. apply delivered_send.
    + apply Hsame; [|done]. apply delivered_send.
    + apply Hsame; [|done]. apply delivered_send.
    + apply Hsame; [|done]. unfold WS.close. destruct (WS.ws _) as [i|]; [|done].
      by destruct (WS.sockets w !! i) as [[]|].
    + apply Hsame; [|done]. by destruct (WS.sockets w !! i) as [[]|].
    + unfold WS.onmessage in *. destruct (parse text) as [data|] eqn:Hp.
      * destruct (WS.sockets w !! i) as [[]|];
          try (exists g2; rewrite H2; split; [done|by apply sublist_cons_r; left]).
        exists (data :: g2). rewrite H2. cbn. rewrite <- app_assoc.
        split; [done|]. by apply sublist_skip.
      * exists g2. rewrite H2. split; [|done].
        by destruct (WS.sockets w !! i) as [[]|].
    + apply Hsame; [|done]. destruct (WS.sockets w !! i) as [[]|]; try done;
        unfold WS.attemptReconnect; simpl; by destruct (_ <? _)%Z.
    + by apply Hsame.
    + apply Hsame; [|done]. destruct (WS.timers w); [done|].
      by rewrite delivered_connect.
Qed.

(** Once a client has constructed a socket, [this.ws] is always the socket
    constructed last: an earlier socket can no longer be sent on or closed
    by the client, though its events still reach the client's handlers. *)
Theorem ws_is_newest_socket (path : string) (evs : list (WS.event num)) :
  let w := run (init path) evs in
  match WS.ws (WS.client w) with
  | Some i => length (WS.sockets w) = S i
  | None => WS.sockets w = []
  end.
Proof.
  cbn zeta. induction evs as [|e evs IH] using rev_ind; [done|].
  rewrite (run_app stringify parse valid_url).
  set (w := run (init path) evs) in *. cbn [WS.run fold_left].
  assert (Hc : match WS.ws (WS.client (connect w)) with
               | Some i => length (WS.sockets (connect w)) = S i
               | None => WS.sockets (connect w) = []
               end).
  { unfold WS.connect. destruct (valid_url _); [|done]. cbn.
    rewrite length_app. simpl. lia. }
  assert (Hs : forall d, match WS.ws (WS.client (send w d)) with
               | Some i => length (WS.sockets (send w d)) = S i
               | None => WS.sockets (send w d) = []
               end).
  { intros d. unfold WS.send. destruct (WS.ws (WS.client w)) as [i|] eqn:Hi; [|done].
    destruct (WS.sockets w !! i) as [[]|]; try done. cbn. by rewrite Hi. }
  assert (Hset : forall i s,
            match WS.ws (WS.client w) with
            | Some j => length (<[i := s]> (WS.sockets w)) = S j
            | None => <[i := s]> (WS.sockets w) = []
            end).
  { intros i s. destruct (WS.ws (WS.client w)); [by rewrite length_insert|].
    by rewrite IH. }
  destruct e as [|d|syms|syms| |i|i text|i|i|]; cbn [WS.step].
  - exact Hc.
  - apply Hs.
  - apply Hs.
  - apply Hs.
  - unfold WS.close. destruct (WS.ws (WS.client w)) as [i|] eqn:Hi; [|by rewrite Hi].
    destruct (WS.sockets w !! i) as [[]|]; cbn; rewrite ?Hi; try done; apply Hset.
  - destruct (WS.sockets w !! i) as [[]|]; try done. cbn. apply Hset.
  - destruct (WS.sockets w !! i) as [[]|]; try done.
    unfold WS.onmessage. by destruct (parse text).
  - destruct (WS.sockets w !! i) as [[]|]; try done;
      unfold WS.attemptReconnect; cbn; destruct (_ <? _)%Z; cbn; apply Hset.
  - done.
  - destruct (WS.timers w); [done|].
    unfold WS.connect. cbn. destruct (valid_url _); [|done]. cbn.
    rewrite length_app. simpl. lia.
Qed.

End WireFacts.

(** With the base URL set to a host without a scheme the constructor
    refuses the URL, and the client of the examples never gets a socket. *)
Lemma refused_url_never_connects_witness :
  WS.run Sample.stringify Sample.parse Sample.ws_scheme_only
    (WS.init (Some "localhost:8000") "/ws/market")
    [WS.Connect; WS.Subscribe ["NSE:SBIN-EQ"]; WS.Timeout; WS.Close]
  = WS.init (Some "localhost:8000") "/ws/market".
Proof.
  apply (refused_url_never_connects Sample.stringify Sample.parse
           Sample.ws_scheme_only (Some "localhost:8000") "/ws/market").
  reflexivity.
Defined.

(** ** The effects of useMarketData and useAlerts *)

Section HookFacts.
Context {num : Type}.
Variable stringify : jsval num -> string.
Variable parse : string -> option (jsval num).
Variable valid_url : string -> bool.
Variable NEXT_PUBLIC_WS_URL : option string.

Local Abbreviation hook_step :=
  (Traces.hook_step stringify parse valid_url NEXT_PUBLIC_WS_URL).
Local Abbreviation hook_run :=
  (Traces.hook_run stringify parse valid_url NEXT_PUBLIC_WS_URL).
Local Abbreviation run := (WS.run stringify parse valid_url).

(** With an empty list of symbols [useMarketData] never creates a client:
    nothing that happens afterwards changes that. *)
Theorem no_symbols_no_client (evs : list (@Traces.hook_event num)) :
  hook_run (Traces.useMarketData []) evs = Traces.not_mounted.
Proof.
  induction evs as [|e evs IH] using rev_ind; [done|].
  unfold Traces.hook_run in *. rewrite fold_left_app, IH.
  destruct e as [| |e|]; cbn; try done. by destruct (Traces.by_browser e).
Qed.

(** The cleanup of [useMarketData] run while the socket is still
    connecting does not close that socket: [unsubscribe] finds it not open
    and constructs a second socket, which is the one [close] then closes;
    the first stays connecting and nothing is sent.  The cleanup of
    [useAlerts], which sends nothing, closes the socket itself. *)
Theorem unmount_while_connecting (symbols : list string)
  (h : @Traces.hook num) (w : WS.world num) (i : nat) :
  Traces.owned h = Some w ->
  WS.ws (WS.client w) = Some i ->
  WS.sockets w !! i = Some WS.CONNECTING ->
  valid_url (WS.url (WS.client w)) = true ->
  (exists w', Traces.owned (hook_step (Traces.useMarketData symbols) h Traces.Unmount)
              = Some w'
     /\ WS.sockets w' = WS.sockets w ++ [WS.CLOSING]
     /\ WS.sockets w' !! i = Some WS.CONNECTING
     /\ WS.wire w' = WS.wire w)
  /\ (exists w', Traces.owned (hook_step Traces.useAlerts h Traces.Unmount) = Some w'
     /\ WS.sockets w' = <[i := WS.CLOSING]> (WS.sockets w)
     /\ WS.wire w' = WS.wire w).
Proof.
  intros Ho Hws Hi Hurl. cbn. rewrite Ho. cbn. split.
  - unfold WS.send. rewrite Hws, Hi. unfold WS.connect. rewrite Hurl.
    unfold WS.close. cbn.
    rewrite lookup_app_r by lia. rewrite Nat.sub_diag. cbn.
    eexists. split; [reflexivity|]. cbn.
    assert (Hlen : (i < length (WS.sockets w))%nat) by by apply lookup_lt_Some in Hi.
    split.
    + rewrite insert_app_r_alt by lia. by rewrite Nat.sub_diag.
    + split; [|done]. rewrite list_lookup_insert_ne by lia.
      by rewrite lookup_app_l.
  - unfold WS.close. rewrite Hws, Hi. by eexists.
Qed.

Lemma browser_fold (eff : Traces.effect) (bevs : list (WS.event num)) :
  forall (h : @Traces.hook num) (w : WS.world num),
    Traces.owned h = Some w ->
    exists w',
      Traces.owned (fold_left (hook_step eff) (Traces.Browser <$> bevs) h) = Some w'
      /\ WS.wire w' = WS.wire w.
Proof.
  induction bevs as [|e bevs IH]; intros h w Ho; [by exists w|].
  cbn [fmap list_fmap fold_left]. cbn [Traces.hook_step].
  destruct (Traces.by_browser e) eqn:Hb.
  - destruct (IH {| Traces.owned :=
                      (fun w => WS.step stringify parse valid_url w e) <$> Traces.owned h;
                    Traces.subscribe_timer := Traces.subscribe_timer h |}
                 (WS.step stringify parse valid_url w e))
      as (w' & Hw' & Hwire).
    { cbn. by rewrite Ho. }
    exists w'. split; [exact Hw'|]. rewrite Hwire.
    apply (wire_browser stringify parse valid_url [e] w).
    cbn. by rewrite Hb.
  - by apply IH.
Qed.

(** When the subscribe timer of either hook fires before the socket is
    open, the subscription is dropped for good: the timer does not fire
    again, so whatever the browser reports afterwards, opens and
    reconnections included, nothing is ever sent. *)
Theorem subscribe_before_open_is_lost (eff : Traces.effect)
  (h : @Traces.hook num) (w : WS.world num) (bevs : list (WS.event num)) :
  Traces.owned h = Some w ->
  Traces.subscribe_timer h = true ->
  WS.socket_open w = false ->
  exists w',
    Traces.owned
      (fold_left (hook_step eff)
         (Traces.SubscribeTimer :: (Traces.Browser <$> bevs)) h) = Some w'
    /\ WS.wire w' = WS.wire w
    /\ Traces.subscribe_timer
         (fold_left (hook_step eff)
            (Traces.SubscribeTimer :: (Traces.Browser <$> bevs)) h) = false.
Proof.
  intros Ho Ht Hclosed. cbn [fold_left Traces.hook_step]. rewrite Ht, Ho. cbn [fmap option_fmap option_map].
  pose proof (wire_send_closed stringify valid_url w
                (Traces.subscribe_payload eff) Hclosed) as Hwire.
  set (h1 := {| Traces.owned := Some (WS.send stringify valid_url w
                                        (Traces.subscribe_payload eff));
                Traces.subscribe_timer := false |}).
  destruct (browser_fold eff bevs h1 _ eq_refl) as (w' & Hw' & Hwire').
  exists w'. split; [exact Hw'|]. split; [by rewrite Hwire', Hwire|].
  clear. subst h1. generalize (Some (WS.send stringify valid_url w
                                        (Traces.subscribe_payload eff))).
  induction bevs as [|e bevs IH]; intros o; [done|].
  cbn [fmap list_fmap fold_left Traces.hook_step].
  destruct (Traces.by_browser e); apply IH.
Qed.

End HookFacts.

(** Unmounting either hook of the examples right after it mounted. *)
Lemma unmount_while_connecting_witness :
  (exists w',
     Traces.owned
       (Traces.hook_step Sample.stringify Sample.parse Sample.valid_url None
          (Traces.useMarketData ["NSE:SBIN-EQ"]) Sample.market_mounted Traces.Unmount)
     = Some w'
     /\ WS.sockets w' = [WS.CONNECTING; WS.CLOSING])
  /\ (exists w',
     Traces.owned
       (Traces.hook_step Sample.stringify Sample.parse Sample.valid_url None
          Traces.useAlerts Sample.market_mounted Traces.Unmount)
     = Some w'
     /\ WS.sockets w' = [WS.CLOSING]).
Proof.
  destruct (unmount_while_connecting Sample.stringify Sample.parse
              Sample.valid_url None ["NSE:SBIN-EQ"] Sample.market_mounted
              Sample.connecting 0 eq_refl eq_refl eq_refl eq_refl)
    as [(w1 & H1 & S1 & _) (w2 & H2 & S2 & _)].
  split; [exists w1|exists w2]; split; assumption.
Defined.

(** The subscribe timer of [useAlerts] firing before the socket opened. *)
Lemma subscribe_before_open_is_lost_witness :
  exists w',
    Traces.owned
      (fold_left
         (Traces.hook_step Sample.stringify Sample.parse Sample.valid_url None
            Traces.useAlerts)
         (Traces.SubscribeTimer
          :: (Traces.Browser <$> [WS.OnOpen 0; WS.OnOpen 1; WS.OnClose 0; WS.Timeout]))
         Sample.alerts_mounted) = Some w'
    /\ WS.wire w' = [].
Proof.
  destruct (subscribe_before_open_is_lost Sample.stringify Sample.parse
              Sample.valid_url None Traces.useAlerts Sample.alerts_mounted
              Sample.alerts_client
              [WS.OnOpen 0; WS.OnOpen 1; WS.OnClose 0; WS.Timeout]
              eq_refl eq_refl eq_refl)
    as (w' & H1 & H2 & _).
  exists w'. split; assumption.
Defined.

(** ** useMarketData over streams of messages *)

Section MarketStreamFacts.
Context {num : Type}.
Variable num_truthy : num -> bool.
Variable num_to_string : num -> string.

Local Abbreviation handleMessage := (MarketData.handleMessage num_truthy).
Local Abbreviation receive := (MarketData.receive num_truthy num_to_string).
Local Abbreviation resolved_symbol :=
  (MarketData.resolved_symbol num_truthy num_to_string).
Local Abbreviation market_all := (Streams.market_all num_truthy num_to_string).

(** The state a market update that names a symbol leads to. *)
Lemma handle_update (st : MarketData.state num) (now : Z)
  (message update : jsval num) (key : string) :
  prop message "type" = Some (JStr "market_update") ->
  prop message "data" = Some update ->
  resolved_symbol update = Some key ->
  receive (MarketData.Mounted st) now message
  = MarketData.Mounted
      {| MarketData.data :=
           <[key := MarketData.merged (MarketData.data st) key update now]>
             (MarketData.data st);
         MarketData.connected := MarketData.connected st |}.
Proof.
  intros Hty Hdata Hkey.
  destruct message as [| | | | |m]; try discriminate. simpl in Hty, Hdata.
  destruct (resolved_symbol_object _ _ update key Hkey) as [o ->].
  unfold MarketData.receive, MarketData.handleMessage. simpl.
  rewrite Hty, Hdata. simpl.
  unfold MarketData.resolved_symbol in Hkey.
  destruct (MarketData.symbol_of num_truthy (JObj o)) as [symbol|]; [|done].
  destruct (truthy num_truthy symbol); [|done].
  unfold MarketData.render, MarketData.updater. by rewrite Hkey.
Qed.

(** What a message can have done to a component that is still mounted. *)
Lemma handled_cases (st st' : MarketData.state num) (now : Z) (message : jsval num) :
  receive (MarketData.Mounted st) now message = MarketData.Mounted st' ->
  st' = st
  \/ (exists update key,
        prop message "type" = Some (JStr "market_update")
        /\ prop message "data" = Some update
        /\ resolved_symbol update = Some key
        /\ st' = {| MarketData.data :=
                      <[key := MarketData.merged (MarketData.data st) key update now]>
                        (MarketData.data st);
                    MarketData.connected := MarketData.connected st |})
  \/ (prop message "type" = Some (JStr "subscription_status")
      /\ prop message "type" <> Some (JStr "market_update")
      /\ st' = {| MarketData.data := MarketData.data st;
                  MarketData.connected :=
                    MarketData.is_str (prop message "status") "success" |}).
Proof.
  unfold MarketData.receive, MarketData.handleMessage.
  destruct message as [| | | | |m]; simpl; try (intros [= <-]; by left).
  destruct (m !! "type") as [ty|] eqn:Hty; simpl; [|intros [= <-]; by left].
  destruct ty as [| | |s| |]; simpl; try (intros [= <-]; by left).
  destruct (String.eqb_spec s "market_update") as [->|Hs1]; simpl.
  - destruct (m !! "data") as [update|] eqn:Hd; simpl; [|intros [= <-]; by left].
    destruct (truthy num_truthy update) eqn:Htr; simpl; [|intros [= <-]; by left].
    unfold MarketData.resolved_symbol.
    destruct (MarketData.symbol_of num_truthy update) as [symbol|] eqn:Hsym;
      [|intros [= <-]; by left].
    destruct (truthy num_truthy symbol) eqn:Hts; [|intros [= <-]; by left].
    unfold MarketData.render, MarketData.updater.
    destruct (ToString num_to_string symbol) as [key|] eqn:Hk; [|done].
    intros [= <-]. right. left. exists update, key.
    by rewrite Hsym, Hts.
  - destruct (String.eqb_spec s "subscription_status") as [->|Hs2]; simpl.
    + intros [= <-]. right. right. split; [done|]. split; [|done]. by intros [= ?].
    + intros [= <-]. by left.
Qed.

(** An unmounted component stays unmounted. *)
Lemma market_all_unmounted (messages : list (Z * jsval num)) :
  market_all MarketData.Unmounted messages = MarketData.Unmounted.
Proof. induction messages as [|[now m] messages IH]; [done|]. exact IH. Qed.

(** A message that is not a market update (and not [null], on which the
    handler throws) is handled without throwing and without unmounting the
    component, and leaves the market data untouched; it changes
    [connected] only when it is a [subscription_status], to whether its
    status is exactly ["success"]. *)
Theorem only_updates_change_data (st : MarketData.state num) (now : Z)
  (message : jsval num) :
  message <> JNull ->
  prop message "type" <> Some (JStr "market_update") ->
  exists called st',
    handleMessage message = Resolved called
    /\ receive (MarketData.Mounted st) now message = MarketData.Mounted st'
    /\ MarketData.data st' = MarketData.data st
    /\ MarketData.connected st'
       = if MarketData.is_str (prop message "type") "subscription_status"
         then MarketData.is_str (prop message "status") "success"
         else MarketData.connected st.
Proof.
  intros Hnull Hty. unfold MarketData.receive, MarketData.handleMessage.
  destruct message as [| | | | |m]; simpl in *; try done;
    try (by exists None, st).
  destruct (m !! "type") as [ty|]; simpl; [|by exists None, st].
  destruct ty as [| | |s| |]; simpl; try (by exists None, st).
  destruct (String.eqb_spec s "market_update") as [->|Hs1]; [done|]. simpl.
  destruct (String.eqb s "subscription_status"); by do 2 eexists.
Qed.

(** While the component stays mounted, no message removes a symbol or a
    field of a symbol's record: what has been received stays on record
    until overwritten. *)
Lemma fields_kept_step (st st' : MarketData.state num) (now : Z)
  (message : jsval num) (symbol f : string) :
  receive (MarketData.Mounted st) now message = MarketData.Mounted st' ->
  Streams.has_field st symbol f -> Streams.has_field st' symbol f.
Proof.
  intros H. destruct (handled_cases st st' now message H)
    as [->|[(u & k & _ & _ & Hk & ->)|(_ & _ & ->)]]; simpl; try done.
  unfold Streams.has_field. simpl.
  destruct (resolved_symbol_object _ _ u k Hk) as [o ->].
  destruct (decide (symbol = k)) as [->|Hne].
  - rewrite lookup_insert_eq. simpl. rewrite merged_lookup.
    destruct (decide (f = "last_updated")); [by eexists|].
    destruct (o !! f); [by eexists|done].
  - by rewrite lookup_insert_ne.
Qed.

Theorem fields_are_never_removed (messages : list (Z * jsval num)) :
  forall (st st' : MarketData.state num) (symbol f : string),
    market_all (MarketData.Mounted st) messages = MarketData.Mounted st' ->
    Streams.has_field st symbol f ->
    Streams.has_field st' symbol f.
Proof.
  induction messages as [|[now m] messages IH]; intros st st' symbol f Hrun Hf.
  - by injection Hrun as <-.
  - cbn [Streams.market_all] in Hrun.
    destruct (receive (MarketData.Mounted st) now m) as [st1|] eqn:H.
    + eapply IH; [exact Hrun|]. by eapply fields_kept_step.
    + by rewrite market_all_unmounted in Hrun.
Qed.

(** Every record a mounted component holds carries the [last_updated]
    time stamp the client wrote. *)
Theorem records_are_stamped (messages : list (Z * jsval num))
  (st' : MarketData.state num) (symbol : string)
  (record : gmap string (MarketData.field num)) :
  market_all (MarketData.Mounted MarketData.initial) messages
  = MarketData.Mounted st' ->
  MarketData.data st' !! symbol = Some record ->
  exists t, record !! "last_updated" = Some (MarketData.Timestamp t).
Proof.
  assert (Hgen : forall st : MarketData.state num,
            (forall s r, MarketData.data st !! s = Some r ->
               exists t, r !! "last_updated" = Some (MarketData.Timestamp t)) ->
            market_all (MarketData.Mounted st) messages = MarketData.Mounted st' ->
            forall s r, MarketData.data st' !! s = Some r ->
               exists t, r !! "last_updated" = Some (MarketData.Timestamp t)).
  { induction messages as [|[now m] messages IH]; intros st Hst Hrun.
    { by injection Hrun as <-. }
    cbn [Streams.market_all] in Hrun.
    destruct (receive (MarketData.Mounted st) now m) as [st1|] eqn:H;
      [|by rewrite market_all_unmounted in Hrun].
    apply (IH st1); [|exact Hrun]. intros s r.
    destruct (handled_cases st st1 now m H)
      as [->|[(u & k & _ & _ & Hk & ->)|(_ & _ & ->)]]; simpl; try apply Hst.
    destruct (decide (s = k)) as [->|Hne].
    - rewrite lookup_insert_eq. intros [= <-]. exists now.
      unfold MarketData.merged. by rewrite lookup_insert_eq.
    - rewrite lookup_insert_ne by done. apply Hst. }
  intros Hrun. apply (Hgen MarketData.initial); [|exact Hrun].
  intros s r. simpl. by rewrite lookup_empty.
Qed.

(** Updates of two different symbols, handled in either order at the
    clock readings [t1] and then [t2], leave the same fields in every
    record, the time stamps apart: each symbol's [last_updated] is the time
    its own update was handled. *)
Theorem updates_of_different_symbols_commute (st : MarketData.state num)
  (t1 t2 : Z) (m1 m2 u1 u2 : jsval num) (k1 k2 : string) :
  prop m1 "type" = Some (JStr "market_update") ->
  prop m2 "type" = Some (JStr "market_update") ->
  prop m1 "data" = Some u1 -> prop m2 "data" = Some u2 ->
  resolved_symbol u1 = Some k1 -> resolved_symbol u2 = Some k2 ->
  k1 <> k2 ->
  exists a b,
    market_all (MarketData.Mounted st) [(t1, m1); (t2, m2)] = MarketData.Mounted a
    /\ market_all (MarketData.Mounted st) [(t1, m2); (t2, m1)] = MarketData.Mounted b
    /\ MarketData.connected a = MarketData.connected b
    /\ (forall k f, f <> "last_updated" ->
          MarketData.data a !! k ≫= (.!! f) = MarketData.data b !! k ≫= (.!! f))
    /\ (forall k, k <> k1 -> k <> k2 ->
          MarketData.data a !! k = MarketData.data b !! k)
    /\ MarketData.data a !! k1 ≫= (.!! "last_updated")
       = Some (MarketData.Timestamp t1)
    /\ MarketData.data b !! k1 ≫= (.!! "last_updated")
       = Some (MarketData.Timestamp t2)
    /\ MarketData.data a !! k2 ≫= (.!! "last_updated")
       = Some (MarketData.Timestamp t2)
    /\ MarketData.data b !! k2 ≫= (.!! "last_updated")
       = Some (MarketData.Timestamp t1).
Proof.
  intros Hy1 Hy2 Hd1 Hd2 Hk1 Hk2 Hne. cbn [Streams.market_all].
  rewrite (handle_update st t1 m1 u1 k1), (handle_update st t1 m2 u2 k2) by done.
  rewrite (handle_update _ t2 m2 u2 k2), (handle_update _ t2 m1 u1 k1) by done.
  do 2 eexists. split; [reflexivity|]. split; [reflexivity|]. simpl.
  destruct (resolved_symbol_object _ _ u1 k1 Hk1) as [o1 ->].
  destruct (resolved_symbol_object _ _ u2 k2 Hk2) as [o2 ->].
  assert (Hne' : k2 <> k1) by done.
  split; [done|]. split; [|split; [|split; [|split; [|split]]]].
  - intros k f Hf.
    destruct (decide (k = k1)) as [->|H1]; [|destruct (decide (k = k2)) as [->|H2]].
    + rewrite lookup_insert_ne, !lookup_insert_eq by done. simpl.
      rewrite !merged_lookup. destruct (decide (f = "last_updated")); [done|].
      by rewrite lookup_insert_ne.
    + rewrite lookup_insert_eq, lookup_insert_ne, lookup_insert_eq by done. simpl.
      rewrite !merged_lookup. destruct (decide (f = "last_updated")); [done|].
      by rewrite lookup_insert_ne.
    + by rewrite !lookup_insert_ne.
  - intros k H1 H2. by rewrite !lookup_insert_ne.
  - rewrite lookup_insert_ne, lookup_insert_eq by done. simpl.
    by rewrite merged_lookup.
  - rewrite lookup_insert_eq. simpl. by rewrite merged_lookup.
  - rewrite lookup_insert_eq. simpl. by rewrite merged_lookup.
  - rewrite lookup_insert_ne, lookup_insert_eq by done. simpl.
    by rewrite merged_lookup.
Qed.

(** Receiving the same update of a symbol twice leaves the state an
    update received once, at the later time, would have left. *)
Theorem repeated_update_is_absorbed (st : MarketData.state num)
  (t1 t2 : Z) (m u : jsval num) (k : string) :
  prop m "type" = Some (JStr "market_update") ->
  prop m "data" = Some u ->
  resolved_symbol u = Some k ->
  market_all (MarketData.Mounted st) [(t1, m); (t2, m)]
  = market_all (MarketData.Mounted st) [(t2, m)].
Proof.
  intros Hy Hd Hk. cbn [Streams.market_all].
  rewrite (handle_update st t1 m u k), (handle_update st t2 m u k) by done.
  rewrite (handle_update _ t2 m u k) by done.
  simpl. do 2 f_equal. rewrite insert_insert_eq. f_equal.
  destruct (resolved_symbol_object _ _ u k Hk) as [o ->].
  apply map_eq. intros f. rewrite !merged_lookup.
  destruct (decide (f = "last_updated")) as [->|Hf]; [done|].
  destruct (o !! f) eqn:Hof; [done|].
  rewrite lookup_insert_eq. simpl. rewrite merged_lookup.
  destruct (decide (f = "last_updated")); [done|]. by rewrite Hof.
Qed.

End MarketStreamFacts.

(** A successful subscription status leaves the two symbols on record as
    they are and sets [connected]. *)
Lemma only_updates_change_data_witness :
  exists st',
    MarketData.receive Sample.num_truthy Sample.num_to_string
      (MarketData.Mounted Sample.two_symbols) 5 Sample.status_message
    = MarketData.Mounted st'
    /\ MarketData.data st' = MarketData.data Sample.two_symbols.
Proof.
  destruct (only_updates_change_data Sample.num_truthy Sample.num_to_string
              Sample.two_symbols 5 Sample.status_message)
    as (called & st' & _ & H1 & H2 & _).
  - discriminate.
  - vm_compute. discriminate.
  - exists st'. split; assumption.
Defined.

(** The price of TCS stays on record through an update of SBIN and a
    subscription status. *)
Lemma fields_are_never_removed_witness :
  exists st',
    Streams.market_all Sample.num_truthy Sample.num_to_string
      (MarketData.Mounted Sample.two_symbols)
      [(5%Z, Sample.sbin_message); (6%Z, Sample.status_message)]
    = MarketData.Mounted st'
    /\ Streams.has_field Sample.two_symbols "NSE:TCS-EQ" "ltp"
    /\ Streams.has_field st' "NSE:TCS-EQ" "ltp".
Proof.
  assert (H : Streams.has_field Sample.two_symbols "NSE:TCS-EQ" "ltp").
  { vm_compute. eexists. reflexivity. }
  destruct (Streams.market_all Sample.num_truthy Sample.num_to_string
              (MarketData.Mounted Sample.two_symbols)
              [(5%Z, Sample.sbin_message); (6%Z, Sample.status_message)])
    as [st'|] eqn:Hrun; [|vm_compute in Hrun; discriminate].
  exists st'. split; [reflexivity|]. split; [exact H|].
  exact (fields_are_never_removed Sample.num_truthy Sample.num_to_string
           [(5%Z, Sample.sbin_message); (6%Z, Sample.status_message)]
           Sample.two_symbols st' "NSE:TCS-EQ" "ltp" Hrun H).
Defined.

(** The record of SBIN after its first update carries the time of the
    update. *)
Lemma records_are_stamped_witness :
  exists st' record t,
    Streams.market_all Sample.num_truthy Sample.num_to_string
      (MarketData.Mounted MarketData.initial) [(5%Z, Sample.sbin_message)]
    = MarketData.Mounted st'
    /\ MarketData.data st' !! "NSE:SBIN-EQ" = Some record
    /\ record !! "last_updated" = Some (MarketData.Timestamp t).
Proof.
  destruct (Streams.market_all Sample.num_truthy Sample.num_to_string
              (MarketData.Mounted MarketData.initial) [(5%Z, Sample.sbin_message)])
    as [st'|] eqn:Hrun; [|vm_compute in Hrun; discriminate].
  destruct (MarketData.data st' !! "NSE:SBIN-EQ") as [record|] eqn:H.
  - destruct (records_are_stamped Sample.num_truthy Sample.num_to_string
                [(5%Z, Sample.sbin_message)] st' "NSE:SBIN-EQ" record Hrun H)
      as [t Ht].
    exists st', record, t. split; [reflexivity|]. split; [exact H|exact Ht].
  - exfalso. vm_compute in Hrun. injection Hrun as <-.
    vm_compute in H. discriminate.
Defined.

(** An update of SBIN and one of TCS, handled at 5 and 6 in either
    order. *)
Lemma updates_of_different_symbols_commute_witness :
  exists a b,
    Streams.market_all Sample.num_truthy Sample.num_to_string
      (MarketData.Mounted Sample.two_symbols)
      [(5%Z, Sample.sbin_message); (6%Z, Sample.tcs_message)]
    = MarketData.Mounted a
    /\ Streams.market_all Sample.num_truthy Sample.num_to_string
         (MarketData.Mounted Sample.two_symbols)
         [(5%Z, Sample.tcs_message); (6%Z, Sample.sbin_message)]
       = MarketData.Mounted b
    /\ MarketData.data a !! "NSE:SBIN-EQ" ≫= (.!! "last_updated")
       = Some (MarketData.Timestamp 5)
    /\ MarketData.data b !! "NSE:SBIN-EQ" ≫= (.!! "last_updated")
       = Some (MarketData.Timestamp 6).
Proof.
  destruct (updates_of_different_symbols_commute Sample.num_truthy
              Sample.num_to_string Sample.two_symbols 5 6
              Sample.sbin_message Sample.tcs_message
              Sample.sbin_update Sample.tcs_update "NSE:SBIN-EQ" "NSE:TCS-EQ"
              eq_refl eq_refl eq_refl eq_refl eq_refl eq_refl
              ltac:(discriminate))
    as (a & b & Ha & Hb & _ & _ & _ & H1 & H2 & _).
  exists a, b. split; [exact Ha|]. split; [exact Hb|]. split; [exact H1|exact H2].
Defined.

(** The update of SBIN received twice. *)
Lemma repeated_update_is_absorbed_witness :
  Streams.market_all Sample.num_truthy Sample.num_to_string
    (MarketData.Mounted Sample.two_symbols)
    [(5%Z, Sample.sbin_message); (6%Z, Sample.sbin_message)]
  = Streams.market_all Sample.num_truthy Sample.num_to_string
      (MarketData.Mounted Sample.two_symbols) [(6%Z, Sample.sbin_message)].
Proof.
  apply (repeated_update_is_absorbed Sample.num_truthy Sample.num_to_string
           Sample.two_symbols 5 6 Sample.sbin_message Sample.sbin_update
           "NSE:SBIN-EQ");
    vm_compute; reflexivity.
Defined.

(** ** The alerts lists over streams *)

Section AlertStreamFacts.
Context {num : Type}.
Variable num_truthy : num -> bool.
Variable stringify : jsval num -> string.
Variable toLowerCase : string -> string.

Local Abbreviation alert := (Alerts.RealtimeAlert num).
Local Abbreviation handleMessage :=
  (Alerts.handleMessage num_truthy stringify toLowerCase).
Local Abbreviation handle_all :=
  (Alerts.handle_all num_truthy stringify toLowerCase).

Lemma filter_first_sublist (self l : list alert) :
  forall i, Alerts.filter_first self i l `sublist_of` l.
Proof.
  induction l as [|a l IH]; intros i; simpl; [done|].
  destruct (Alerts.findIndex _ self) as [j|]; [destruct (Nat.eqb i j)|];
    first [by apply sublist_skip | by apply sublist_cons].
Qed.

(** What a handled message can have done to the list. *)
Lemma alerts_cases (st st' : Alerts.state num) (now : Z) (ref : nat)
  (message : jsval num) :
  handleMessage st now ref message = Resolved st' ->
  Alerts.alerts st' = Alerts.alerts st
  \/ exists a, Alerts.alerts st' = Alerts.dedupe_cap (a :: Alerts.alerts st).
Proof.
  unfold Alerts.handleMessage.
  destruct (MarketData.is_str _ "subscription_status"); [intros [= <-]; by left|].
  destruct (_ && _); [|intros [= <-]; by left].
  destruct (prop message "data") as [payload|]; [|intros [= <-]; by left].
  destruct (Alerts.normalizeType _ _ _) as [ty|e]; [|done].
  intros [= <-]. right. by eexists.
Qed.

(** Whatever [useAlerts] receives, its list never holds more than five
    alerts, and no two of them hold messages that are [===]. *)
Theorem useAlerts_list_invariant (messages : list (jsval num)) (now0 : Z) :
  let st := handle_all Alerts.initial now0 0 messages in
  (length (Alerts.alerts st) <= 5)%nat
  /\ Alerts.distinct_messages (Alerts.alerts st).
Proof.
  cbn zeta.
  assert (Hgen : forall (k : nat) (st : Alerts.state num),
            (length (Alerts.alerts st) <= 5)%nat
            /\ Alerts.distinct_messages (Alerts.alerts st) ->
            (length (Alerts.alerts (handle_all st now0 k messages)) <= 5)%nat
            /\ Alerts.distinct_messages (Alerts.alerts (handle_all st now0 k messages))).
  { induction messages as [|m messages IH]; intros k st Hst; [done|].
    simpl. destruct (handleMessage st _ k m) as [st'|e] eqn:H; [|by apply IH].
    apply IH. destruct (alerts_cases st st' _ k m H) as [->|[a ->]]; [done|].
    apply dedupe_cap_spec. }
  apply Hgen. split; [simpl; lia|].
  intros i j x y _ Hx. simpl in Hx. by rewrite lookup_nil in Hx.
Qed.

(** An alert that is handled goes to the front of the list with the
    current time as its id; behind it the earlier alerts keep their order,
    none of them holding a message [===] to the new one, and some of them
    dropped to keep the list within five. *)
Theorem new_alert_goes_first (st : Alerts.state num) (now : Z) (ref : nat)
  (message payload : jsval num) (ty : Alerts.AlertType) :
  prop message "type" = Some (JStr "alert") ->
  prop message "data" = Some payload ->
  truthy num_truthy payload = true ->
  Alerts.normalizeType num_truthy toLowerCase (prop payload "type") = Resolved ty ->
  exists a rest,
    handleMessage st now ref message
    = Resolved {| Alerts.alerts := a :: rest;
                  Alerts.connected := Alerts.connected st |}
    /\ Alerts.id a = now /\ Alerts.type a = ty
    /\ Alerts.message a = Alerts.text_of num_truthy stringify ref payload
    /\ rest `sublist_of` Alerts.alerts st
    /\ (length rest <= 4)%nat
    /\ Forall (fun b => Alerts.strict_eq (Alerts.message a) (Alerts.message b) = false)
         rest.
Proof.
  intros Hty Hdata Htr Hnorm.
  destruct message as [| | | | |m]; try discriminate. simpl in Hty, Hdata.
  unfold Alerts.handleMessage. simpl. rewrite Hty, Hdata. simpl. rewrite Htr, Hnorm.
  set (a := {| Alerts.id := now; Alerts.type := ty;
               Alerts.message := Alerts.text_of num_truthy stringify ref payload;
               Alerts.timestamp := now |}).
  destruct (dedupe_cap_head a (Alerts.alerts st)) as [rest Hrest].
  destruct (dedupe_cap_spec (a :: Alerts.alerts st)) as [Hlen Hd].
  exists a, rest. rewrite Hrest in *. simpl in Hlen.
  split; [done|]. split; [done|]. split; [done|]. split; [done|].
  split; [|split; [lia|]].
  - assert (Hsub : (a :: rest) `sublist_of` (a :: Alerts.alerts st)).
    { rewrite <- Hrest. unfold Alerts.dedupe_cap.
      etrans; [apply sublist_take|apply filter_first_sublist]. }
    apply sublist_cons_l in Hsub as (k1 & k2 & Heq & Hs).
    destruct k1 as [|b k1]; simpl in Heq.
    + injection Heq as <-. done.
    + injection Heq as <- ->. etrans; [exact Hs|].
      apply sublist_inserts_l. by apply sublist_cons.
  - apply Forall_forall. intros b Hb.
    apply list_elem_of_lookup in Hb as [j Hj].
    by apply (Hd 0%nat (S j) a b); [lia| |].
Qed.

(** Whatever the polling panel fetches, and whether its fetches succeed or
    fail, its list never holds more than five alerts and never the same
    message text twice. *)
Theorem polled_alerts_invariant
  (fetches : list (Z * outcome (list Alerts.BackendAlert))) :
  let l := @Streams.poll_all num toLowerCase [] fetches in
  (length l <= 5)%nat /\ NoDup (Alerts.message <$> l).
Proof.
  cbn zeta.
  assert (Hgen : forall prev : list alert,
            (length prev <= 5)%nat /\ NoDup (Alerts.message <$> prev)
            /\ Forall (@Alerts.is_string num) prev ->
            (length (Streams.poll_all toLowerCase prev fetches) <= 5)%nat
            /\ NoDup (Alerts.message <$> Streams.poll_all toLowerCase prev fetches)).
  { induction fetches as [|[now r] fetches IH]; intros prev Hprev;
      [destruct Hprev as (Hl & Hn & _); by split|].
    simpl. apply IH. destruct r as [backend|e]; simpl; [|done].
    destruct backend as [|b backend]; [done|].
    destruct Hprev as (_ & _ & Hs).
    by apply (poll_update_invariant toLowerCase prev now (b :: backend)). }
  apply Hgen. simpl. split; [lia|]. split; [constructor|constructor].
Qed.

End AlertStreamFacts.

(** The first alert of a connection. *)
Lemma new_alert_goes_first_witness :
  exists a rest,
    Alerts.handleMessage Sample.num_truthy Sample.stringify Sample.toLowerCase
      Alerts.initial 7 0 Sample.alert_message
    = Resolved {| Alerts.alerts := a :: rest; Alerts.connected := false |}
    /\ Alerts.id a = 7%Z /\ Alerts.type a = "warning".
Proof.
  destruct (new_alert_goes_first Sample.num_truthy Sample.stringify
              Sample.toLowerCase Alerts.initial 7 0 Sample.alert_message
              Sample.iv_alert "warning")
    as (a & rest & H1 & H2 & H3 & _); try (vm_compute; reflexivity).
  exists a, rest. split; [exact H1|]. split; assumption.
Defined.

(** ** HighVolumeScanner over whole traces *)

Section ScannerFacts.
Context {A : Type}.

Local Abbreviation State := (HVS.State A).
Local Abbreviation paired := (@Progress.paired A).

Lemma clearInterval_fresh (i : nat) (l : list (nat * (Z * Z))) :
  i ∉ fst <$> l -> HVS.clearInterval i l = l.
Proof.
  induction l as [|t l IH]; simpl; [done|].
  rewrite not_elem_of_cons. intros [Hne Hl].
  destruct (Nat.eqb_spec t.1 i) as [Heq|_]; [by subst|]. simpl. by rewrite IH.
Qed.

Lemma remove_pending_fresh (p : nat) (l : list (nat * HVS.pending)) :
  p ∉ fst <$> l -> HVS.remove_pending p l = l.
Proof.
  induction l as [|q l IH]; simpl; [done|].
  rewrite not_elem_of_cons. intros [Hne Hl].
  destruct (Nat.eqb_spec q.1 p) as [Heq|_]; [by subst|]. simpl. by rewrite IH.
Qed.

Lemma find_pending_elem (p : nat) (pd : HVS.pending) (l : list (nat * HVS.pending)) :
  HVS.find_pending p l = Some pd -> (p, pd) ∈ l.
Proof.
  unfold HVS.find_pending. induction l as [|[q d] l IH]; simpl; [done|].
  destruct (Nat.eqb_spec q p) as [->|_]; simpl.
  - intros [= <-]. apply elem_of_cons. by left.
  - intros H. apply elem_of_cons. right. by apply IH.
Qed.

Lemma filter_sublist {B : Type} (f : B -> bool) (l : list B) :
  List.filter f l `sublist_of` l.
Proof.
  induction l as [|b l IH]; simpl; [done|].
  destruct (f b); [by apply sublist_skip|by apply sublist_cons].
Qed.

Lemma filter_Forall {B : Type} (P : B -> Prop) (f : B -> bool) (l : list B) :
  Forall P l -> Forall P (List.filter f l).
Proof.
  induction 1 as [|b l Hb Hl IH]; simpl; [constructor|].
  destruct (f b); [by constructor|done].
Qed.

(** Settling a request removes its interval and nothing else. *)
Lemma paired_settle (ts : list (nat * (Z * Z))) (qs : list (nat * HVS.pending))
  (p : nat) (pd : HVS.pending) :
  Forall2 (fun t q => fst t = HVS.progressInterval (snd q)) ts qs ->
  NoDup (fst <$> ts) -> NoDup (fst <$> qs) ->
  HVS.find_pending p qs = Some pd ->
  Forall2 (fun t q => fst t = HVS.progressInterval (snd q))
    (HVS.clearInterval (HVS.progressInterval pd) ts) (HVS.remove_pending p qs).
Proof.
  intros H. induction H as [|t q ts qs Htq H IH]; intros Hts Hqs Hf; [done|].
  simpl in Hts, Hqs. apply NoDup_cons in Hts as [Ht Hts].
  apply NoDup_cons in Hqs as [Hq Hqs].
  unfold HVS.find_pending in Hf. simpl in *.
  destruct (Nat.eqb_spec q.1 p) as [Heq|Hne]; simpl in *.
  - injection Hf as <-. rewrite <- Htq, Nat.eqb_refl. simpl.
    rewrite clearInterval_fresh by done.
    rewrite remove_pending_fresh by (by subst).
    done.
  - assert (Hin : HVS.progressInterval pd ∈ fst <$> ts).
    { apply find_pending_elem in Hf.
      apply list_elem_of_lookup in Hf as [k Hk].
      destruct (Forall2_lookup_r _ _ _ _ _ H Hk) as (t' & Ht' & Heq).
      simpl in Heq. rewrite <- Heq.
      apply list_elem_of_fmap. exists t'. split; [done|].
      by apply list_elem_of_lookup_2 in Ht'. }
    destruct (Nat.eqb_spec t.1 (HVS.progressInterval pd)) as [Heq|_].
    { by rewrite <- Heq in Hin. }
    simpl. constructor; [done|]. by apply IH.
Qed.

Lemma paired_ext (s s' : State) :
  HVS.progress_timers s' = HVS.progress_timers s ->
  HVS.in_flight s' = HVS.in_flight s ->
  HVS.next_id s' = HVS.next_id s ->
  HVS.scanProgress s' = HVS.scanProgress s ->
  paired s -> paired s'.
Proof.
  intros H1 H2 H3 H4 [? ? ? ? ? ? ?].
  split; rewrite ?H1, ?H2, ?H3, ?H4; done.
Qed.

(** Starting a request adds one interval and one promise, with fresh
    identifiers, and resets the progress. *)
Lemma paired_start (s s' : State) (inc period : Z) (req : HVS.request) :
  paired s ->
  inc = 2%Z \/ inc = 5%Z ->
  HVS.progress_timers s' = HVS.progress_timers s ++ [(HVS.next_id s, (inc, period))] ->
  HVS.in_flight s'
  = HVS.in_flight s
    ++ [(S (HVS.next_id s),
         {| HVS.awaited := req; HVS.progressInterval := HVS.next_id s |})] ->
  HVS.next_id s' = S (S (HVS.next_id s)) ->
  HVS.scanProgress s' = 0%Z ->
  paired s'.
Proof.
  intros [Hm Ht Hq Htf Hqf Hinc Hp] Hi H1 H2 H3 H4.
  split; rewrite ?H1, ?H2, ?H3, ?H4.
  - apply Forall2_app; [done|]. by constructor.
  - rewrite fmap_app. apply NoDup_app. split; [done|]. split.
    + intros x Hx Hx2. simpl in Hx2. apply list_elem_of_singleton in Hx2.
      apply list_elem_of_fmap in Hx as (t & Heq & Hin).
      rewrite Forall_forall in Htf. specialize (Htf t Hin). lia.
    + simpl. apply NoDup_singleton.
  - rewrite fmap_app. apply NoDup_app. split; [done|]. split.
    + intros x Hx Hx2. simpl in Hx2. apply list_elem_of_singleton in Hx2.
      apply list_elem_of_fmap in Hx as (q & Heq & Hin).
      rewrite Forall_forall in Hqf. specialize (Hqf q Hin). lia.
    + simpl. apply NoDup_singleton.
  - apply Forall_app. split.
    + eapply Forall_impl; [exact Htf|]. simpl. lia.
    + constructor; [simpl; lia|constructor].
  - apply Forall_app. split.
    + eapply Forall_impl; [exact Hqf|]. simpl. lia.
    + constructor; [simpl; lia|constructor].
  - apply Forall_app. split; [done|]. constructor; [done|constructor].
  - lia.
Qed.

Lemma paired_scanStocks (s : State) : paired s -> paired (HVS.scanStocks s).
Proof.
  intros H. by apply (paired_start s _ 2 100 (HVS.scanHighVolume (HVS.timeframe s) 5));
    [|left| | | |].
Qed.

Lemma paired_analyze (s : State) : paired s -> paired (HVS.analyzeOptionChains s).
Proof.
  intros H. unfold HVS.analyzeOptionChains.
  destruct (HVS.scanResult s) as [r|]; [|done].
  destruct (HVS.top_stocks r) as [|x l] eqn:Hr; [done|].
  by apply (paired_start s _ 5 200 (HVS.bulkOCAnalysis (x :: l))); [|right| | | |].
Qed.

Lemma paired_settled (s s' : State) (p : nat) (pd : HVS.pending) :
  paired s ->
  HVS.find_pending p (HVS.in_flight s) = Some pd ->
  HVS.progress_timers s'
  = HVS.clearInterval (HVS.progressInterval pd) (HVS.progress_timers s) ->
  HVS.in_flight s' = HVS.remove_pending p (HVS.in_flight s) ->
  HVS.next_id s' = HVS.next_id s ->
  (0 <= HVS.scanProgress s' <= 100)%Z ->
  paired s'.
Proof.
  intros [Hm Ht Hq Htf Hqf Hinc Hp] Hf H1 H2 H3 H4.
  split; rewrite ?H1, ?H2, ?H3; try done.
  - by apply paired_settle.
  - eapply sublist_NoDup; [exact Ht|apply fmap_sublist, filter_sublist].
  - eapply sublist_NoDup; [exact Hq|apply fmap_sublist, filter_sublist].
  - by apply filter_Forall.
  - by apply filter_Forall.
  - by apply filter_Forall.
Qed.

Lemma paired_step (s : State) (e : HVS.event A) :
  paired s -> paired (HVS.step s e).
Proof.
  intros H. destruct e as [|c|i|p r|p m|p r|p m]; cbn [HVS.step].
  - by apply paired_scanStocks.
  - destruct (existsb _ _); [|done].
    destruct c; cbn [HVS.onClick]; try done;
      try (by apply paired_scanStocks); try (by apply paired_analyze).
    + unfold HVS.setTimeframe. destruct (String.eqb _ _); [done|].
      apply paired_scanStocks. by eapply paired_ext; [..|exact H].
    + unfold HVS.setTimeframe. destruct (String.eqb _ _); [done|].
      apply paired_scanStocks. by eapply paired_ext; [..|exact H].
    + by eapply paired_ext; [..|exact H].
  - destruct (List.find _ _) as [[j [inc per]]|] eqn:Hfind; [|done].
    apply find_some in Hfind as [Hin _].
    destruct H as [Hm Ht Hq Htf Hqf Hinc Hp].
    split; try done. cbn.
    rewrite Forall_forall in Hinc.
    specialize (Hinc _ (proj2 (list_elem_of_In _ _) Hin)). simpl in Hinc. lia.
  - destruct (HVS.find_pending p (HVS.in_flight s)) as [pd|] eqn:Hf; [|done].
    destruct (HVS.awaited pd); [|done].
    by eapply (paired_settled s _ p pd); [exact H|exact Hf|..]; cbn; try lia.
  - destruct (HVS.find_pending p (HVS.in_flight s)) as [pd|] eqn:Hf; [|done].
    destruct (HVS.awaited pd); [|done].
    eapply (paired_settled s _ p pd); [exact H|exact Hf|..]; cbn; try done.
    apply H.
  - destruct (HVS.find_pending p (HVS.in_flight s)) as [pd|] eqn:Hf; [|done].
    destruct (HVS.awaited pd); [done|].
    by eapply (paired_settled s _ p pd); [exact H|exact Hf|..]; cbn; try lia.
  - destruct (HVS.find_pending p (HVS.in_flight s)) as [pd|] eqn:Hf; [|done].
    destruct (HVS.awaited pd); [done|].
    eapply (paired_settled s _ p pd); [exact H|exact Hf|..]; cbn; try done.
    apply H.
Qed.

Lemma paired_run (evs : list (HVS.event A)) : paired (HVS.run evs).
Proof.
  induction evs as [|e evs IH] using rev_ind.
  - split; cbn; try constructor; lia.
  - unfold HVS.run in *. rewrite fold_left_app. cbn. by apply paired_step.
Qed.

(** Whatever the user clicks and however requests settle, the progress
    shown stays between 0 and 100, and a progress interval is running for
    each request in flight and for nothing else: once every request has
    settled no interval is left. *)
Theorem scanner_timers_follow_requests (evs : list (HVS.event A)) :
  let s := HVS.run evs in
  (0 <= HVS.scanProgress s <= 100)%Z
  /\ fst <$> HVS.progress_timers s
     = (fun q => HVS.progressInterval (snd q)) <$> HVS.in_flight s
  /\ length (HVS.progress_timers s) = length (HVS.in_flight s)
  /\ (HVS.in_flight s = [] -> HVS.progress_timers s = []).
Proof.
  cbn zeta. destruct (paired_run evs) as [Hm _ _ _ _ _ Hp].
  split; [done|]. split; [|split].
  - induction Hm as [|t q ts qs Htq Hm IH]; [done|].
    rewrite !fmap_cons. by f_equal.
  - by eapply Forall2_length.
  - intros Hq. rewrite Hq in Hm. by apply Forall2_nil_inv_r in Hm.
Qed.

End ScannerFacts.

Section ScannerRequests.
Context {A : Type}.

Local Abbreviation State := (HVS.State A).

Local Abbreviation tidy := (@Progress.tidy A).

Lemma tidy_scanStocks (s : State) : tidy s -> tidy (HVS.scanStocks s).
Proof.
  intros [Htf Hreq]. split; [done|]. cbn.
  apply Forall_app. split; [done|]. constructor; [done|constructor].
Qed.

Lemma tidy_setTimeframe (s : State) (tf : string) :
  tf = "15" \/ tf = "60" -> tidy s -> tidy (HVS.setTimeframe s tf).
Proof.
  intros Htf [Hs Hreq]. unfold HVS.setTimeframe.
  destruct (String.eqb _ _); [done|]. by apply tidy_scanStocks.
Qed.

Lemma tidy_step (s : State) (e : HVS.event A) : tidy s -> tidy (HVS.step s e).
Proof.
  intros H. destruct e as [|c|i|p r|p m|p r|p m]; cbn [HVS.step].
  - by apply tidy_scanStocks.
  - destruct (existsb _ _); [|done].
    destruct c; cbn [HVS.onClick]; try done; try (by apply tidy_scanStocks).
    + apply tidy_setTimeframe; [by left|done].
    + apply tidy_setTimeframe; [by right|done].
    + unfold HVS.analyzeOptionChains.
      destruct (HVS.scanResult s) as [r|]; [|done].
      destruct (HVS.top_stocks r) as [|x l]; [done|].
      destruct H as [Htf Hreq]. split; [done|]. cbn.
      apply Forall_app. split; [done|]. constructor; [done|constructor].
  - by destruct (List.find _ _) as [[j [inc per]]|].
  - destruct (HVS.find_pending _ _) as [pd|]; [|done]. by destruct (HVS.awaited pd).
  - destruct (HVS.find_pending _ _) as [pd|]; [|done]. by destruct (HVS.awaited pd).
  - destruct (HVS.find_pending _ _) as [pd|]; [|done]. by destruct (HVS.awaited pd).
  - destruct (HVS.find_pending _ _) as [pd|]; [|done]. by destruct (HVS.awaited pd).
Qed.

(** Every request the panel issues is a scan for the 15 or the 60 minute
    timeframe with a top count of 5, or an analysis of a non-empty list of
    symbols; the panel never asks for an analysis of nothing. *)
Theorem scanner_requests_well_formed (evs : list (HVS.event A)) :
  Forall Progress.well_formed (HVS.issued (@HVS.run A evs)).
Proof.
  assert (H : tidy (HVS.run evs)); [|apply H].
  induction evs as [|e evs IH] using rev_ind.
  - split; [by left|constructor].
  - unfold HVS.run in *. rewrite fold_left_app. cbn. by apply tidy_step.
Qed.

(** When an option-chain analysis fails, the panel goes back to the scan
    results and shows the error with its Retry button, issuing nothing by
    itself; Retry then starts a new scan, it does not repeat the analysis
    that failed. *)
Theorem analysis_failure_returns_to_results (s : State) (p : nat)
  (pd : HVS.pending) (symbols : list string) (m : option string) :
  HVS.find_pending p (HVS.in_flight s) = Some pd ->
  HVS.awaited pd = HVS.bulkOCAnalysis symbols ->
  let s' := HVS.step s (HVS.AnalysisRejected p m) in
  HVS.phase s' = HVS.results
  /\ HVS.error s' = Some (HVS.message_or m "Failed to analyze option chains")
  /\ HVS.issued s' = HVS.issued s
  /\ HVS.scanResult s' = HVS.scanResult s
  /\ In HVS.Retry (HVS.render s')
  /\ HVS.issued (HVS.step s' (HVS.Click HVS.Retry))
     = HVS.issued s ++ [HVS.scanHighVolume (HVS.timeframe s) 5].
Proof.
  intros Hp Hreq. cbn zeta.
  assert (Hs' : HVS.step s (HVS.AnalysisRejected p m)
                = HVS.analysis_settled s p pd (inr m)).
  { simpl. by rewrite Hp, Hreq. }
  rewrite Hs'.
  assert (Hr : existsb (HVS.control_eqb HVS.Retry)
                 (HVS.render (HVS.analysis_settled s p pd (inr m))) = true).
  { eapply retry_rendered; [reflexivity|]. by apply message_or_not_empty. }
  split; [done|]. split; [done|]. split; [done|]. split; [done|]. split.
  { apply existsb_exists in Hr as (c & Hc & Heq). by destruct c. }
  cbn [HVS.step]. by rewrite Hr.
Qed.

End ScannerRequests.

(** The analysis of the examples, rejected with a network error. *)
Lemma analysis_failure_returns_to_results_witness :
  HVS.phase (HVS.step Sample.analysis_in_flight
               (HVS.AnalysisRejected 3 (Some "Failed to fetch")))
  = HVS.results
  /\ HVS.issued
       (HVS.step
          (HVS.step Sample.analysis_in_flight
             (HVS.AnalysisRejected 3 (Some "Failed to fetch")))
          (HVS.Click HVS.Retry))
     = [HVS.scanHighVolume "15" 5; HVS.bulkOCAnalysis ["NSE:SBIN-EQ"];
        HVS.scanHighVolume "15" 5].
Proof.
  destruct (analysis_failure_returns_to_results Sample.analysis_in_flight 3
              {| HVS.awaited := HVS.bulkOCAnalysis ["NSE:SBIN-EQ"];
                 HVS.progressInterval := 2 |}
              ["NSE:SBIN-EQ"] (Some "Failed to fetch") eq_refl eq_refl)
    as (H1 & _ & _ & _ & _ & H6).
  split; [exact H1|exact H6].
Defined.

(** ** Progress indicators *)

(** StockAnalysis's simulated progress, started at 0, shows
    [min (2 n) 90] after [n] firings of its interval: it climbs by 2 and
    stops at 90 until the scan ends. *)
Theorem stock_progress_closed_form (n : nat) :
  Nat.iter n Progress.stock_tick 0%Z = Z.min (2 * Z.of_nat n) 90.
Proof.
  induction n as [|n IH]; [done|].
  rewrite Nat.iter_succ, IH. unfold Progress.stock_tick.
  destruct (Z.geb_spec (Z.min (2 * Z.of_nat n) 90) 90); lia.
Qed.

(** HighVolumeScanner's progress ring, after the scan started on mount
    and [n] firings of its interval, shows [min (2 n) 90]: it stops at 90
    until the request settles. *)
Theorem scan_progress_closed_form (A : Type) (n : nat) :
  let s : HVS.State A :=
    HVS.run (HVS.Mount :: replicate n (HVS.ProgressTick 0)) in
  HVS.scanProgress s = Z.min (2 * Z.of_nat n) 90
  /\ HVS.issued s = [HVS.scanHighVolume "15" 5].
Proof.
  cbn zeta.
  assert (H : let s : HVS.State A :=
                HVS.run (HVS.Mount :: replicate n (HVS.ProgressTick 0)) in
              HVS.progress_timers s = [(0%nat, (2%Z, 100%Z))]
              /\ HVS.scanProgress s = Z.min (2 * Z.of_nat n) 90
              /\ HVS.issued s = [HVS.scanHighVolume "15" 5]).
  { induction n as [|n IH]; [done|]. cbn zeta in *.
    rewrite replicate_S_end, app_comm_cons.
    unfold HVS.run in *. rewrite fold_left_app.
    set (s := fold_left HVS.step (HVS.Mount :: replicate n (HVS.ProgressTick 0))
                HVS.initial) in *.
    destruct IH as (Ht & Hp & Hi). cbn [fold_left HVS.step]. rewrite Ht.
    cbn [List.find fst Nat.eqb HVS.progress_tick HVS.progress_timers
         HVS.scanProgress HVS.issued].
    split; [done|]. split; [|done]. rewrite Hp. lia. }
  cbn zeta in H. tauto.
Qed.

(** ** The signal of ActiveStrategy *)

Section StrategyFacts.
Context {num : Type}.
Variable num_truthy : num -> bool.
Variable toFixed0 : num -> string.

Local Abbreviation fetchStrategy_settled :=
  (Strategy.fetchStrategy_settled num_truthy toFixed0).

(** On a response whose [adjustment.detected] and
    [adjustment.trade_setup] are truthy, ActiveStrategy shows the signal,
    with the backend's action, rationale and confidence, the first strike
    of the setup or else the ATM strike, and an invalidation text made from
    the spot price, only when [spot_price] is a number, [null] or absent.
    For any other [spot_price], a number sent as a string say, the call of
    [toFixed] throws inside the [try] and the [catch] block resets the panel
    to its initial state: the signal is dropped without a trace. *)
Theorem strategy_signal_needs_numeric_spot (data adj setup : jsval num) :
  prop data "adjustment" = Some adj ->
  truthy_opt num_truthy (prop adj "detected") = true ->
  prop adj "trade_setup" = Some setup ->
  truthy num_truthy setup = true ->
  let st := fetchStrategy_settled (Resolved data) in
  let signal_from (spot : string) :=
    {| Strategy.status := Strategy.signal;
       Strategy.strategy_type := "Adjustment Trade";
       Strategy.strike :=
         Strategy.or num_truthy (Strategy.first (prop setup "strikes"))
           (prop data "atm_strike");
       Strategy.action := prop setup "action";
       Strategy.rationale := prop setup "rationale";
       Strategy.confidence := prop adj "confidence";
       Strategy.invalidation := Some ("Spot move > 100 pts from " +:+ spot);
       Strategy.time_window := prop data "time_window" |} in
  match prop data "spot_price" with
  | None | Some JNull => st = signal_from "undefined"
  | Some (JNum n) => st = signal_from (toFixed0 n)
  | Some _ => st = Strategy.initial
  end.
Proof.
  intros Hadj Hdet Hsetup Htr. cbn zeta.
  unfold Strategy.fetchStrategy_settled, Strategy.adjustment_signal.
  rewrite Hadj.
  assert (Hnn : adj <> JNull) by (intros ->; discriminate).
  assert (Hsig : (match adj with
                  | JNull => false
                  | _ => truthy_opt num_truthy (prop adj "detected")
                         && truthy_opt num_truthy (prop adj "trade_setup")
                  end) = true).
  { destruct adj; try done; rewrite Hdet, Hsetup; simpl; by rewrite Htr. }
  rewrite Hsig, Hsetup.
  by destruct (prop data "spot_price") as [[]|].
Qed.

End StrategyFacts.

(** The response of the examples gives the signal with its spot price
    25010 sent as a number, and the initial state with the spot price sent
    as the string "25010.35". *)
Lemma strategy_signal_needs_numeric_spot_witness :
  Strategy.invalidation
    (Strategy.fetchStrategy_settled Sample.num_truthy Sample.toFixed0
       (Resolved Sample.market_state))
  = Some "Spot move > 100 pts from 25010"
  /\ Strategy.fetchStrategy_settled Sample.num_truthy Sample.toFixed0
       (Resolved Sample.market_state_text_spot)
     = Strategy.initial.
Proof.
  split.
  - rewrite (strategy_signal_needs_numeric_spot Sample.num_truthy Sample.toFixed0
               Sample.market_state Sample.adjustment Sample.trade_setup
               eq_refl eq_refl eq_refl eq_refl).
    reflexivity.
  - exact (strategy_signal_needs_numeric_spot Sample.num_truthy Sample.toFixed0
             Sample.market_state_text_spot Sample.adjustment Sample.trade_setup
             eq_refl eq_refl eq_refl eq_refl).
Defined.

(** ** The requests of the [api] object *)

Section RequestFacts.
Context {num : Type}.
Variable stringify : jsval num -> string.
Variable NEXT_PUBLIC_API_URL : option string.


End RequestFacts.


(** ** The data-fetching effects over whole lifecycles *)

Section LifecycleFacts.

(** A lifecycle after the mount: each event with the component as it is
    rendered then, its props included. *)
Local Abbreviation from r evs :=
  (fold_left (fun r0 (pe : Effects.panel * Effects.event) =>
                Effects.step (fst pe) r0 (snd pe)) evs r).

(** Run from a runtime without intervals, an effect leaves none or the one
    it registered, which its cleanup clears. *)
Lemma effect_registers_at_most_one (p : Effects.panel) (r : Effects.runtime) :
  Effects.intervals r = [] -> Effects.cleanup r = [] ->
  let r' := fold_left Effects.exec (Effects.effect p) r in
  (Effects.intervals r' = [] /\ Effects.cleanup r' = [])
  \/ (exists i x, Effects.intervals r' = [(i, x)] /\ Effects.cleanup r' = [i]).
Proof.
  intros Hi Hc. cbn zeta.
  destruct p as [| | | | |auto ms| | |tab]; cbn; rewrite Hi, Hc; cbn;
    try (by left); try (right; by do 2 eexists).
  - destruct auto; cbn; rewrite ?Hi, ?Hc; [right; by do 2 eexists|by left].
  - destruct (String.eqb tab "portfolio"); [cbn; by left|].
    destruct (String.eqb tab "orders"); cbn; by left.
Qed.

Lemma cleanup_clears (r : Effects.runtime) :
  (Effects.intervals r = [] /\ Effects.cleanup r = [])
  \/ (exists i x, Effects.intervals r = [(i, x)] /\ Effects.cleanup r = [i]) ->
  Effects.intervals (Effects.run_cleanup r) = []
  /\ Effects.cleanup (Effects.run_cleanup r) = [].
Proof.
  intros [[Hi Hc]|(i & x & Hi & Hc)]; unfold Effects.run_cleanup; cbn;
    rewrite Hi, Hc; cbn; by rewrite ?Nat.eqb_refl.
Qed.

Lemma lifecycle_step (p : Effects.panel) (r : Effects.runtime) (e : Effects.event) :
  e <> Effects.Mount ->
  (Effects.intervals r = [] /\ Effects.cleanup r = [])
  \/ (exists i x, Effects.intervals r = [(i, x)] /\ Effects.cleanup r = [i]) ->
  (Effects.intervals (Effects.step p r e) = []
   /\ Effects.cleanup (Effects.step p r e) = [])
  \/ (exists i x, Effects.intervals (Effects.step p r e) = [(i, x)]
                  /\ Effects.cleanup (Effects.step p r e) = [i]).
Proof.
  intros He Hr. destruct e as [| |i|]; [done| | |].
  - destruct (cleanup_clears r Hr) as [Hi Hc].
    by apply effect_registers_at_most_one.
  - cbn. by destruct (find _ _) as [[j [f ms]]|].
  - left. by apply cleanup_clears.
Qed.

Lemma lifecycle_run (p0 : Effects.panel)
  (evs : list (Effects.panel * Effects.event)) :
  Forall (fun pe => snd pe <> Effects.Mount) evs ->
  let r := from (Effects.step p0 Effects.unmounted Effects.Mount) evs in
  (Effects.intervals r = [] /\ Effects.cleanup r = [])
  \/ (exists i x, Effects.intervals r = [(i, x)] /\ Effects.cleanup r = [i]).
Proof.
  cbn zeta. induction evs as [|[p e] evs IH] using rev_ind; intros Hevs.
  - by apply (effect_registers_at_most_one p0 Effects.unmounted).
  - apply Forall_app in Hevs as [Hevs He]. apply Forall_inv in He.
    rewrite fold_left_app. cbn [fold_left fst snd].
    apply lifecycle_step; [exact He|]. by apply IH.
Qed.

(** However often its props change, its effect runs again and its interval
    fires, a panel never has more than one interval running, and
    unmounting leaves none: no firing after the unmount calls into the
    component. *)
Theorem intervals_do_not_accumulate (p0 q : Effects.panel)
  (evs : list (Effects.panel * Effects.event)) (later : list nat) :
  Forall (fun pe => snd pe <> Effects.Mount) evs ->
  let r := from (Effects.step p0 Effects.unmounted Effects.Mount) evs in
  (length (Effects.intervals r) <= 1)%nat
  /\ Effects.intervals (Effects.step q r Effects.Unmount) = []
  /\ Effects.calls
       (fold_left (Effects.step q) (Effects.Unmount :: (Effects.Tick <$> later)) r)
     = Effects.calls r.
Proof.
  intros Hevs. cbn zeta.
  pose proof (lifecycle_run p0 evs Hevs) as Hr. cbn zeta in Hr.
  destruct (cleanup_clears _ Hr) as [Hi _].
  split; [|split].
  - destruct Hr as [[-> _]|(i & x & -> & _)]; simpl; lia.
  - exact Hi.
  - cbn [fold_left]. by rewrite no_interval_no_call.
Qed.

End LifecycleFacts.

(** NiftySentimentCards with auto-refresh, whose refresh interval is
    changed and whose auto-refresh is then switched off between firings. *)
Lemma intervals_do_not_accumulate_witness :
  Effects.intervals
    (fold_left (fun r (pe : Effects.panel * Effects.event) =>
                  Effects.step (fst pe) r (snd pe))
       [(Effects.NiftySentimentCards true 30000, Effects.Tick 0);
        (Effects.NiftySentimentCards true 60000, Effects.Rerun);
        (Effects.NiftySentimentCards true 60000, Effects.Tick 1);
        (Effects.NiftySentimentCards false 60000, Effects.Rerun);
        (Effects.NiftySentimentCards false 60000, Effects.Unmount)]
       (Effects.step (Effects.NiftySentimentCards true 30000) Effects.unmounted
          Effects.Mount)) = [].
Proof.
  apply (intervals_do_not_accumulate (Effects.NiftySentimentCards true 30000)
           (Effects.NiftySentimentCards false 60000)
           [(Effects.NiftySentimentCards true 30000, Effects.Tick 0);
            (Effects.NiftySentimentCards true 60000, Effects.Rerun);
            (Effects.NiftySentimentCards true 60000, Effects.Tick 1);
            (Effects.NiftySentimentCards false 60000, Effects.Rerun)] []).
  repeat constructor; discriminate.
Defined.

(** ** The ATM highlight of OptionChainTable *)

(** Two rows the table highlights as at the money have strikes less than
    50 apart, whatever the spot price, a missing one included: in a chain
    whose strikes lie 50 apart the highlighted rows all show the same
    strike. *)
Theorem atm_rows_are_close (q : Views.query Views.chain)
  (body : list Views.row_view) (r1 r2 : Views.row_view) :
  Views.OptionChainTable q = Views.ChainTable body ->
  r1 ∈ body -> r2 ∈ body ->
  Views.atm_highlight r1 = true -> Views.atm_highlight r2 = true ->
  (Z.abs (Views.strike_cell r1 - Views.strike_cell r2) < 50)%Z
  /\ ((50 | Views.strike_cell r1 - Views.strike_cell r2)%Z ->
      Views.strike_cell r1 = Views.strike_cell r2).
Proof.
  unfold Views.OptionChainTable.
  destruct (_ && _); [done|]. destruct (Views.q_error q); [done|].
  intros [= <-] H1 H2.
  apply list_elem_of_fmap in H1 as (row1 & -> & _).
  apply list_elem_of_fmap in H2 as (row2 & -> & _).
  cbn [Views.atm_highlight Views.strike_cell]. unfold Views.isATM.
  set (spot := match Views.q_data q with
               | Some c' => match Views.spot_price c' with
                            | Some p => if (p =? 0)%Z then 0%Z else p
                            | None => 0%Z
                            end
               | None => 0%Z
               end).
  intros Ha Hb. apply Z.ltb_lt in Ha, Hb.
  assert (Hlt : (Z.abs (Views.strike_price row1 - Views.strike_price row2) < 50)%Z)
    by lia.
  split; [exact Hlt|]. intros [k Hk]. lia.
Qed.

(** With the spot at 24020, rows at 24000 and 24040 are both highlighted;
    they are 40 apart. *)
Lemma atm_rows_are_close_witness :
  Views.OptionChainTable
    {| Views.q_data :=
         Some {| Views.spot_price := Some 24020%Z;
                 Views.rows := [ {| Views.strike_price := 24000 |};
                                 {| Views.strike_price := 24040 |} ] |};
       Views.isLoading := false; Views.q_error := None |}
  = Views.ChainTable
      [ {| Views.atm_highlight := true; Views.strike_cell := 24000 |};
        {| Views.atm_highlight := true; Views.strike_cell := 24040 |} ]
  /\ (Z.abs (24000 - 24040) < 50)%Z.
Proof.
  split; [reflexivity|].
  apply (atm_rows_are_close
           {| Views.q_data :=
                Some {| Views.spot_price := Some 24020%Z;
                        Views.rows := [ {| Views.strike_price := 24000 |};
                                        {| Views.strike_price := 24040 |} ] |};
              Views.isLoading := false; Views.q_error := None |}
           [ {| Views.atm_highlight := true; Views.strike_cell := 24000 |};
             {| Views.atm_highlight := true; Views.strike_cell := 24040 |} ]
           {| Views.atm_highlight := true; Views.strike_cell := 24000 |}
           {| Views.atm_highlight := true; Views.strike_cell := 24040 |}
           eq_refl ltac:(left) ltac:(right; left) eq_refl eq_refl).
Defined.
